(** * ikitsuke: location-anchored memory notes

    A shallow embedding of [src/ikitsuke.py]: the note store kept in
    [notes.json], the per-session state of the Streamlit script, the hashtag
    search, the 10 km proximity gate and the AI recommendation dialogue.

    Conventions of the embedding:
    - a Python [str] is the list of its code points ([pystr]);
    - a Python [float] is a binary64 primitive float;
    - a Python [set] of strings is a [gset pystr];
    - [st.session_state] is the record [Session]; the content of
      [notes.json] is a [list Note];
    - calls that leave the program ([great_circle], the clock, the Places
      and chat APIs, the widgets) are inputs of the functions that use
      them. *)

From Stdlib Require Import ZArith NArith String Ascii Lia.
From Stdlib Require Import Floats.PrimFloat.
From stdpp Require Import base list gmap sorting.

#[local] Set Warnings "-inexact-float".

Open Scope N_scope.

(** ** Python strings *)

Definition pystr := list N.

(** An ASCII literal as a Python string. *)
Definition py (s : string) : pystr := N_of_ascii <$> list_ascii_of_string s.

(** [str.isspace] on one code point; also the class [\s] of [re] on [str]
    patterns. *)
Definition isspace (c : N) : bool :=
  ((9 <=? c) && (c <=? 13)) || ((28 <=? c) && (c <=? 32))
  || (c =? 133) || (c =? 160) || (c =? 5760)
  || ((8192 <=? c) && (c <=? 8202))
  || (c =? 8232) || (c =? 8233) || (c =? 8239) || (c =? 8287) || (c =? 12288).

(** Leading whitespace removed: [str.lstrip()], and what a greedy [\s*]
    leaves. *)
Fixpoint skip_ws (s : pystr) : pystr :=
  match s with
  | c :: t => if isspace c then skip_ws t else s
  | [] => []
  end.

(** [str.strip()]. *)
Definition strip (s : pystr) : pystr :=
  reverse (skip_ws (reverse (skip_ws s))).

(** [s.lstrip(ch)] for a one-character argument. *)
Fixpoint lstrip_chr (ch : N) (s : pystr) : pystr :=
  match s with
  | c :: t => if c =? ch then lstrip_chr ch t else s
  | [] => []
  end.

(** [str.split()] with no argument: the maximal runs of non-whitespace.
    [cur] is the run being read, last character first. *)
Fixpoint split_from (cur : pystr) (s : pystr) : list pystr :=
  match s with
  | [] => match cur with [] => [] | _ => [reverse cur] end
  | c :: t =>
      if isspace c
      then match cur with
           | [] => split_from [] t
           | _ => reverse cur :: split_from [] t
           end
      else split_from (c :: cur) t
  end.

Definition split (s : pystr) : list pystr := split_from [] s.

(** [Some rest] when [s = p ++ rest]. *)
Fixpoint strip_prefix (p s : pystr) : option pystr :=
  match p, s with
  | [], _ => Some s
  | a :: p', b :: s' => if a =? b then strip_prefix p' s' else None
  | _ :: _, [] => None
  end.

(** [s.replace(old, '')]: every occurrence of [old], found left to right
    without overlap, is dropped. [skip] counts the characters of an
    occurrence still to drop. *)
Fixpoint remove_from (old : pystr) (skip : nat) (s : pystr) : pystr :=
  match s with
  | [] => []
  | c :: t =>
      match skip with
      | S k => remove_from old k t
      | O =>
          match strip_prefix old s with
          | Some _ => remove_from old (pred (length old)) t
          | None => c :: remove_from old O t
          end
      end
  end.

Definition remove_all (old s : pystr) : pystr :=
  match old with
  | [] => s
  | _ => remove_from old O s
  end.

(** Truth value of a string: non-empty. *)
Definition nonempty (s : pystr) : bool :=
  match s with [] => false | _ => true end.

(** ** The reply pattern

    [re.search(PATTERN, msg, re.DOTALL)] where PATTERN reads: an opening
    brace, [\s*], the key recommended_note_id in double quotes, a colon,
    [\s*], a double quote, a lazy [.*?], a double quote, [\s*], a closing
    brace. *)

Definition LBRACE : N := 123.
Definition RBRACE : N := 125.
Definition DQUOTE : N := 34.
Definition COLON : N := 58.

(** The quoted key and its colon, as the pattern spells them. *)
Definition key_name : pystr := py "recommended_note_id".
Definition key_literal : pystr := DQUOTE :: key_name ++ [DQUOTE; COLON].

(** The tail of the pattern (double quote, [\s*], closing brace) at the head
    of [s]; the text after it. *)
Definition closing (s : pystr) : option pystr :=
  match s with
  | c :: t =>
      if c =? DQUOTE
      then match skip_ws t with
           | d :: rest => if d =? RBRACE then Some rest else None
           | [] => None
           end
      else None
  | [] => None
  end.

(** The lazy [.*?] followed by the tail: the first place where the tail
    matches, any character (newlines too, by DOTALL) being skipped before it. *)
Fixpoint lazy_body (s : pystr) : option pystr :=
  match closing s with
  | Some rest => Some rest
  | None => match s with
            | _ :: t => lazy_body t
            | [] => None
            end
  end.

(** The whole pattern anchored at the head of [s]; the text after the match. *)
Definition match_here (s : pystr) : option pystr :=
  match s with
  | c :: s1 =>
      if c =? LBRACE
      then match strip_prefix key_literal (skip_ws s1) with
           | Some s2 =>
               match skip_ws s2 with
               | d :: s3 => if d =? DQUOTE then lazy_body s3 else None
               | [] => None
               end
           | None => None
           end
      else None
  | [] => None
  end.

(** [re.search]: the leftmost match, as (text before, group 0, text after). *)
Fixpoint re_search (s : pystr) : option (pystr * pystr * pystr) :=
  match match_here s with
  | Some rest => Some ([], take (length s - length rest)%nat s, rest)
  | None =>
      match s with
      | c :: t =>
          match re_search t with
          | Some (pre, m, post) => Some (c :: pre, m, post)
          | None => None
          end
      | [] => None
      end
  end.

(** ** JSON values and [json.loads]

    The decoder is the one of CPython's [json] module with its defaults:
    strict strings, the constants NaN, Infinity and -Infinity accepted,
    a later member of an object overriding an earlier one of the same key.
    It raises JSONDecodeError on a text that is not JSON, ValueError on an
    integer of more than 4300 digits, and RecursionError when the levels of
    recursion the interpreter has left do not suffice. *)

#[local] Set Warnings "-register-all".

Inductive json : Type :=
| JNull
| JBool (b : bool)
| JInt (z : Z)
| JFloat (m e : Z)          (* the decimal m * 10^e, as the text spells it *)
| JNaN
| JInf (negative : bool)
| JStr (s : pystr)
| JArr (items : list json)
| JObj (members : list (pystr * json)).

Definition BACKSLASH : N := 92.
Definition COMMA : N := 44.
Definition LBRACKET : N := 91.
Definition RBRACKET : N := 93.
Definition MINUS : N := 45.
Definition PLUS : N := 43.
Definition DOT : N := 46.

Definition is_json_ws (c : N) : bool :=
  (c =? 32) || (c =? 9) || (c =? 10) || (c =? 13).

Fixpoint skip_json_ws (s : pystr) : pystr :=
  match s with
  | c :: t => if is_json_ws c then skip_json_ws t else s
  | [] => []
  end.

Definition is_digit (c : N) : bool := (48 <=? c) && (c <=? 57).

(** The leading decimal digits of [s] and the text after them. *)
Fixpoint digits (s : pystr) : pystr * pystr :=
  match s with
  | c :: t => if is_digit c then let '(ds, r) := digits t in (c :: ds, r) else ([], s)
  | [] => ([], [])
  end.

Definition digits_value (ds : pystr) : Z :=
  fold_left (fun acc d => (10 * acc + Z.of_N (d - 48))%Z) ds 0%Z.

Definition hex_value (c : N) : option N :=
  if is_digit c then Some (c - 48)
  else if (97 <=? c) && (c <=? 102) then Some (c - 87)
  else if (65 <=? c) && (c <=? 70) then Some (c - 55)
  else None.

(** The four hex digits of a [\u] escape. *)
Definition hex4 (s : pystr) : option (N * pystr) :=
  match s with
  | a :: b :: c :: d :: rest =>
      match hex_value a, hex_value b, hex_value c, hex_value d with
      | Some x, Some y, Some z, Some w => Some (((x * 16 + y) * 16 + z) * 16 + w, rest)
      | _, _, _, _ => None
      end
  | _ => None
  end.

Definition simple_escape (c : N) : option N :=
  if c =? DQUOTE then Some DQUOTE
  else if c =? BACKSLASH then Some BACKSLASH
  else if c =? 47 then Some 47
  else if c =? 98 then Some 8
  else if c =? 102 then Some 12
  else if c =? 110 then Some 10
  else if c =? 114 then Some 13
  else if c =? 116 then Some 9
  else None.

Definition is_high_surrogate (c : N) : bool := (55296 <=? c) && (c <=? 56319).
Definition is_low_surrogate (c : N) : bool := (56320 <=? c) && (c <=? 57343).
Definition join_surrogates (hi lo : N) : N :=
  65536 + ((hi - 55296) * 1024 + (lo - 56320)).

(** One [\u] escape, [s] being the text after the [u]: a high surrogate
    takes a following escaped low surrogate with it. *)
Definition unicode_escape (s : pystr) : option (N * pystr) :=
  match hex4 s with
  | Some (c, rest) =>
      if is_high_surrogate c
      then match rest with
           | b :: u :: rest2 =>
               if (b =? BACKSLASH) && (u =? 117)
               then match hex4 rest2 with
                    | Some (c2, rest3) =>
                        if is_low_surrogate c2
                        then Some (join_surrogates c c2, rest3)
                        else Some (c, rest)
                    | None => None
                    end
               else Some (c, rest)
           | _ => Some (c, rest)
           end
      else Some (c, rest)
  | None => None
  end.

(** [scanstring], [s] being the text after the opening quote: the decoded
    string and the text after the closing quote. *)
Fixpoint scanstring (fuel : nat) (s : pystr) : option (pystr * pystr) :=
  match fuel with
  | O => None
  | S fuel' =>
      match s with
      | [] => None
      | c :: t =>
          if c =? DQUOTE then Some ([], t)
          else if c =? BACKSLASH then
            match t with
            | [] => None
            | e :: t' =>
                if e =? 117
                then match unicode_escape t' with
                     | Some (ch, rest) =>
                         match scanstring fuel' rest with
                         | Some (str, r) => Some (ch :: str, r)
                         | None => None
                         end
                     | None => None
                     end
                else match simple_escape e with
                     | Some ch =>
                         match scanstring fuel' t' with
                         | Some (str, r) => Some (ch :: str, r)
                         | None => None
                         end
                     | None => None
                     end
            end
          else if c <=? 31 then None
          else match scanstring fuel' t with
               | Some (str, r) => Some (c :: str, r)
               | None => None
               end
      end
  end.

(** The exceptions of the decoder, as line 404 tells them apart. *)
Inductive raised : Type :=
| DecodeErr              (* json.JSONDecodeError *)
| OtherErr.              (* ValueError or RecursionError *)

(** What a step of the scanner ends in. *)
Inductive outcome (A : Type) : Type :=
| Done (a : A)
| NoValue                (* StopIteration: no value begins here; the caller of
                            the scanner makes a JSONDecodeError of it *)
| Raised (e : raised).

Arguments Done {A} a.
Arguments NoValue {A}.
Arguments Raised {A} e.

(** Levels of recursion. CPython 3.11 has one counter for the calls of
    Python functions and for the recursive calls of the scanner, and raises
    RecursionError where a call would pass the recursion limit. The levels
    left are what the limit exceeds the depth of the stack by. [json.loads]
    reaches the scanner when it is called with four levels left ([loads],
    [decode] and [raw_decode] are Python functions); the scanner takes one
    more for every container it is inside of, and one for the call that
    looks up NaN, Infinity or -Infinity; building a JSONDecodeError, a
    class written in Python, takes three where the error is found. *)
Definition levels_to_scanner : nat := 4.
Definition levels_of_error : nat := 3.

(** [raise_errmsg] in [_json.c], with [room] levels left. *)
Definition errmsg (room : nat) : raised :=
  if (levels_of_error <=? room)%nat then DecodeErr else OtherErr.

(** [sys.get_int_max_str_digits()], as CPython sets it: [int] refuses a
    decimal text of more digits with a ValueError. *)
Definition int_max_str_digits : N := 4300.

(** [_match_number]: an optional minus, 0 or a digit string with no leading
    zero, an optional fraction, an optional exponent. A number without
    fraction and exponent goes to [int], the others to [float]. *)
Definition match_number (s : pystr) : outcome (json * pystr) :=
  let '(neg, s1) :=
    match s with
    | c :: t => if c =? MINUS then (true, t) else (false, s)
    | [] => (false, s)
    end in
  let int_part :=
    match s1 with
    | c :: t =>
        if c =? 48 then Some ([c], t)
        else if is_digit c then let '(ds, r) := digits t in Some (c :: ds, r)
        else None
    | [] => None
    end in
  match int_part with
  | None => NoValue
  | Some (ip, r1) =>
      let '(frac, r2) :=
        match r1 with
        | p :: d :: _ =>
            if (p =? DOT) && is_digit d
            then let '(fs, r) := digits (tail r1) in (Some fs, r)
            else (None, r1)
        | _ => (None, r1)
        end in
      let '(expo, r3) :=
        match r2 with
        | e :: t =>
            if (e =? 101) || (e =? 69)
            then let '(eneg, t2) :=
                   match t with
                   | sg :: t' =>
                       if sg =? MINUS then (true, t')
                       else if sg =? PLUS then (false, t')
                       else (false, t)
                   | [] => (false, t)
                   end in
                 match digits t2 with
                 | ([], _) => (None, r2)
                 | (es, r) =>
                     (Some (if eneg then (- digits_value es)%Z else digits_value es), r)
                 end
            else (None, r2)
        | [] => (None, r2)
        end in
      let sign (z : Z) := if neg then (- z)%Z else z in
      match frac, expo with
      | None, None =>
          if int_max_str_digits <? N.of_nat (length ip)
          then Raised OtherErr
          else Done (JInt (sign (digits_value ip)), r3)
      | _, _ =>
          let fs := default [] frac in
          let ex := default 0%Z expo in
          Done (JFloat (sign (digits_value (ip ++ fs))) (ex - Z.of_nat (length fs)), r3)
      end
  end.

(** [_parse_constant]: the three constants that are no JSON are looked up
    by a call of [parse_constant], which takes a level. *)
Definition parse_constant (room : nat) (found : json * pystr) : outcome (json * pystr) :=
  match room with
  | O => Raised OtherErr
  | S _ => Done found
  end.

(** [_parse_object] and [_parse_array] from the first key, respectively the
    first item, on: the loops of the decoder. [scan] decodes one value at
    the nesting inside the container, where [room] levels are left; [acc]
    is what was read so far, last first. [fuel] bounds the turns of the
    loop; a turn reads at least one character, so the length of the text
    is enough. *)
Section Containers.

Variable scan : pystr -> outcome (json * pystr).
Variable room : nat.

Fixpoint object_members (fuel : nat) (acc : list (pystr * json)) (s : pystr)
  : outcome (json * pystr) :=
  match fuel with
  | O => Raised DecodeErr
  | S fuel' =>
      match s with
      | q :: t =>
          if q =? DQUOTE then
            match scanstring (length t) t with
            | Some (key, r) =>
                match skip_json_ws r with
                | c :: r1 =>
                    if c =? COLON then
                      match scan (skip_json_ws r1) with
                      | Done (v, r2) =>
                          match skip_json_ws r2 with
                          | d :: r3 =>
                              if d =? RBRACE
                              then Done (JObj (reverse ((key, v) :: acc)), r3)
                              else if d =? COMMA
                              then object_members fuel' ((key, v) :: acc) (skip_json_ws r3)
                              else Raised (errmsg room)
                          | [] => Raised (errmsg room)
                          end
                      | NoValue => NoValue
                      | Raised e => Raised e
                      end
                    else Raised (errmsg room)
                | [] => Raised (errmsg room)
                end
            | None => Raised (errmsg room)
            end
          else Raised (errmsg room)
      | [] => Raised (errmsg room)
      end
  end.

Fixpoint array_items (fuel : nat) (acc : list json) (s : pystr)
  : outcome (json * pystr) :=
  match fuel with
  | O => Raised DecodeErr
  | S fuel' =>
      match scan s with
      | Done (v, r) =>
          match skip_json_ws r with
          | d :: r1 =>
              if d =? RBRACKET then Done (JArr (reverse (v :: acc)), r1)
              else if d =? COMMA then array_items fuel' (v :: acc) (skip_json_ws r1)
              else Raised (errmsg room)
          | [] => Raised (errmsg room)
          end
      | NoValue => NoValue
      | Raised e => Raised e
      end
  end.

End Containers.

(** [scan_once], with [room] levels left. Entering an object or an array
    is a recursive call ([Py_EnterRecursiveCall] in [_json.c]) and takes a
    level: with none left a RecursionError is raised at the opening brace
    or bracket, whatever follows it. *)
Fixpoint scan_once (room : nat) (s : pystr) : outcome (json * pystr) :=
  match s with
  | [] => NoValue
  | c :: t =>
      if c =? DQUOTE then
        match scanstring (length t) t with
        | Some (str, r) => Done (JStr str, r)
        | None => Raised (errmsg room)
        end
      else if c =? LBRACE then
        match room with
        | O => Raised OtherErr
        | S room' =>
            match skip_json_ws t with
            | d :: r => if d =? RBRACE then Done (JObj [], r)
                        else object_members (scan_once room') room' (length t) [] (d :: r)
            | [] => Raised (errmsg room')
            end
        end
      else if c =? LBRACKET then
        match room with
        | O => Raised OtherErr
        | S room' =>
            match skip_json_ws t with
            | d :: r => if d =? RBRACKET then Done (JArr [], r)
                        else array_items (scan_once room') room' (length t) [] (d :: r)
            | [] => NoValue
            end
        end
      else
        match strip_prefix (py "null") s with
        | Some r => Done (JNull, r)
        | None =>
        match strip_prefix (py "true") s with
        | Some r => Done (JBool true, r)
        | None =>
        match strip_prefix (py "false") s with
        | Some r => Done (JBool false, r)
        | None =>
        match strip_prefix (py "NaN") s with
        | Some r => parse_constant room (JNaN, r)
        | None =>
        match strip_prefix (py "Infinity") s with
        | Some r => parse_constant room (JInf false, r)
        | None =>
        match strip_prefix (py "-Infinity") s with
        | Some r => parse_constant room (JInf true, r)
        | None => match_number s
        end end end end end end
  end.

(** [json.loads] called with [levels] levels of recursion left: one value,
    whitespace around it, nothing else. An error is raised at the first
    place that calls for one, reading from the left. The JSONDecodeError
    for a missing value is built in [raw_decode], one level above the
    scanner, the one for text after the value in [decode], two levels above
    it. *)
Definition json_loads (levels : nat) (s : pystr) : json + raised :=
  if match s with c :: _ => c =? 65279 | [] => false end
  then inr (errmsg (levels - 1))        (* a byte order mark: refused in [loads] *)
  else if (levels <? levels_to_scanner)%nat then inr OtherErr
  else
    let room := (levels - levels_to_scanner)%nat in
    match scan_once room (skip_json_ws s) with
    | Done (v, r) =>
        match skip_json_ws r with
        | [] => inl v
        | _ => inr (errmsg (room + 2))
        end
    | NoValue => inr (errmsg (room + 1))
    | Raised e => inr e
    end.

(** [dict.get(key)] on the dictionary built from [members] in their order:
    the value of the last member of that key; [JNull] stands for Python's
    [None]. *)
Definition dict_get (key : pystr) (members : list (pystr * json)) : json :=
  fold_left (fun found kv => if bool_decide (kv.1 = key) then kv.2 else found)
            members JNull.

(** ** Truth values and comparisons of Python values *)

(** [bool(x)] for a float: everything but the two zeros. *)
Definition float_truthy (x : float) : bool := negb (PrimFloat.eqb x 0%float).

(** A decimal [m * 10^e] that [float()] rounds to zero: zero itself, or a
    magnitude of at most 2^-1075, half the least subnormal. *)
Definition rounds_to_zero (m e : Z) : bool :=
  (m =? 0)%Z || ((e <? 0)%Z && (Z.abs m * 2 ^ 1075 <=? 10 ^ (- e))%Z).

(** [bool(v)] for a decoded JSON value. *)
Definition truthy (v : json) : bool :=
  match v with
  | JNull => false
  | JBool b => b
  | JInt z => negb (z =? 0)%Z
  | JFloat m e => negb (rounds_to_zero m e)
  | JNaN => true
  | JInf _ => true
  | JStr s => nonempty s
  | JArr items => match items with [] => false | _ => true end
  | JObj members => match members with [] => false | _ => true end
  end.

(** A value kept in the session under a key that starts as [None]. *)
Definition truthy_opt (v : option json) : bool :=
  match v with Some x => truthy x | None => false end.

(** [i == v] for a string [i] (a note id) and a session value [v]: only an
    equal string compares equal. *)
Definition id_is (i : pystr) (v : option json) : bool :=
  match v with
  | Some (JStr s) => bool_decide (i = s)
  | _ => false
  end.

(** ** The data of the application *)

(** An entry of a note, by its [type]. *)
Inductive EntryBody : Type :=
| TextEntry (data : pystr)
| ImageEntry (data : pystr)
| DrawingEntry (data : pystr)
| CombinedEntry (text image : pystr).

Record Entry : Type := {
  author_name : pystr;
  timestamp : float;
  body : EntryBody;
  entry_hashtags : list pystr }.

Record Note : Type := {
  note_id : pystr;
  title : pystr;
  hashtags : list pystr;
  lat : float;
  lng : float;
  creator_id : pystr;
  creator_name : pystr;
  entries : list Entry }.

Record User : Type := {
  user_id : pystr;
  name : pystr;
  password_hash : pystr }.

(** A sample of [streamlit_geolocation()] that carries a position. *)
Record Geo : Type := {
  latitude : float;
  longitude : float }.

Inductive Menu : Type := NoteOps | SearchMenu | AccountMenu.
Inductive Mode : Type := PlaceMode | WriteMode.
Inductive Role : Type := RoleUser | RoleAssistant.
Inductive SearchMode : Type := AND | OR.

#[global] Instance Menu_eq_dec : EqDecision Menu.
Proof. solve_decision. Defined.
#[global] Instance Mode_eq_dec : EqDecision Mode.
Proof. solve_decision. Defined.

(** [st.session_state], the keys the script reads ([notified_notes] is
    never read). [switch_to_note_mode] is the key [_switch_to_note_mode],
    false when absent. *)
Record Session : Type := {

  current_user : option User;
  center : option (float * float);
  zoom : Z;
  mode : Mode;
  nearby_notes : list Note;
  selected_note_id : option json;
  user_location : option Geo;
  initial_load : bool;
  auto_refresh : bool;
  search_results : option (list Note);
  initial_notes_generated : bool;
  clicked_location : option (float * float);
  main_menu : Menu;
  chat_messages : list (Role * pystr);
  recommended_note_id : option json;
  chat_started : bool;
  switch_to_note_mode : bool }.


(** The defaults of the initialisation loop. *)
Definition initial_session : Session := {|
  current_user := None; center := None; zoom := 15; mode := PlaceMode;
  nearby_notes := []; selected_note_id := None; user_location := None;
  initial_load := false; auto_refresh := true; search_results := None;
  initial_notes_generated := false; clicked_location := None;
  main_menu := NoteOps; chat_messages := []; recommended_note_id := None;
  chat_started := false; switch_to_note_mode := false |}.

(** Assignments to one key. *)

Definition set_current_user (v : option User) (s : Session) : Session :=
  {| current_user := v; center := center s; zoom := zoom s; mode := mode s;
     nearby_notes := nearby_notes s; selected_note_id := selected_note_id s;
     user_location := user_location s; initial_load := initial_load s;
     auto_refresh := auto_refresh s; search_results := search_results s;
     initial_notes_generated := initial_notes_generated s; clicked_location
     := clicked_location s; main_menu := main_menu s; chat_messages :=
     chat_messages s; recommended_note_id := recommended_note_id s;
     chat_started := chat_started s; switch_to_note_mode :=
     switch_to_note_mode s |}.

Definition set_center (v : option (float * float)) (s : Session) : Session :=
  {| current_user := current_user s; center := v; zoom := zoom s; mode :=
     mode s; nearby_notes := nearby_notes s; selected_note_id :=
     selected_note_id s; user_location := user_location s; initial_load :=
     initial_load s; auto_refresh := auto_refresh s; search_results :=
     search_results s; initial_notes_generated := initial_notes_generated s;
     clicked_location := clicked_location s; main_menu := main_menu s;
     chat_messages := chat_messages s; recommended_note_id :=
     recommended_note_id s; chat_started := chat_started s;
     switch_to_note_mode := switch_to_note_mode s |}.

Definition set_zoom (v : Z) (s : Session) : Session :=
  {| current_user := current_user s; center := center s; zoom := v; mode :=
     mode s; nearby_notes := nearby_notes s; selected_note_id :=
     selected_note_id s; user_location := user_location s; initial_load :=
     initial_load s; auto_refresh := auto_refresh s; search_results :=
     search_results s; initial_notes_generated := initial_notes_generated s;
     clicked_location := clicked_location s; main_menu := main_menu s;
     chat_messages := chat_messages s; recommended_note_id :=
     recommended_note_id s; chat_started := chat_started s;
     switch_to_note_mode := switch_to_note_mode s |}.

Definition set_mode (v : Mode) (s : Session) : Session :=
  {| current_user := current_user s; center := center s; zoom := zoom s;
     mode := v; nearby_notes := nearby_notes s; selected_note_id :=
     selected_note_id s; user_location := user_location s; initial_load :=
     initial_load s; auto_refresh := auto_refresh s; search_results :=
     search_results s; initial_notes_generated := initial_notes_generated s;
     clicked_location := clicked_location s; main_menu := main_menu s;
     chat_messages := chat_messages s; recommended_note_id :=
     recommended_note_id s; chat_started := chat_started s;
     switch_to_note_mode := switch_to_note_mode s |}.

Definition set_nearby_notes (v : list Note) (s : Session) : Session :=
  {| current_user := current_user s; center := center s; zoom := zoom s;
     mode := mode s; nearby_notes := v; selected_note_id := selected_note_id
     s; user_location := user_location s; initial_load := initial_load s;
     auto_refresh := auto_refresh s; search_results := search_results s;
     initial_notes_generated := initial_notes_generated s; clicked_location
     := clicked_location s; main_menu := main_menu s; chat_messages :=
     chat_messages s; recommended_note_id := recommended_note_id s;
     chat_started := chat_started s; switch_to_note_mode :=
     switch_to_note_mode s |}.

Definition set_selected_note_id (v : option json) (s : Session) : Session :=
  {| current_user := current_user s; center := center s; zoom := zoom s;
     mode := mode s; nearby_notes := nearby_notes s; selected_note_id := v;
     user_location := user_location s; initial_load := initial_load s;
     auto_refresh := auto_refresh s; search_results := search_results s;
     initial_notes_generated := initial_notes_generated s; clicked_location
     := clicked_location s; main_menu := main_menu s; chat_messages :=
     chat_messages s; recommended_note_id := recommended_note_id s;
     chat_started := chat_started s; switch_to_note_mode :=
     switch_to_note_mode s |}.

Definition set_user_location (v : option Geo) (s : Session) : Session :=
  {| current_user := current_user s; center := center s; zoom := zoom s;
     mode := mode s; nearby_notes := nearby_notes s; selected_note_id :=
     selected_note_id s; user_location := v; initial_load := initial_load s;
     auto_refresh := auto_refresh s; search_results := search_results s;
     initial_notes_generated := initial_notes_generated s; clicked_location
     := clicked_location s; main_menu := main_menu s; chat_messages :=
     chat_messages s; recommended_note_id := recommended_note_id s;
     chat_started := chat_started s; switch_to_note_mode :=
     switch_to_note_mode s |}.

Definition set_initial_load (v : bool) (s : Session) : Session :=
  {| current_user := current_user s; center := center s; zoom := zoom s;
     mode := mode s; nearby_notes := nearby_notes s; selected_note_id :=
     selected_note_id s; user_location := user_location s; initial_load :=
     v; auto_refresh := auto_refresh s; search_results := search_results s;
     initial_notes_generated := initial_notes_generated s; clicked_location
     := clicked_location s; main_menu := main_menu s; chat_messages :=
     chat_messages s; recommended_note_id := recommended_note_id s;
     chat_started := chat_started s; switch_to_note_mode :=
     switch_to_note_mode s |}.

Definition set_auto_refresh (v : bool) (s : Session) : Session :=
  {| current_user := current_user s; center := center s; zoom := zoom s;
     mode := mode s; nearby_notes := nearby_notes s; selected_note_id :=
     selected_note_id s; user_location := user_location s; initial_load :=
     initial_load s; auto_refresh := v; search_results := search_results s;
     initial_notes_generated := initial_notes_generated s; clicked_location
     := clicked_location s; main_menu := main_menu s; chat_messages :=
     chat_messages s; recommended_note_id := recommended_note_id s;
     chat_started := chat_started s; switch_to_note_mode :=
     switch_to_note_mode s |}.

Definition set_search_results (v : option (list Note)) (s : Session) : Session :=
  {| current_user := current_user s; center := center s; zoom := zoom s;
     mode := mode s; nearby_notes := nearby_notes s; selected_note_id :=
     selected_note_id s; user_location := user_location s; initial_load :=
     initial_load s; auto_refresh := auto_refresh s; search_results := v;
     initial_notes_generated := initial_notes_generated s; clicked_location
     := clicked_location s; main_menu := main_menu s; chat_messages :=
     chat_messages s; recommended_note_id := recommended_note_id s;
     chat_started := chat_started s; switch_to_note_mode :=
     switch_to_note_mode s |}.

Definition set_initial_notes_generated (v : bool) (s : Session) : Session :=
  {| current_user := current_user s; center := center s; zoom := zoom s;
     mode := mode s; nearby_notes := nearby_notes s; selected_note_id :=
     selected_note_id s; user_location := user_location s; initial_load :=
     initial_load s; auto_refresh := auto_refresh s; search_results :=
     search_results s; initial_notes_generated := v; clicked_location :=
     clicked_location s; main_menu := main_menu s; chat_messages :=
     chat_messages s; recommended_note_id := recommended_note_id s;
     chat_started := chat_started s; switch_to_note_mode :=
     switch_to_note_mode s |}.

Definition set_clicked_location (v : option (float * float)) (s : Session) : Session :=
  {| current_user := current_user s; center := center s; zoom := zoom s;
     mode := mode s; nearby_notes := nearby_notes s; selected_note_id :=
     selected_note_id s; user_location := user_location s; initial_load :=
     initial_load s; auto_refresh := auto_refresh s; search_results :=
     search_results s; initial_notes_generated := initial_notes_generated s;
     clicked_location := v; main_menu := main_menu s; chat_messages :=
     chat_messages s; recommended_note_id := recommended_note_id s;
     chat_started := chat_started s; switch_to_note_mode :=
     switch_to_note_mode s |}.

Definition set_main_menu (v : Menu) (s : Session) : Session :=
  {| current_user := current_user s; center := center s; zoom := zoom s;
     mode := mode s; nearby_notes := nearby_notes s; selected_note_id :=
     selected_note_id s; user_location := user_location s; initial_load :=
     initial_load s; auto_refresh := auto_refresh s; search_results :=
     search_results s; initial_notes_generated := initial_notes_generated s;
     clicked_location := clicked_location s; main_menu := v; chat_messages
     := chat_messages s; recommended_note_id := recommended_note_id s;
     chat_started := chat_started s; switch_to_note_mode :=
     switch_to_note_mode s |}.

Definition set_chat_messages (v : list (Role * pystr)) (s : Session) : Session :=
  {| current_user := current_user s; center := center s; zoom := zoom s;
     mode := mode s; nearby_notes := nearby_notes s; selected_note_id :=
     selected_note_id s; user_location := user_location s; initial_load :=
     initial_load s; auto_refresh := auto_refresh s; search_results :=
     search_results s; initial_notes_generated := initial_notes_generated s;
     clicked_location := clicked_location s; main_menu := main_menu s;
     chat_messages := v; recommended_note_id := recommended_note_id s;
     chat_started := chat_started s; switch_to_note_mode :=
     switch_to_note_mode s |}.

Definition set_recommended_note_id (v : option json) (s : Session) : Session :=
  {| current_user := current_user s; center := center s; zoom := zoom s;
     mode := mode s; nearby_notes := nearby_notes s; selected_note_id :=
     selected_note_id s; user_location := user_location s; initial_load :=
     initial_load s; auto_refresh := auto_refresh s; search_results :=
     search_results s; initial_notes_generated := initial_notes_generated s;
     clicked_location := clicked_location s; main_menu := main_menu s;
     chat_messages := chat_messages s; recommended_note_id := v;
     chat_started := chat_started s; switch_to_note_mode :=
     switch_to_note_mode s |}.

Definition set_chat_started (v : bool) (s : Session) : Session :=
  {| current_user := current_user s; center := center s; zoom := zoom s;
     mode := mode s; nearby_notes := nearby_notes s; selected_note_id :=
     selected_note_id s; user_location := user_location s; initial_load :=
     initial_load s; auto_refresh := auto_refresh s; search_results :=
     search_results s; initial_notes_generated := initial_notes_generated s;
     clicked_location := clicked_location s; main_menu := main_menu s;
     chat_messages := chat_messages s; recommended_note_id :=
     recommended_note_id s; chat_started := v; switch_to_note_mode :=
     switch_to_note_mode s |}.

Definition set_switch_to_note_mode (v : bool) (s : Session) : Session :=
  {| current_user := current_user s; center := center s; zoom := zoom s;
     mode := mode s; nearby_notes := nearby_notes s; selected_note_id :=
     selected_note_id s; user_location := user_location s; initial_load :=
     initial_load s; auto_refresh := auto_refresh s; search_results :=
     search_results s; initial_notes_generated := initial_notes_generated s;
     clicked_location := clicked_location s; main_menu := main_menu s;
     chat_messages := chat_messages s; recommended_note_id :=
     recommended_note_id s; chat_started := chat_started s;
     switch_to_note_mode := v |}.

(** The world of one browser session: its session state and the two files. *)
Record World : Type := {
  session : Session;
  notes_file : list Note;                 (* data/notes.json *)
  users_file : gmap pystr User }.         (* data/users.json *)

Definition with_session (f : Session -> Session) (w : World) : World :=
  {| session := f (session w); notes_file := notes_file w;
     users_file := users_file w |}.

Definition with_notes (notes : list Note) (w : World) : World :=
  {| session := session w; notes_file := notes; users_file := users_file w |}.

(** A run of the script goes on to the next statement, or ends early: by
    [st.rerun()] or by an exception nothing catches. What was assigned and
    saved before stays. *)
Inductive Flow : Type :=
| Continue (w : World)
| Stop (w : World).

Definition and_then (f : Flow) (k : World -> Flow) : Flow :=
  match f with
  | Continue w => k w
  | Stop w => Stop w
  end.

Notation "f >>> k" := (and_then f k) (at level 61, left associativity).

Definition end_of_run (f : Flow) : World :=
  match f with
  | Continue w => w
  | Stop w => w
  end.

(** ** Hashtags *)

Definition HASH : N := 35.

(** The tag with exactly one leading hash sign. *)
Definition normalize_tag (tag : pystr) : pystr := HASH :: lstrip_chr HASH tag.

(** The order of [sorted] on strings: lexicographic by code point. *)
Fixpoint pystr_leb (a b : pystr) : bool :=
  match a, b with
  | [], _ => true
  | _ :: _, [] => false
  | x :: a', y :: b' =>
      if x <? y then true else if y <? x then false else pystr_leb a' b'
  end.

Definition pystr_le (a b : pystr) : Prop := pystr_leb a b = true.

#[global] Instance pystr_le_dec : RelDecision pystr_le.
Proof. intros a b. unfold pystr_le. apply _. Defined.

Definition parse_hashtags (tag_string : pystr) : list pystr :=
  match tag_string with
  | [] => []
  | _ =>
      let tags : gset pystr :=
        list_to_set (normalize_tag <$> List.filter nonempty (split tag_string)) in
      merge_sort pystr_le (elements tags)
  end.

(** The tags a search compares with: those of the note, then those of each
    of its entries. *)
Definition all_tags_in_note (note : Note) : gset pystr :=
  fold_left (fun tags entry => tags ∪ list_to_set (entry_hashtags entry))
            (entries note) (list_to_set (hashtags note)).

Definition tag_match (search_mode : SearchMode) (queries : list pystr)
    (note : Note) : bool :=
  let present q := bool_decide (q ∈ all_tags_in_note note) in
  match search_mode with
  | AND => forallb present queries
  | OR => existsb present queries
  end.

(** The search loop: the matching notes, in the order of the file. *)
Definition found_notes (search_mode : SearchMode) (queries : list pystr)
    (all_notes : list Note) : list Note :=
  List.filter (tag_match search_mode queries) all_notes.

Definition hashtag_queries (hashtag_query_input : pystr) : list pystr :=
  normalize_tag <$> split hashtag_query_input.

(** ** Seeding from the Places API *)

Inductive PlaceType : Type :=
| cafe | park | tourist_attraction | restaurant | art_gallery.

Definition place_types : list PlaceType :=
  [cafe; park; tourist_attraction; restaurant; art_gallery].

Definition place_type_name (t : PlaceType) : pystr :=
  match t with
  | cafe => py "cafe"
  | park => py "park"
  | tourist_attraction => py "tourist_attraction"
  | restaurant => py "restaurant"
  | art_gallery => py "art_gallery"
  end.

(** One result of [places_nearby]; an absent key is [None]. *)
Record Place : Type := {
  place_id : option pystr;
  place_name : option pystr;
  types : option (list pystr);
  location : option (float * float) }.     (* geometry.location: lat, lng *)

(** Literals of the script, as code points. *)
Definition name_unknown : pystr := [21517; 31216; 19981; 26126].
Definition auto_generated : pystr := [33258; 21205; 29983; 25104].
Definition system_author : pystr := [12471; 12473; 12486; 12512].
Definition memory_prefix : pystr := [12371; 12428; 12399].
Definition memory_suffix : pystr :=
  [12398; 24605; 12356; 20986; 12494; 12540; 12488; 12391; 12377; 12290].

Definition seeded_note (now : float) (place_type : PlaceType) (pid : pystr)
    (place : Place) (loc : float * float) : Note :=
  {| note_id := pid;
     title := default name_unknown (place_name place);
     hashtags := (fun tag => HASH :: tag) <$> default [] (types place);
     lat := loc.1; lng := loc.2;
     creator_id := py "system"; creator_name := auto_generated;
     entries :=
       [ {| author_name := system_author; timestamp := now;
            body := TextEntry (memory_prefix ++ default [] (place_name place)
                               ++ memory_suffix);
            entry_hashtags := [HASH :: place_type_name place_type] |} ] |}.

(** The inner loop over one response. The state is [initial_notes] and
    [processed_place_ids]; [None] is an exception (a place without
    geometry). [clock k] is the reading of the clock for the k-th note. *)
Fixpoint seed_places (clock : nat -> float) (place_type : PlaceType)
    (places : list Place) (st : list Note * gset pystr)
  : option (list Note * gset pystr) :=
  match places with
  | [] => Some st
  | place :: rest =>
      let '(initial_notes, processed_place_ids) := st in
      match place_id place with
      | Some pid =>
          if nonempty pid && negb (bool_decide (pid ∈ processed_place_ids))
          then match location place with
               | Some loc =>
                   seed_places clock place_type rest
                     (initial_notes ++
                        [seeded_note (clock (length initial_notes)) place_type
                                     pid place loc],
                      processed_place_ids ∪ {[ pid ]})
               | None => None
               end
          else seed_places clock place_type rest st
      | None => seed_places clock place_type rest st
      end
  end.

(** The outer loop; [places_nearby t = None] when the call raises. *)
Fixpoint seed_types (clock : nat -> float)
    (places_nearby : PlaceType -> option (list Place))
    (ts : list PlaceType) (st : list Note * gset pystr)
  : option (list Note * gset pystr) :=
  match ts with
  | [] => Some st
  | t :: rest =>
      match places_nearby t with
      | Some places =>
          match seed_places clock t places st with
          | Some st' => seed_types clock places_nearby rest st'
          | None => None
          end
      | None => None
      end
  end.

Definition initial_notes_of (clock : nat -> float)
    (places_nearby : PlaceType -> option (list Place)) : option (list Note) :=
  fst <$> seed_types clock places_nearby place_types ([], ∅).

(** [generate_initial_notes]: the content of notes.json afterwards. Nothing
    is saved when an exception was caught or no note was made. *)
Definition generate_initial_notes (clock : nat -> float)
    (places_nearby : PlaceType -> option (list Place))
    (file : list Note) : list Note :=
  match initial_notes_of clock places_nearby with
  | Some (n :: rest) => n :: rest
  | _ => file
  end.

(** ** What a run receives from outside *)

(** The interaction that triggered the run. A widget that is not drawn in
    the run ignores its event. *)
Inductive Event : Type :=
| Refresh                                        (* the 5 s timer, or nothing *)
| Login (login_id login_password : pystr)
| Register (register_id register_name register_password : pystr)
| SetMenu (m : Menu)                             (* radio, key main_menu *)
| SetMode (m : Mode)                             (* radio, key mode *)
| SetAutoRefresh (on : bool)                     (* toggle, key auto_refresh *)
| MapClick (last_clicked : float * float)
| MapMove (map_center : float * float) (map_zoom : Z)
| SubmitNote (now : pystr) (note_title note_hashtags : pystr)
| CancelPlacement
| GeocodeSearch (search_query : pystr) (geocode_result : option (float * float))
| HashtagSearch (hashtag_query_input : pystr) (search_mode : SearchMode)
| ClearSearch
| StartChat
| ChatInput (prompt : pystr) (reply : option pystr) (levels : nat)
| StopChat
| Logout
| SubmitEntry (post_time : float) (text_input : pystr)
              (uploaded_file : option pystr) (entry_hashtags_input : pystr)
| DeleteNote.                                    (* checkbox ticked, button pressed *)

(** [now] of [SubmitNote] is [str(datetime.now().timestamp())]; [reply] of
    [ChatInput] is the content of the model's message, [None] when the call
    raises or the message has no text, and [levels] the levels of recursion
    left where line 379 calls [json.loads]: what the recursion limit
    exceeds the depth of the stack by there; [uploaded_file] is the data
    URL [image_to_base64] makes of the upload. *)

Record Inputs : Type := {
  in_event : Event;
  in_location : option Geo;            (* streamlit_geolocation(), with a latitude *)
  in_gmaps : bool;                     (* get_gmaps_client() is not None *)
  in_openai : bool;                    (* get_openai_client() is not None *)
  in_selectbox : option pystr;         (* the choice shown by the selectbox *)
  in_places : PlaceType -> option (list Place);
  in_clock : nat -> float }.

(** ** The gate and the handlers *)

Inductive ViewGate : Type :=
| Viewable                 (* is_viewable = True *)
| ViewNoLocation           (* st.error: the position is not available *)
| ViewTooFar               (* st.warning: come within 10 km *)
| NothingToView.           (* no message: not in write mode, or no such note *)

Inductive PostGate : Type :=
| PostAllowed
| PostTooFar (distance : float)   (* st.error with the distance *)
| PostNoLocation.                 (* st.error: the position is not available *)

#[global] Instance ViewGate_eq_dec : EqDecision ViewGate.
Proof. solve_decision. Defined.

(** [next((n for n in all_notes if n['id'] == wanted), None)]. *)
Definition find_note (wanted : option json) (all_notes : list Note) : option Note :=
  List.find (fun n => id_is (note_id n) wanted) all_notes.

Definition assistant_greeting : pystr :=
  [12371; 12435; 12395; 12385; 12399; 65281; 12393; 12435; 12394; 22580;
   25152; 12398; 24605; 12356; 20986; 12395; 28024; 12426; 12383; 12356;
   27671; 20998; 12391; 12377; 12363; 65311; 20363; 12360; 12400; 12289;
   12300; 38745; 12363; 12394; 22580; 25152; 12301; 12300; 32654; 21619;
   12375; 12356; 12418; 12398; 12364; 39135; 12409; 12425; 12428; 12427;
   22580; 25152; 12301; 12394; 12393; 12289; 12354; 12394; 12383; 12398;
   27671; 20998; 12420; 33288; 21619; 12434; 25945; 12360; 12390; 12367;
   12384; 12373; 12356; 12290].

(** What the script reads out of a model reply. *)
Inductive ReplyParse : Type :=
| NoMatch                                   (* re.search found nothing *)
| DecodeError                               (* json.loads raised JSONDecodeError *)
| NoId                                      (* reco_id is falsy *)
| NotADict                                  (* .get raised: caught by the outer except *)
| OtherError                                (* json.loads raised ValueError or
                                               RecursionError: the outer except *)
| Recommendation (reco_id : json) (conversation_text : pystr).

Definition parse_reply (levels : nat) (msg : pystr) : ReplyParse :=
  match re_search msg with
  | Some (_, json_str, _) =>
      let conversation_text := strip (remove_all json_str msg) in
      match json_loads levels json_str with
      | inl (JObj reco_data) =>
          let reco_id := dict_get key_name reco_data in
          if truthy reco_id then Recommendation reco_id conversation_text else NoId
      | inl _ => NotADict
      | inr DecodeErr => DecodeError
      | inr OtherErr => OtherError
      end
  | None => NoMatch
  end.

(** The first entry of a note as the summary for the model reads it:
    [note['entries'][0]['data']], a KeyError on a combined entry. *)
Definition first_entry_ok (note : Note) : bool :=
  match entries note with
  | e :: _ => match body e with CombinedEntry _ _ => false | _ => true end
  | [] => true
  end.

Definition append_message (role : Role) (content : pystr) (s : Session) : Session :=
  set_chat_messages (chat_messages s ++ [(role, content)]) s.

(** [selected_note.setdefault('entries', []).append(new_entry)]: the note
    object is the first of [all_notes] with the selected id, and it is
    changed in place. *)
Fixpoint append_entry (wanted : option json) (new_entry : Entry)
    (all_notes : list Note) : list Note :=
  match all_notes with
  | [] => []
  | n :: rest =>
      if id_is (note_id n) wanted
      then {| note_id := note_id n; title := title n; hashtags := hashtags n;
              lat := lat n; lng := lng n; creator_id := creator_id n;
              creator_name := creator_name n;
              entries := entries n ++ [new_entry] |} :: rest
      else n :: append_entry wanted new_entry rest
  end.

Section Script.

(** [great_circle(a, b).km] of geopy and [hash_password] (SHA-256 in hex). *)
Variable great_circle_km : float * float -> float * float -> float.
Variable hash_password : pystr -> pystr.

Definition coords_of (l : Geo) : float * float := (latitude l, longitude l).
Definition note_coords (note : Note) : float * float := (lat note, lng note).

(** *** Lines 203-205: the nearby notes *)

Definition nearby_filter (user_coords : float * float) (all_notes : list Note)
  : list Note :=
  List.filter
    (fun note => PrimFloat.leb (great_circle_km user_coords (note_coords note)) 10%float)
    all_notes.

Definition search_results_falsy (s : Session) : bool :=
  match search_results s with
  | None => true
  | Some [] => true
  | Some _ => false
  end.

Definition refresh_nearby (w : World) : World :=
  match user_location (session w) with
  | Some l =>
      if search_results_falsy (session w)
      then with_session (set_nearby_notes (nearby_filter (coords_of l) (notes_file w))) w
      else w
  | None => w
  end.

(** *** Lines 474-491: may the selected note be shown *)

Definition write_mode_selected (s : Session) : bool :=
  bool_decide (main_menu s = NoteOps) && bool_decide (mode s = WriteMode)
  && truthy_opt (selected_note_id s).

Definition selected_note (s : Session) (all_notes : list Note) : option Note :=
  if write_mode_selected s then find_note (selected_note_id s) all_notes else None.

Definition is_recommended (s : Session) (note : Note) : bool :=
  id_is (note_id note) (recommended_note_id s).

Definition is_close_enough (s : Session) (note : Note) : bool :=
  match user_location s with
  | Some l => PrimFloat.leb (great_circle_km (coords_of l) (note_coords note)) 10%float
  | None => false
  end.

Definition view_gate_of (s : Session) (note : Note) : ViewGate :=
  if is_recommended s note || is_close_enough s note then Viewable
  else match user_location s with
       | None => ViewNoLocation
       | Some _ => ViewTooFar
       end.

Definition view_gate (s : Session) (all_notes : list Note) : ViewGate :=
  match selected_note s all_notes with
  | Some note => view_gate_of s note
  | None => NothingToView
  end.

(** *** Lines 527-538: may the submitted entry be posted *)

Definition post_gate (s : Session) (note : Note) : PostGate :=
  match user_location s with
  | Some l =>
      if float_truthy (latitude l)
      then let distance := great_circle_km (coords_of l) (note_coords note) in
           if PrimFloat.leb distance 10%float then PostAllowed else PostTooFar distance
      else PostNoLocation
  | None => PostNoLocation
  end.

(** *** Lines 123-162: the login and registration forms *)

Definition auth_page (ev : Event) (w : World) : Flow :=
  match ev with
  | Login login_id login_password =>
      match users_file w !! login_id with
      | Some user =>
          if bool_decide (password_hash user = hash_password login_password)
          then Stop (with_session
                       (fun s => set_initial_load true (set_current_user (Some user) s)) w)
          else Continue w
      | None => Continue w
      end
  | Register register_id register_name register_password =>
      if negb (nonempty register_id && nonempty register_name
               && nonempty register_password)
      then Continue w
      else if bool_decide (is_Some (users_file w !! register_id))
      then Continue w
      else
        let new_user :=
          {| user_id := register_id; name := register_name;
             password_hash := hash_password register_password |} in
        Stop {| session := set_initial_load true
                             (set_current_user (Some new_user) (session w));
                notes_file := notes_file w;
                users_file := <[register_id := new_user]> (users_file w) |}
  | _ => Continue w
  end.

(** *** Lines 168-198: before the page is drawn *)

(** A keyed widget the user changed has its new value in the session
    before the script starts. *)
Definition widget_update (ev : Event) (s : Session) : Session :=
  match ev with
  | SetMenu m => set_main_menu m s
  | SetMode m => set_mode m s
  | SetAutoRefresh on => set_auto_refresh on s
  | _ => s
  end.

Definition process_switch_flag (s : Session) : Session :=
  if switch_to_note_mode s
  then set_switch_to_note_mode false (set_mode WriteMode (set_main_menu NoteOps s))
  else s.

Definition sample_location (location : option Geo) (s : Session) : Session :=
  match location with
  | Some l => if float_truthy (latitude l) then set_user_location (Some l) s else s
  | None => s
  end.

Definition seeding (inp : Inputs) (w : World) : Flow :=
  match user_location (session w), notes_file w with
  | Some _, [] =>
      if in_gmaps inp && negb (initial_notes_generated (session w))
      then Stop (with_session (set_initial_notes_generated true)
                   (with_notes
                      (generate_initial_notes (in_clock inp) (in_places inp) (notes_file w))
                      w))
      else Continue w
  | _, _ => Continue w
  end.

Definition initial_centering (w : World) : Flow :=
  match user_location (session w) with
  | Some l =>
      if initial_load (session w)
      then Stop (with_session
                   (fun s => set_initial_load false
                               (set_zoom 15 (set_center (Some (coords_of l)) s))) w)
      else Continue w
  | None => Continue w
  end.

(** *** Lines 219-249: placing a note *)

Definition place_mode_panel (ev : Event) (u : User) (w : World) : Flow :=
  match clicked_location (session w) with
  | None => Continue w
  | Some (clicked_lat, clicked_lng) =>
      match ev with
      | SubmitNote now note_title note_hashtags =>
          if nonempty note_title
          then
            let new_note :=
              {| note_id := now; title := note_title;
                 hashtags := parse_hashtags note_hashtags;
                 lat := clicked_lat; lng := clicked_lng;
                 creator_id := user_id u; creator_name := name u;
                 entries := [] |} in
            Stop (with_session (set_clicked_location None)
                    (with_notes (notes_file w ++ [new_note]) w))
          else Continue w
      | CancelPlacement => Stop (with_session (set_clicked_location None) w)
      | _ => Continue w
      end
  end.

(** *** Lines 251-273: choosing the note to write to *)

Definition notes_to_display (w : World) : list Note :=
  match search_results (session w) with
  | Some results => results
  | None => notes_file w
  end.

(** The selectbox hands back one of its options, or nothing. *)
Definition selectbox (options : list pystr) (choice : option pystr) : option pystr :=
  match choice with
  | Some i => if bool_decide (i ∈ options) then Some i else None
  | None => None
  end.

(** Lines 266-273, [selected_id] being what the selectbox returned. *)
Definition selection_change (selected_id : pystr) (w : World) : Flow :=
  let s := session w in
  if nonempty selected_id && negb (id_is selected_id (selected_note_id s))
  then
    let s1 := set_recommended_note_id None
                (set_selected_note_id (Some (JStr selected_id)) s) in
    let s2 := match find_note (Some (JStr selected_id)) (notes_file w) with
              | Some selected_note_obj =>
                  set_zoom 17 (set_center (Some (note_coords selected_note_obj)) s1)
              | None => s1
              end in
    Stop (with_session (fun _ => s2) w)
  else Continue w.

Definition write_mode_panel (choice : option pystr) (w : World) : Flow :=
  match notes_to_display w with
  | [] => Continue w
  | notes_for_selection =>
      match selectbox (note_id <$> notes_for_selection) choice with
      | Some selected_id => selection_change selected_id w
      | None => Continue w
      end
  end.

(** *** Lines 371-409: the model's reply *)

Definition handle_reply (levels : nat) (msg : pystr) (w : World) : Flow :=
  let s := session w in
  match parse_reply levels msg with
  | Recommendation reco_id conversation_text =>
      let s1 := if nonempty conversation_text
                then append_message RoleAssistant conversation_text s
                else s in
      let s2 := set_switch_to_note_mode true
                  (set_chat_started false
                     (set_selected_note_id (Some reco_id)
                        (set_recommended_note_id (Some reco_id) s1))) in
      let s3 := match find_note (Some reco_id) (notes_file w) with
                | Some recommended_note =>
                    set_zoom 17 (set_center (Some (note_coords recommended_note)) s2)
                | None => s2
                end in
      Stop (with_session (fun _ => s3) w)
  | NoId => Continue w
  | NotADict => Continue w
  | OtherError => Continue w
  | DecodeError => Stop (with_session (append_message RoleAssistant msg) w)
  | NoMatch => Stop (with_session (append_message RoleAssistant msg) w)
  end.

(** Lines 335-412: one turn of the chat. *)
Definition chat_turn (prompt : pystr) (reply : option pystr) (levels : nat) (w : World)
  : Flow :=
  let w1 := with_session (append_message RoleUser prompt) w in
  if forallb first_entry_ok (notes_file w)
  then match reply with
       | Some msg => handle_reply levels msg w1
       | None => Continue w1
       end
  else Stop w1.

(** *** Lines 275-417: the search menu *)

Definition search_panel (inp : Inputs) (w : World) : Flow :=
  let s := session w in
  let chat_offered :=
    match notes_file w with [] => false | _ => in_openai inp end in
  match in_event inp with
  | GeocodeSearch search_query geocode_result =>
      if in_gmaps inp && nonempty search_query
      then match geocode_result with
           | Some loc => Stop (with_session
                                 (fun s => set_zoom 17 (set_center (Some loc) s)) w)
           | None => Continue w
           end
      else Continue w
  | HashtagSearch hashtag_query_input search_mode =>
      if nonempty hashtag_query_input
      then Stop (with_session
                   (set_search_results
                      (Some (found_notes search_mode
                               (hashtag_queries hashtag_query_input) (notes_file w)))) w)
      else Continue w
  | ClearSearch =>
      match search_results s with
      | Some _ => Stop (with_session (set_search_results None) w)
      | None => Continue w
      end
  | StartChat =>
      if chat_offered
      then Stop (with_session
                   (fun s => set_recommended_note_id None
                               (set_chat_messages [(RoleAssistant, assistant_greeting)]
                                  (set_chat_started true s))) w)
      else Continue w
  | ChatInput prompt reply levels =>
      if chat_offered && chat_started s && nonempty prompt
      then chat_turn prompt reply levels w
      else Continue w
  | StopChat =>
      if chat_offered && chat_started s
      then Stop (with_session
                   (fun s => set_chat_messages [] (set_chat_started false s)) w)
      else Continue w
  | _ => Continue w
  end.

(** *** Lines 419-427: the account menu *)

Definition account_panel (ev : Event) (w : World) : Flow :=
  match ev with
  | Logout => Stop (with_session (fun _ => initial_session) w)
  | _ => Continue w
  end.

Definition sidebar (inp : Inputs) (u : User) (w : World) : Flow :=
  match main_menu (session w) with
  | NoteOps =>
      match mode (session w) with
      | PlaceMode => place_mode_panel (in_event inp) u w
      | WriteMode => write_mode_panel (in_selectbox inp) w
      end
  | SearchMenu => search_panel inp w
  | AccountMenu => account_panel (in_event inp) w
  end.

(** *** Lines 457-468: what the map reports *)

Definition coords_eqb (a b : float * float) : bool :=
  PrimFloat.eqb a.1 b.1 && PrimFloat.eqb a.2 b.2.

Definition map_column (ev : Event) (w : World) : Flow :=
  let s := session w in
  match ev with
  | MapClick last_clicked =>
      match mode s, clicked_location s with
      | PlaceMode, Some old =>
          if coords_eqb old last_clicked then Continue w
          else Stop (with_session (set_clicked_location (Some last_clicked)) w)
      | PlaceMode, None =>
          Stop (with_session (set_clicked_location (Some last_clicked)) w)
      | WriteMode, _ => Continue w
      end
  | MapMove map_center map_zoom =>
      let s1 := match center s with
                | Some c => if coords_eqb c map_center then s
                            else set_center (Some map_center) s
                | None => set_center (Some map_center) s
                end in
      Continue (with_session (fun _ => set_zoom map_zoom s1) w)
  | _ => Continue w
  end.

(** *** Lines 520-564: adding a page *)

Definition new_entry_body (text_input : pystr) (uploaded_file : option pystr)
  : option EntryBody :=
  match nonempty text_input, uploaded_file with
  | true, Some b64_str => Some (CombinedEntry text_input b64_str)
  | true, None => Some (TextEntry text_input)
  | false, Some b64_str => Some (ImageEntry b64_str)
  | false, None => None
  end.

Definition entry_form (post_time : float) (text_input : pystr)
    (uploaded_file : option pystr) (entry_hashtags_input : pystr)
    (u : User) (note : Note) (w : World) : Flow :=
  match post_gate (session w) note with
  | PostAllowed =>
      match new_entry_body text_input uploaded_file with
      | Some b =>
          let new_entry :=
            {| author_name := name u; timestamp := post_time; body := b;
               entry_hashtags := parse_hashtags entry_hashtags_input |} in
          Stop (with_notes
                  (append_entry (selected_note_id (session w)) new_entry (notes_file w)) w)
      | None => Continue w
      end
  | PostTooFar _ => Continue w
  | PostNoLocation => Continue w
  end.

(** *** Lines 566-579: deleting the note *)

Definition delete_block (u : User) (note : Note) (w : World) : Flow :=
  if bool_decide (creator_id note = user_id u)
  then
    let kept := List.filter
                  (fun n => negb (id_is (note_id n) (selected_note_id (session w))))
                  (notes_file w) in
    Stop (with_session
            (fun s => set_recommended_note_id None
                        (set_search_results None
                           (set_nearby_notes []
                              (set_selected_note_id None s))))
            (with_notes kept w))
  else Continue w.

(** *** Lines 470-585: the right column *)

Definition right_column (ev : Event) (u : User) (w : World) : Flow :=
  match selected_note (session w) (notes_file w) with
  | Some note =>
      match view_gate_of (session w) note with
      | Viewable =>
          match ev with
          | SubmitEntry post_time text_input uploaded_file entry_hashtags_input =>
              entry_form post_time text_input uploaded_file entry_hashtags_input u note w
          | DeleteNote => delete_block u note w
          | _ => Continue w
          end
      | _ => Continue w
      end
  | None => Continue w
  end.

(** *** The script, top to bottom *)

Definition main_app (inp : Inputs) (u : User) (w : World) : Flow :=
  let w0 :=
    with_session
      (fun s => sample_location (in_location inp)
                  (process_switch_flag (widget_update (in_event inp) s))) w in
  seeding inp w0 >>> fun w1 =>
  initial_centering w1 >>> fun w2 =>
  match center (session w2) with
  | None => Continue w2
  | Some _ =>
      sidebar inp u (refresh_nearby w2) >>> fun w3 =>
      map_column (in_event inp) w3 >>> fun w4 =>
      right_column (in_event inp) u w4
  end.

Definition script (inp : Inputs) (w : World) : Flow :=
  match current_user (session w) with
  | None => auth_page (in_event inp) w
  | Some u => main_app inp u w
  end.

(** One run, and a sequence of runs. *)
Definition run (inp : Inputs) (w : World) : World := end_of_run (script inp w).

Definition runs (inps : list Inputs) (w : World) : World :=
  fold_left (fun w inp => run inp w) inps w.

End Script.

(** ** Specifications the code is compared with *)

Definition all_space (w : pystr) : Prop := Forall (fun c => isspace c = true) w.

(** [sub] is, as a whole, a match of the reply pattern. *)
Definition matches_pattern (sub : pystr) : Prop :=
  exists w1 w2 body w3,
    all_space w1 /\ all_space w2 /\ all_space w3 /\
    sub = LBRACE :: w1 ++ key_literal ++ w2 ++ DQUOTE :: body
                 ++ DQUOTE :: w3 ++ [RBRACE].

(** [msg] has a substring that matches the reply pattern. *)
Definition has_match (msg : pystr) : Prop :=
  exists pre sub post, msg = pre ++ sub ++ post /\ matches_pattern sub.

(** The proximity filter as the specification words it: the notes within
    [radius_km] of [origin], in the order of the input. *)
Fixpoint withinRadius (km : float * float -> float * float -> float)
    (origin : float * float) (radius_km : float) (notes : list Note) : list Note :=
  match notes with
  | [] => []
  | note :: rest =>
      if PrimFloat.leb (km origin (lat note, lng note)) radius_km
      then note :: withinRadius km origin radius_km rest
      else withinRadius km origin radius_km rest
  end.

(** The invariant of the recommendation: it is unset, or it is the
    selection. *)
Definition recommendation_is_selection (s : Session) : Prop :=
  recommended_note_id s = None \/ recommended_note_id s = selected_note_id s.

(** ** Data for the examples *)

(** Great-circle distances of the examples, as geopy gives them: from
    (36, 140) to the note at (35, 139), and from (35.001, 139.001) to it. *)
Definition example_km (a b : float * float) : float :=
  if PrimFloat.eqb a.1 36%float then 143.38285468153035%float
  else 0.14373881305851954%float.

(** A stand-in for SHA-256. *)
Definition example_hash (password : pystr) : pystr := reverse password.

Definition alice : User :=
  {| user_id := py "alice"; name := py "Alice"; password_hash := py "drowssap" |}.

Definition bob : User :=
  {| user_id := py "bob"; name := py "Bob"; password_hash := py "terces" |}.

Definition first_page : Entry :=
  {| author_name := py "Alice"; timestamp := 1700000100%float;
     body := TextEntry (py "Quiet in the morning.");
     entry_hashtags := [py "#quiet"] |}.

(** Alice's note n1 at (35, 139). *)
Definition n1 : Note :=
  {| note_id := py "n1"; title := py "Harbour"; hashtags := [py "#sea"; py "#walk"];
     lat := 35%float; lng := 139%float;
     creator_id := py "alice"; creator_name := py "Alice";
     entries := [first_page] |}.

Definition n2 : Note :=
  {| note_id := py "n2"; title := py "Noodle bar"; hashtags := [py "#lunch"];
     lat := 35.01%float; lng := 139.02%float;
     creator_id := py "bob"; creator_name := py "Bob";
     entries := [] |}.

Definition near_n1 : Geo := {| latitude := 35.001%float; longitude := 139.001%float |}.
Definition far_from_n1 : Geo := {| latitude := 36%float; longitude := 140%float |}.

(** Bob in write mode, at [where_], with [selected] chosen and [recommended]
    advised. *)
Definition bob_writing (where_ : option Geo) (selected recommended : option json)
  : Session :=
  {| current_user := Some bob; center := Some (35%float, 139%float); zoom := 17;
     mode := WriteMode; nearby_notes := []; selected_note_id := selected;
     user_location := where_; initial_load := false; auto_refresh := true;
     search_results := None; initial_notes_generated := false;
     clicked_location := None; main_menu := NoteOps; chat_messages := [];
     recommended_note_id := recommended; chat_started := false;
     switch_to_note_mode := false |}.

Definition id_n1 : option json := Some (JStr (py "n1")).

(** A distance of 7 km whatever the points. *)
Definition seven_km (a b : float * float) : float := 7%float.

Definition quoted (s : pystr) : pystr := DQUOTE :: s ++ [DQUOTE].

(** The reply of the specification's example: some words, then the JSON
    object naming abc123. *)
Definition reply_abc123 : pystr :=
  py "Here you go! {" ++ quoted key_name ++ py ": " ++ quoted (py "abc123") ++ py "}".

(** A reply that names a note nobody wrote. *)
Definition reply_unknown : pystr :=
  py "{" ++ quoted key_name ++ py ": " ++ quoted (py "zzz") ++ py "}".

(** A reply that names zzz and holds, beside the id, an integer of [n]
    digits. *)
Definition reply_with_number (n : nat) : pystr :=
  py "{" ++ quoted key_name ++ py ": " ++ quoted (py "zzz") ++ py ", "
    ++ quoted (py "n") ++ py ": " ++ repeat 49%N n ++ py ", "
    ++ quoted (py "k") ++ py ": " ++ quoted (py "v") ++ py "}".

(** A reply that names zzz and holds an array in an array. *)
Definition reply_nested : pystr :=
  py "{" ++ quoted key_name ++ py ": " ++ quoted (py "zzz") ++ py ", "
    ++ quoted (py "n") ++ py ": [[1]], "
    ++ quoted (py "k") ++ py ": " ++ quoted (py "v") ++ py "}".

(** A reply whose object is no JSON: a comma is missing in it. *)
Definition reply_not_json : pystr :=
  py "{" ++ quoted key_name ++ py ": " ++ quoted (py "zzz") ++ py " "
    ++ quoted (py "k") ++ py ": " ++ quoted (py "v") ++ py "}".

(** A reply with no JSON in it. *)
Definition reply_chatty : pystr := py "Do you prefer the sea or the hills?".

(** Bob in the search menu, in a chat that has started. *)
Definition bob_chatting : Session :=
  {| current_user := Some bob; center := Some (35%float, 139%float); zoom := 15;
     mode := PlaceMode; nearby_notes := []; selected_note_id := None;
     user_location := Some near_n1; initial_load := false; auto_refresh := true;
     search_results := None; initial_notes_generated := false;
     clicked_location := None; main_menu := SearchMenu;
     chat_messages := [(RoleAssistant, assistant_greeting); (RoleUser, py "somewhere calm")];
     recommended_note_id := None; chat_started := true;
     switch_to_note_mode := false |}.

Definition world_of (s : Session) (notes : list Note) : World :=
  {| session := s; notes_file := notes;
     users_file := {[ py "alice" := alice; py "bob" := bob ]} |}.

(** Alice about to place a note where she clicked, while the store already
    holds a note whose id is the reading of the clock. *)
Definition clock_id : pystr := py "1700000000.5".

Definition n_clock : Note :=
  {| note_id := clock_id; title := py "Bench"; hashtags := [];
     lat := 35%float; lng := 139%float;
     creator_id := py "bob"; creator_name := py "Bob"; entries := [] |}.

Definition alice_placing : Session :=
  {| current_user := Some alice; center := Some (35%float, 139%float); zoom := 15;
     mode := PlaceMode; nearby_notes := []; selected_note_id := None;
     user_location := Some near_n1; initial_load := false; auto_refresh := true;
     search_results := None; initial_notes_generated := true;
     clicked_location := Some (35.001%float, 139.001%float); main_menu := NoteOps;
     chat_messages := []; recommended_note_id := None; chat_started := false;
     switch_to_note_mode := false |}.

(** The inputs of a run in which only [ev] happens. *)
Definition just (ev : Event) : Inputs :=
  {| in_event := ev; in_location := None; in_gmaps := true; in_openai := true;
     in_selectbox := None; in_places := fun _ => Some [];
     in_clock := fun _ => 1700000000%float |}.

(** How one run may change the recommendation: clear it, leave it, or set
    it to the id just read out of the reply of the model. *)
Definition recommendation_step (ev : Event) (before after : option json) : Prop :=
  after = None \/ after = before \/
  exists prompt msg levels reco_id conversation_text,
    ev = ChatInput prompt (Some msg) levels
    /\ parse_reply levels msg = Recommendation reco_id conversation_text
    /\ after = Some reco_id.

(** What every part of the script keeps, from the session [s] it starts in
    to the session [s'] it leaves. *)
Definition keeps_recommendation (ev : Event) (s s' : Session) : Prop :=
  (recommendation_is_selection s -> recommendation_is_selection s')
  /\ recommendation_step ev (recommended_note_id s) (recommended_note_id s').

(** [n] is still in [notes], with the pages it had and possibly more. *)
Definition survives (n : Note) (notes : list Note) : Prop :=
  exists n',
    In n' notes /\ note_id n' = note_id n /\ creator_id n' = creator_id n
    /\ title n' = title n /\ exists added, entries n' = entries n ++ added.

(** What a run by somebody else leaves of the note [n], the store going
    from [before] to [after] and [selected] being the selection at the
    start: [n] survives; a run that asks for a deletion leaves [n] as it
    is, and leaves the whole store as it is when [n] is the selection. *)
Definition kept_for (ev : Event) (selected : option json) (n : Note)
    (before after : list Note) : Prop :=
  survives n after
  /\ (ev = DeleteNote -> In n after)
  /\ (ev = DeleteNote -> selected = Some (JStr (note_id n)) -> after = before).

(** What the parts before the right column do to the store and the
    selection: going on, they left both alone; ending the run, they left
    the store alone, or seeded an empty store, or appended the new note of
    a [SubmitNote]. *)
Definition before_ok (ev : Event) (notes : list Note) (selected : option json)
    (f : Flow) : Prop :=
  match f with
  | Continue w' => notes_file w' = notes /\ selected_note_id (session w') = selected
  | Stop w' =>
      notes_file w' = notes \/ notes = [] \/
      exists now note_title note_hashtags new_note,
        ev = SubmitNote now note_title note_hashtags
        /\ notes_file w' = notes ++ [new_note]
  end.

(** Bob, 140 m from Alice's note n1, has it selected in write mode. *)
Definition bob_at_n1 : Session := bob_writing (Some near_n1) id_n1 None.

(** A reply that recommends n1. *)
Definition reply_n1 : pystr :=
  py "This one is calm. {" ++ quoted key_name ++ py ": " ++ quoted (py "n1") ++ py "}".

(** Bob, 143 km from n1, in a chat that has started. *)
Definition bob_far_chatting : Session :=
  set_user_location (Some far_from_n1) bob_chatting.

(** Three runs: the model recommends n1; the page comes up in write mode;
    Bob picks n2 in the selectbox. *)
Definition advice_then_reselection : list Inputs :=
  [ just (ChatInput (py "somewhere calm") (Some reply_n1) 900);
    just Refresh;
    {| in_event := Refresh; in_location := None; in_gmaps := true;
       in_openai := true; in_selectbox := Some (py "n2");
       in_places := fun _ => Some []; in_clock := fun _ => 1700000000%float |} ].

(** The session holds a position, with a latitude that counts as true. *)
Definition has_position (s : Session) : Prop :=
  exists l, user_location s = Some l /\ float_truthy (latitude l) = true.

(** A position kept in the session has a latitude that counts as true, and
    without a position the map has no centre: the page is not drawn. *)
Definition located (s : Session) : Prop :=
  match user_location s with
  | Some l => float_truthy (latitude l) = true
  | None => center s = None
  end.

(** What the parts of the page do to the position: going on, the session
    still holds one; ending the run, it is [located]. *)
Definition position_ok (f : Flow) : Prop :=
  match f with
  | Continue w' => has_position (session w')
  | Stop w' => located (session w')
  end.

(** ** Further notions the properties are stated with *)

(** No character of [s] is whitespace. *)
Definition no_space (s : pystr) : Prop := Forall (fun c => isspace c = false) s.

(** A hashtag in stored form: one hash sign, then a text that does not
    begin with a hash sign. *)
Definition normal_tag (tag : pystr) : Prop :=
  exists text, tag = HASH :: text /\ lstrip_chr HASH text = text.

(** The note lines 233-238 build. *)
Definition created_note (u : User) (now note_title note_hashtags : pystr)
    (clicked : float * float) : Note :=
  {| note_id := now; title := note_title;
     hashtags := parse_hashtags note_hashtags;
     lat := clicked.1; lng := clicked.2;
     creator_id := user_id u; creator_name := name u;
     entries := [] |}.

(** The entry lines 544-558 build. *)
Definition posted_entry (u : User) (post_time : float) (b : EntryBody)
    (entry_hashtags_input : pystr) : Entry :=
  {| author_name := name u; timestamp := post_time; body := b;
     entry_hashtags := parse_hashtags entry_hashtags_input |}.

(** [w'] has the store of [w0] and the keys of its session that the gate
    and the forms read. *)
Definition carried (w0 w' : World) : Prop :=
  notes_file w' = notes_file w0
  /\ user_location (session w') = user_location (session w0)
  /\ selected_note_id (session w') = selected_note_id (session w0)
  /\ recommended_note_id (session w') = recommended_note_id (session w0)
  /\ clicked_location (session w') = clicked_location (session w0).

(** How a run that ends before the right column may leave the store. *)
Definition early_stop (inp : Inputs) (u : User) (w0 w' : World) : Prop :=
  notes_file w' = notes_file w0
  \/ (notes_file w0 = []
      /\ notes_file w' = generate_initial_notes (in_clock inp) (in_places inp) [])
  \/ (exists now note_title note_hashtags clicked,
        in_event inp = SubmitNote now note_title note_hashtags
        /\ nonempty note_title = true
        /\ clicked_location (session w0) = Some clicked
        /\ notes_file w' = notes_file w0
                           ++ [created_note u now note_title note_hashtags clicked]).

Definition part_ok (inp : Inputs) (u : User) (w0 : World) (f : Flow) : Prop :=
  match f with
  | Continue w' => carried w0 w'
  | Stop w' => early_stop inp u w0 w'
  end.

Section StoreChange.

Variable km : float * float -> float * float -> float.

(** Every way a run of the user [u] may leave the store, [w0] being the
    world once the position of the run is sampled: as it was; seeded, when
    it was empty; with the note created at the clicked place; with a page
    added to the selected note, which is shown and within 10 km; without
    the notes of the selected id, the selected note being shown and
    [u]'s. *)
Definition store_change (inp : Inputs) (u : User) (w0 : World) (after : list Note)
  : Prop :=
  early_stop inp u w0 (with_notes after w0)
  \/ (exists note post_time text_input uploaded_file entry_hashtags_input b,
        in_event inp = SubmitEntry post_time text_input uploaded_file entry_hashtags_input
        /\ find_note (selected_note_id (session w0)) (notes_file w0) = Some note
        /\ view_gate_of km (session w0) note = Viewable
        /\ post_gate km (session w0) note = PostAllowed
        /\ new_entry_body text_input uploaded_file = Some b
        /\ after = append_entry (selected_note_id (session w0))
                                (posted_entry u post_time b entry_hashtags_input)
                                (notes_file w0))
  \/ (exists note,
        in_event inp = DeleteNote
        /\ find_note (selected_note_id (session w0)) (notes_file w0) = Some note
        /\ view_gate_of km (session w0) note = Viewable
        /\ creator_id note = user_id u
        /\ after = List.filter
                     (fun n => negb (id_is (note_id n) (selected_note_id (session w0))))
                     (notes_file w0)).

End StoreChange.

(** The world of a run once its position is sampled (lines 180-182). *)
Definition positioned (inp : Inputs) (w : World) : World :=
  with_session (sample_location (in_location inp)) w.

(** ** Accounts *)

(** Each account of users.json is filed under its own id, and whoever is
    logged in is an account of the file. *)
Definition well_keyed (users : gmap pystr User) : Prop :=
  forall i user, users !! i = Some user -> user_id user = i.

Definition registered (w : World) : Prop :=
  well_keyed (users_file w)
  /\ forall u, current_user (session w) = Some u ->
               users_file w !! user_id u = Some u.

(** What the main page does to the accounts: the file is as it was, and
    the user is who it was or nobody. *)
Definition same_accounts (w0 w' : World) : Prop :=
  users_file w' = users_file w0
  /\ (current_user (session w') = current_user (session w0)
      \/ current_user (session w') = None).

Definition flow_all (P : World -> Prop) (f : Flow) : Prop :=
  match f with Continue w | Stop w => P w end.

(** [P] where the script goes on, [Q] where it stops. *)
Definition flow_pq (P Q : World -> Prop) (f : Flow) : Prop :=
  match f with Continue w => P w | Stop w => Q w end.

(** A run with an account menu open and the position of [near_n1]. *)
Definition at_near_n1 (ev : Event) : Inputs :=
  {| in_event := ev; in_location := Some near_n1; in_gmaps := false; in_openai := false;
     in_selectbox := None; in_places := fun _ => None;
     in_clock := fun _ => 1700000000%float |}.

Definition nobody_yet : World :=
  {| session := initial_session; notes_file := [n1]; users_file := {[ py "alice" := alice ]} |}.

Definition carol : User :=
  {| user_id := py "carol"; name := py "Carol"; password_hash := example_hash (py "pw") |}.

(** Carol opens the account menu and logs out. *)
Definition carol_leaves : list Inputs :=
  [at_near_n1 (SetMenu AccountMenu); at_near_n1 Logout].

(** ** Seeding *)

(** The id [i] is a non-empty place id of one of the five responses. *)
Definition offered (places_nearby : PlaceType -> option (list Place)) (i : pystr) : Prop :=
  nonempty i = true
  /\ exists t places place,
       places_nearby t = Some places /\ place ∈ places /\ place_id place = Some i.

(** The shape of a note made by seeding. *)
Definition system_note (n : Note) : Prop :=
  nonempty (note_id n) = true
  /\ creator_id n = py "system"
  /\ creator_name n = auto_generated
  /\ Forall (fun tag => exists text, tag = HASH :: text) (hashtags n)
  /\ exists now t text,
       entries n = [ {| author_name := system_author; timestamp := now;
                        body := TextEntry text;
                        entry_hashtags := [HASH :: place_type_name t] |} ].

(** Two responses that list the same place. *)
Definition harbour_cafe : Place :=
  {| place_id := Some (py "p1"); place_name := Some (py "Harbour cafe");
     types := Some [py "cafe"; py "food"];
     location := Some (35%float, 139%float) |}.

Definition cafe_and_park (t : PlaceType) : option (list Place) :=
  match t with
  | cafe => Some [harbour_cafe]
  | park => Some [harbour_cafe]
  | _ => Some []
  end.

Definition parks_fail (t : PlaceType) : option (list Place) :=
  match t with
  | cafe => Some [harbour_cafe]
  | park => None
  | _ => Some []
  end.

(** ** Replies of the model *)

(** Whitespace as JSON has it. *)
Definition json_space (w : pystr) : Prop := Forall (fun c => is_json_ws c = true) w.

(** A text that a JSON string spells as it is: no control character, no
    double quote, no backslash. *)
Definition plain (s : pystr) : Prop :=
  Forall (fun c => (c <=? 31) = false /\ (c =? DQUOTE) = false
                   /\ (c =? BACKSLASH) = false) s.

(** The object the system prompt asks for, naming the id [i]. *)
Definition reply_block (w1 w2 w3 i : pystr) : pystr :=
  LBRACE :: w1 ++ key_literal ++ w2 ++ DQUOTE :: i ++ DQUOTE :: w3 ++ [RBRACE].

(** A reply in which two matches of the pattern begin at the same brace:
    the object naming a, and the longer text up to the last brace. *)
Definition two_ends : pystr :=
  py "x" ++ reply_block [] (py " ") [] (py "a") ++ py " " ++ [DQUOTE; RBRACE].

Definition longer_match : pystr :=
  reply_block [] (py " ") [] (py "a" ++ [DQUOTE; RBRACE] ++ py " ").

(** ** The chat *)

(** While a chat is open nothing is recommended, and the transcript begins
    with the greeting of the assistant. *)
Definition chat_ok (s : Session) : Prop :=
  chat_started s = true ->
  recommended_note_id s = None
  /\ head (chat_messages s) = Some (RoleAssistant, assistant_greeting).

(** The flag of line 393 is down, or the run has just installed the id
    [reco_id] it read out of the reply. *)
Definition flag_ok (ev : Event) (s : Session) : Prop :=
  switch_to_note_mode s = false
  \/ exists prompt msg levels reco_id conversation_text,
       ev = ChatInput prompt (Some msg) levels
       /\ parse_reply levels msg = Recommendation reco_id conversation_text
       /\ recommended_note_id s = Some reco_id
       /\ selected_note_id s = Some reco_id
       /\ chat_started s = false.

(** The page in write mode, the flag down. *)
Definition in_write_mode (s : Session) : Prop :=
  main_menu s = NoteOps /\ mode s = WriteMode /\ switch_to_note_mode s = false.

(** What a chat turn leaves when the summary of the notes cannot be built:
    the store, no assistant message, no new recommendation, the flag down. *)
Definition chat_unanswered (prompt : pystr) (w w' : World) : Prop :=
  notes_file w' = notes_file w
  /\ (chat_messages (session w') = chat_messages (session w)
      \/ chat_messages (session w') = chat_messages (session w) ++ [(RoleUser, prompt)])
  /\ (recommended_note_id (session w') = recommended_note_id (session w)
      \/ recommended_note_id (session w') = None)
  /\ switch_to_note_mode (session w') = false.

(** The same with the transcript untouched: the script has not reached the
    chat. *)
Definition chat_untouched (w w' : World) : Prop :=
  notes_file w' = notes_file w
  /\ chat_messages (session w') = chat_messages (session w)
  /\ (recommended_note_id (session w') = recommended_note_id (session w)
      \/ recommended_note_id (session w') = None)
  /\ switch_to_note_mode (session w') = false.

(** Bob, close to n2, about to add a page to it. *)
Definition bob_at_n2 : Session := bob_writing (Some near_n1) (Some (JStr (py "n2"))) None.

(** Bob adds a page with a text and a picture to n2, which had none; then
    opens the search menu, starts a chat and asks. *)
Definition picture_then_chat : list Inputs :=
  [ just (SubmitEntry 1700000300%float (py "Lunch") (Some (py "data:image/png;base64,AA"))
                      (py "noodles"));
    just (SetMenu SearchMenu);
    just StartChat;
    just (ChatInput (py "somewhere calm") (Some reply_n1) 900) ].

(** ** Sessions without a position *)

(** While no position was sampled, nothing is recommended. *)
Definition unsampled_ok (s : Session) : Prop :=
  user_location s = None -> recommended_note_id s = None.

(** What a user without a position may try: log in, open the search menu,
    start a chat, ask; the browser gives no position in any of these runs. *)
Definition no_position_runs : list Inputs :=
  [ just (Login (py "bob") (py "secret"));
    just (SetMenu SearchMenu);
    just StartChat;
    just (ChatInput (py "somewhere calm") (Some reply_n1) 900);
    just (SetMode WriteMode) ].

(** Bob logs in, and his browser gives the position [near_n1]. *)
Definition login_and_position : list Inputs :=
  [ just (Login (py "bob") (py "secret")); at_near_n1 Refresh ].

(** * Properties *)

(** ** The pattern matcher finds exactly the matches *)

Lemma skip_ws_decompose (s : pystr) :
  exists w, all_space w /\ s = w ++ skip_ws s.
Proof.
  induction s as [|c t [w [Hw Ht]]]; simpl.
  - exists []. split; [constructor | reflexivity].
  - destruct (isspace c) eqn:Hc.
    + exists (c :: w). split; [constructor; assumption | simpl; congruence].
    + exists []. split; [constructor | reflexivity].
Qed.

Lemma skip_ws_app (w : pystr) (c : N) (r : pystr) :
  all_space w -> isspace c = false -> skip_ws (w ++ c :: r) = c :: r.
Proof.
  intros Hw Hc. induction Hw as [|x w Hx Hw IH]; simpl.
  - rewrite Hc. reflexivity.
  - rewrite Hx. exact IH.
Qed.

Lemma strip_prefix_Some (p s r : pystr) :
  strip_prefix p s = Some r <-> s = p ++ r.
Proof.
  revert s. induction p as [|a p IH]; intros s; simpl.
  - split; congruence.
  - destruct s as [|b s]; [split; discriminate|].
    destruct (N.eqb_spec a b) as [->|Hne].
    + rewrite IH. split; congruence.
    + split; [discriminate | congruence].
Qed.

Lemma strip_prefix_app (p r : pystr) : strip_prefix p (p ++ r) = Some r.
Proof. apply strip_prefix_Some. reflexivity. Qed.

Lemma closing_Some (s rest : pystr) :
  closing s = Some rest <->
  exists w3, all_space w3 /\ s = DQUOTE :: w3 ++ RBRACE :: rest.
Proof.
  split.
  - destruct s as [|c t]; simpl; [discriminate|].
    destruct (N.eqb_spec c DQUOTE) as [->|]; [|discriminate].
    destruct (skip_ws_decompose t) as [w [Hw Ht]].
    destruct (skip_ws t) as [|d r]; [discriminate|].
    destruct (N.eqb_spec d RBRACE) as [->|]; [|discriminate].
    intros [= <-]. exists w. split; [assumption | congruence].
  - intros [w3 [Hw ->]]. simpl.
    rewrite (skip_ws_app w3 RBRACE rest Hw); reflexivity.
Qed.

Lemma lazy_body_Some (s rest : pystr) :
  lazy_body s = Some rest ->
  exists body w3, all_space w3 /\ s = body ++ DQUOTE :: w3 ++ RBRACE :: rest.
Proof.
  induction s as [|c t IH].
  - simpl. discriminate.
  - cbn [lazy_body]. destruct (closing (c :: t)) as [r|] eqn:Hc.
    + intros [= ->]. apply closing_Some in Hc as [w3 [Hw Hs]].
      exists [], w3. split; [assumption | exact Hs].
    + intros H. destruct (IH H) as [body [w3 [Hw ->]]].
      exists (c :: body), w3. split; [assumption | reflexivity].
Qed.

Lemma lazy_body_finds (body w3 rest : pystr) :
  all_space w3 -> is_Some (lazy_body (body ++ DQUOTE :: w3 ++ RBRACE :: rest)).
Proof.
  intros Hw. induction body as [|c body IH].
  - assert (closing (DQUOTE :: w3 ++ RBRACE :: rest) = Some rest) as Hc
      by (apply closing_Some; eauto).
    cbn [app lazy_body]. rewrite Hc. eauto.
  - cbn [app lazy_body]. destruct (closing _); [eauto | exact IH].
Qed.

Lemma key_literal_head : exists k, key_literal = DQUOTE :: k.
Proof. eexists. reflexivity. Qed.

Lemma match_here_Some (s rest : pystr) :
  match_here s = Some rest ->
  exists m, s = m ++ rest /\ matches_pattern m.
Proof.
  destruct s as [|c s1]; [discriminate|]. unfold match_here.
  destruct (N.eqb_spec c LBRACE) as [->|]; [|discriminate].
  destruct (skip_ws_decompose s1) as [w1 [Hw1 Hs1]].
  destruct (strip_prefix key_literal (skip_ws s1)) as [s2|] eqn:Hk; [|discriminate].
  apply strip_prefix_Some in Hk.
  destruct (skip_ws_decompose s2) as [w2 [Hw2 Hs2]].
  destruct (skip_ws s2) as [|d s3]; [discriminate|].
  destruct (N.eqb_spec d DQUOTE) as [->|]; [|discriminate].
  intros Hl. apply lazy_body_Some in Hl as [body [w3 [Hw3 ->]]].
  exists (LBRACE :: w1 ++ key_literal ++ w2 ++ DQUOTE :: body ++ DQUOTE :: w3 ++ [RBRACE]).
  split.
  - rewrite Hs1, Hk, Hs2. simpl. rewrite <- !app_assoc. simpl.
    repeat (f_equal; try rewrite <- !app_assoc; simpl).
  - exists w1, w2, body, w3. auto.
Qed.

Lemma match_here_finds (sub post : pystr) :
  matches_pattern sub -> is_Some (match_here (sub ++ post)).
Proof.
  intros (w1 & w2 & body & w3 & Hw1 & Hw2 & Hw3 & ->).
  destruct key_literal_head as [k Hk].
  cbn [app match_here]. rewrite N.eqb_refl.
  rewrite <- !app_assoc.
  replace (skip_ws (w1 ++ key_literal ++ _)) with
    (key_literal ++ w2 ++ (DQUOTE :: body ++ DQUOTE :: w3 ++ [RBRACE]) ++ post).
  2:{ rewrite Hk. symmetry. apply (skip_ws_app w1 DQUOTE); [assumption|reflexivity]. }
  rewrite strip_prefix_app.
  cbn [app]. rewrite (skip_ws_app w2 DQUOTE) by (assumption || reflexivity).
  rewrite N.eqb_refl. rewrite <- !app_assoc. cbn [app].
  rewrite <- app_assoc. apply lazy_body_finds. assumption.
Qed.

Lemma match_here_length (s rest : pystr) :
  match_here s = Some rest ->
  exists m, s = m ++ rest /\ take (length s - length rest)%nat s = m.
Proof.
  intros H. destruct (match_here_Some _ _ H) as [m [-> _]].
  exists m. split; [reflexivity|].
  rewrite length_app, Nat.add_sub. apply take_app_length.
Qed.

Lemma re_search_Some (s pre m post : pystr) :
  re_search s = Some (pre, m, post) -> s = pre ++ m ++ post /\ matches_pattern m.
Proof.
  revert pre. induction s as [|c t IH]; intros pre.
  - simpl. discriminate.
  - cbn [re_search]. destruct (match_here (c :: t)) as [rest|] eqn:Hm.
    + intros [= <- Hm2 <-].
      destruct (match_here_Some _ _ Hm) as [m' [Hs Hp]].
      destruct (match_here_length _ _ Hm) as [m'' [Hs' Ht]].
      assert (m'' = m) as -> by (etrans; [symmetry; exact Ht | exact Hm2]).
      assert (m' = m) as -> by (apply (app_inv_tail rest); congruence).
      split; [exact Hs | exact Hp].
    + destruct (re_search t) as [[[pre' m'] post']|] eqn:Hr; [|discriminate].
      intros [= <- <- <-]. destruct (IH _ eq_refl) as [-> Hp].
      split; [reflexivity | exact Hp].
Qed.

Lemma re_search_finds (s : pystr) : has_match s -> is_Some (re_search s).
Proof.
  intros (pre & sub & post & -> & Hp).
  induction pre as [|c pre IH].
  - pose proof (match_here_finds sub post Hp) as [rest Hm].
    destruct sub as [|c sub].
    + destruct Hp as (? & ? & ? & ? & _ & _ & _ & [=]).
    + cbn [app re_search] in *. rewrite Hm. eauto.
  - cbn [app re_search]. destruct (match_here _); [eauto|].
    destruct IH as [[[p m] q] ->]. eauto.
Qed.

Lemma re_search_None (s : pystr) : re_search s = None <-> ~ has_match s.
Proof.
  split.
  - intros Hn Hm. apply re_search_finds in Hm as [x Hx]. congruence.
  - intros Hn. destruct (re_search s) as [[[pre m] post]|] eqn:Hr; [|reflexivity].
    exfalso. apply Hn. apply re_search_Some in Hr as [-> Hp].
    exists pre, m, post. auto.
Qed.

(** ** The loops of the JSON decoder have fuel enough *)

Lemma skip_json_ws_length (s : pystr) : (length (skip_json_ws s) <= length s)%nat.
Proof.
  induction s as [|c t IH]; simpl; [lia|]. destruct (is_json_ws c); simpl; lia.
Qed.

Lemma strip_prefix_length (p s r : pystr) :
  strip_prefix p s = Some r -> length s = (length p + length r)%nat.
Proof. intros H. apply strip_prefix_Some in H as ->. apply length_app. Qed.

Lemma digits_length (s ds r : pystr) :
  digits s = (ds, r) -> (length r <= length s)%nat.
Proof.
  revert ds r. induction s as [|c t IH]; intros ds r; simpl.
  - intros [= <- <-]. simpl. lia.
  - destruct (is_digit c).
    + destruct (digits t) as [ds' r'] eqn:Hd. intros [= <- <-].
      specialize (IH _ _ eq_refl). lia.
    + intros [= <- <-]. simpl. lia.
Qed.

Lemma match_number_length (s : pystr) (v : json) (r : pystr) :
  match_number s = Done (v, r) -> (length r < length s)%nat.
Proof.
  unfold match_number. intros H.
  repeat (case_match; simplify_eq; simpl in *);
    repeat match goal with
           | H : digits _ = _ |- _ => apply digits_length in H; simpl in H
           end; lia.
Qed.

Lemma hex4_length (s : pystr) (c : N) (r : pystr) :
  hex4 s = Some (c, r) -> length s = (4 + length r)%nat.
Proof.
  unfold hex4. intros H. repeat (case_match; simplify_eq). reflexivity.
Qed.

Lemma unicode_escape_length (s : pystr) (c : N) (r : pystr) :
  unicode_escape s = Some (c, r) -> (length r < length s)%nat.
Proof.
  unfold unicode_escape. intros H.
  repeat (case_match; simplify_eq; simpl in *);
    repeat match goal with
           | H : hex4 _ = Some _ |- _ => apply hex4_length in H; simpl in H
           end; lia.
Qed.

Lemma scanstring_length (fuel : nat) (s str r : pystr) :
  scanstring fuel s = Some (str, r) -> (length r < length s)%nat.
Proof.
  revert s str r. induction fuel as [|fuel IH]; intros s str r; simpl; [discriminate|].
  intros H. repeat (case_match; simplify_eq; simpl in *);
    repeat match goal with
           | H : unicode_escape _ = Some _ |- _ => apply unicode_escape_length in H
           | H : scanstring fuel _ = Some _ |- _ => apply IH in H
           end; lia.
Qed.

(** With fuel for every character, [scanstring] no longer depends on it. *)
Lemma scanstring_fuel (fuel fuel' : nat) (s : pystr) :
  (length s <= fuel)%nat -> (length s <= fuel')%nat ->
  scanstring fuel s = scanstring fuel' s.
Proof.
  revert fuel' s. induction fuel as [|fuel IH]; intros fuel' s Hf Hf'.
  - destruct s; [|simpl in Hf; lia]. destruct fuel'; reflexivity.
  - destruct fuel' as [|fuel'].
    + destruct s; [reflexivity | simpl in Hf'; lia].
    + simpl. destruct s as [|c t]; [reflexivity|]. simpl in Hf, Hf'.
      destruct (c =? DQUOTE); [reflexivity|].
      destruct (c =? BACKSLASH).
      * destruct t as [|e t']; [reflexivity|]. simpl in Hf, Hf'.
        destruct (e =? 117).
        -- destruct (unicode_escape t') as [[ch rest]|] eqn:Hu; [|reflexivity].
           apply unicode_escape_length in Hu.
           rewrite (IH fuel' rest) by lia. reflexivity.
        -- destruct (simple_escape e); [|reflexivity].
           rewrite (IH fuel' t') by lia. reflexivity.
      * destruct (c <=? 31); [reflexivity|].
        rewrite (IH fuel' t) by lia. reflexivity.
Qed.

(** The loops, over a [scan] that reads at least one character. *)
Section ContainerFacts.

Variable scan : pystr -> outcome (json * pystr).
Variable room : nat.
Hypothesis scan_reads : forall s v r, scan s = Done (v, r) -> (length r < length s)%nat.

Lemma object_members_length (fuel : nat) (acc : list (pystr * json)) (s : pystr)
    (v : json) (r : pystr) :
  object_members scan room fuel acc s = Done (v, r) -> (length r < length s)%nat.
Proof.
  revert acc s. induction fuel as [|fuel IH]; intros acc s; [discriminate|].
  cbn [object_members].
  destruct s as [|q t]; [discriminate|].
  destruct (q =? DQUOTE); [|discriminate].
  destruct (scanstring (length t) t) as [[key r0]|] eqn:Hkey; [|discriminate].
  apply scanstring_length in Hkey.
  pose proof (skip_json_ws_length r0) as H0.
  destruct (skip_json_ws r0) as [|c r1]; [discriminate|].
  destruct (c =? COLON); [|discriminate].
  pose proof (skip_json_ws_length r1) as H1.
  destruct (scan (skip_json_ws r1)) as [[v1 r2]| |e] eqn:Hval; [|discriminate..].
  apply scan_reads in Hval.
  pose proof (skip_json_ws_length r2) as H2.
  destruct (skip_json_ws r2) as [|d r3]; [discriminate|].
  pose proof (skip_json_ws_length r3) as H3.
  cbn [length] in *.
  destruct (d =? RBRACE); [intros [= <- <-]; lia|].
  destruct (d =? COMMA); [|discriminate].
  intros H. apply IH in H. lia.
Qed.

Lemma array_items_length (fuel : nat) (acc : list json) (s : pystr)
    (v : json) (r : pystr) :
  array_items scan room fuel acc s = Done (v, r) -> (length r < length s)%nat.
Proof.
  revert acc s. induction fuel as [|fuel IH]; intros acc s; [discriminate|].
  cbn [array_items].
  destruct (scan s) as [[v1 r1]| |e] eqn:Hval; [|discriminate..].
  apply scan_reads in Hval.
  pose proof (skip_json_ws_length r1) as H1.
  destruct (skip_json_ws r1) as [|d r2]; [discriminate|].
  pose proof (skip_json_ws_length r2) as H2.
  cbn [length] in *.
  destruct (d =? RBRACKET); [intros [= <- <-]; lia|].
  destruct (d =? COMMA); [|discriminate].
  intros H. apply IH in H. lia.
Qed.

(** With a turn of fuel for every character, and one at least, the loops
    never run out of it: whatever they end in, they end in with any larger
    fuel too. *)
Lemma object_members_fuel (fuel fuel' : nat) (acc : list (pystr * json)) (s : pystr) :
  (length s <= S fuel)%nat -> (length s <= S fuel')%nat ->
  object_members scan room (S fuel) acc s = object_members scan room (S fuel') acc s.
Proof.
  revert fuel' acc s. induction fuel as [fuel IH] using lt_wf_ind.
  intros fuel' acc s Hf Hf'.
  cbn [object_members].
  destruct s as [|q t]; [reflexivity|].
  destruct (q =? DQUOTE); [|reflexivity].
  destruct (scanstring (length t) t) as [[key r0]|] eqn:Hkey; [|reflexivity].
  apply scanstring_length in Hkey.
  pose proof (skip_json_ws_length r0) as H0.
  destruct (skip_json_ws r0) as [|c r1]; [reflexivity|].
  destruct (c =? COLON); [|reflexivity].
  pose proof (skip_json_ws_length r1) as H1.
  destruct (scan (skip_json_ws r1)) as [[v1 r2]| |e] eqn:Hval; [|reflexivity..].
  apply scan_reads in Hval.
  pose proof (skip_json_ws_length r2) as H2.
  destruct (skip_json_ws r2) as [|d r3]; [reflexivity|].
  pose proof (skip_json_ws_length r3) as H3.
  cbn [length] in *.
  destruct (d =? RBRACE); [reflexivity|].
  destruct (d =? COMMA); [|reflexivity].
  destruct fuel as [|f]; [lia|]. destruct fuel' as [|f']; [lia|].
  apply IH; lia.
Qed.

Lemma array_items_fuel (fuel fuel' : nat) (acc : list json) (s : pystr) :
  (length s <= S fuel)%nat -> (length s <= S fuel')%nat ->
  array_items scan room (S fuel) acc s = array_items scan room (S fuel') acc s.
Proof.
  revert fuel' acc s. induction fuel as [fuel IH] using lt_wf_ind.
  intros fuel' acc s Hf Hf'.
  cbn [array_items].
  destruct (scan s) as [[v1 r1]| |e] eqn:Hval; [|reflexivity..].
  apply scan_reads in Hval.
  pose proof (skip_json_ws_length r1) as H1.
  destruct (skip_json_ws r1) as [|d r2]; [reflexivity|].
  pose proof (skip_json_ws_length r2) as H2.
  cbn [length] in *.
  destruct (d =? RBRACKET); [reflexivity|].
  destruct (d =? COMMA); [|reflexivity].
  destruct fuel as [|f]; [lia|]. destruct fuel' as [|f']; [lia|].
  apply IH; lia.
Qed.

End ContainerFacts.

(** A value that is decoded was read from at least one character. *)
Lemma scan_once_length (room : nat) (s : pystr) (v : json) (r : pystr) :
  scan_once room s = Done (v, r) -> (length r < length s)%nat.
Proof.
  revert s v r. induction room as [|room IH]; intros s v r H.
  - destruct s as [|c t]; [discriminate|]. cbn [scan_once] in H.
    unfold parse_constant in H.
    repeat (case_match; simplify_eq);
      repeat match goal with
             | H : scanstring _ _ = Some _ |- _ => apply scanstring_length in H
             | H : strip_prefix ?p _ = Some _ |- _ =>
                 apply strip_prefix_length in H;
                 let k := eval vm_compute in (length p) in change (length p) with k in H
             | H : match_number _ = Done _ |- _ => apply match_number_length in H
             end; cbn [length] in *; lia.
  - destruct s as [|c t]; [discriminate|]. cbn [scan_once] in H.
    unfold parse_constant in H.
    pose proof (skip_json_ws_length t) as Ht.
    repeat (case_match; simplify_eq);
      repeat match goal with
             | H : scanstring _ _ = Some _ |- _ => apply scanstring_length in H
             | H : object_members _ _ _ _ _ = Done _ |- _ =>
                 apply (object_members_length _ _ IH) in H
             | H : array_items _ _ _ _ _ = Done _ |- _ =>
                 apply (array_items_length _ _ IH) in H
             | H : strip_prefix ?p _ = Some _ |- _ =>
                 apply strip_prefix_length in H;
                 let k := eval vm_compute in (length p) in change (length p) with k in H
             | H : match_number _ = Done _ |- _ => apply match_number_length in H
             | H : skip_json_ws t = _ |- _ => rewrite H in Ht
             end; cbn [length] in *; lia.
Qed.

(** The fuel [scan_once] gives the loops, the length of the text after the
    opening brace or bracket, is enough: with any larger fuel the loops
    end in the same, be it a value or an error. *)
Theorem json_loops_fuel_enough (room fuel : nat) (t : pystr) (d : N) (r : pystr) :
  skip_json_ws t = d :: r ->
  (length t <= fuel)%nat ->
  (forall acc,
      object_members (scan_once room) room fuel acc (d :: r)
      = object_members (scan_once room) room (length t) acc (d :: r))
  /\ (forall acc,
      array_items (scan_once room) room fuel acc (d :: r)
      = array_items (scan_once room) room (length t) acc (d :: r)).
Proof.
  intros Hs Hf. pose proof (skip_json_ws_length t) as Ht. rewrite Hs in Ht.
  cbn [length] in Ht.
  destruct (length t) as [|n] eqn:Hn; [lia|]. destruct fuel as [|f]; [lia|].
  split; intros acc.
  - apply object_members_fuel; [apply scan_once_length | cbn [length]; lia..].
  - apply array_items_fuel; [apply scan_once_length | cbn [length]; lia..].
Qed.

(** ** The proximity gate *)

Lemma view_gate_of_Viewable km (s : Session) (note : Note) :
  view_gate_of km s note = Viewable <->
  is_recommended s note = true \/ is_close_enough km s note = true.
Proof.
  unfold view_gate_of.
  destruct (is_recommended s note), (is_close_enough km s note); simpl;
    try (split; [auto | reflexivity]).
  destruct (user_location s); split; intros H; try discriminate; destruct H; discriminate.
Qed.

Lemma is_close_enough_true km (s : Session) (note : Note) :
  is_close_enough km s note = true <->
  exists l, user_location s = Some l /\
            PrimFloat.leb (km (coords_of l) (note_coords note)) 10%float = true.
Proof.
  unfold is_close_enough. destruct (user_location s) as [l|].
  - split; [eauto | intros [l' [[= <-] H]]; exact H].
  - split; [discriminate | intros [l' [[=] _]]].
Qed.

Lemma post_gate_allowed km (s : Session) (note : Note) :
  post_gate km s note = PostAllowed <->
  exists l, user_location s = Some l /\ float_truthy (latitude l) = true /\
            PrimFloat.leb (km (coords_of l) (note_coords note)) 10%float = true.
Proof.
  unfold post_gate. destruct (user_location s) as [l|].
  - destruct (float_truthy (latitude l)) eqn:Ht.
    + destruct (PrimFloat.leb _ _) eqn:Hd.
      * split; [eauto | reflexivity].
      * split; [discriminate | intros [l' [[= <-] [_ H]]]; congruence].
    + split; [discriminate | intros [l' [[= <-] [H _]]]; congruence].
  - split; [discriminate | intros [l' [[=] _]]].
Qed.

(** C1, as the code has it. Showing the selected note is permitted exactly
    when it is the recommended note of the session or the position is known
    and at most 10 km (great circle) from the note. Posting an entry is
    permitted exactly when the position is known, its latitude is not zero,
    and it is at most 10 km from the note: the recommendation is no
    override there. The radius is the same, and whoever may post may
    view. *)
Theorem gate_rules km (s : Session) (note : Note) :
  (view_gate_of km s note = Viewable <->
     is_recommended s note = true \/
     exists l, user_location s = Some l /\
               PrimFloat.leb (km (coords_of l) (note_coords note)) 10%float = true)
  /\ (post_gate km s note = PostAllowed <->
     exists l, user_location s = Some l /\ float_truthy (latitude l) = true /\
               PrimFloat.leb (km (coords_of l) (note_coords note)) 10%float = true)
  /\ (post_gate km s note = PostAllowed -> view_gate_of km s note = Viewable).
Proof.
  split; [|split].
  - rewrite view_gate_of_Viewable, is_close_enough_true. reflexivity.
  - apply post_gate_allowed.
  - intros H. apply post_gate_allowed in H as [l [Hl [_ Hd]]].
    apply view_gate_of_Viewable. right. apply is_close_enough_true. eauto.
Qed.

(** C1 as stated fails. The model recommends n1 to Bob, who is 143 km away
    from it; on the next run n1 is selected and recommended, and it is
    shown; the entry Bob then submits is refused as too far, and the store
    stays as it is. *)
Lemma recommended_far_note_not_writable :
  let w2 := runs example_km example_hash (take 2 advice_then_reselection)
                 (world_of bob_far_chatting [n1; n2]) in
  selected_note (session w2) (notes_file w2) = Some n1
  /\ is_recommended (session w2) n1 = true
  /\ view_gate example_km (session w2) (notes_file w2) = Viewable
  /\ post_gate example_km (session w2) n1 = PostTooFar 143.38285468153035%float
  /\ notes_file (run example_km example_hash
                     (just (SubmitEntry 1700000200%float (py "Hello") None (py "calm")))
                     w2)
     = notes_file w2.
Proof. vm_compute. repeat split. Qed.

(** The gate read as a function of the session alone: with no position,
    the test for the recommendation comes before the test for the missing
    position. *)
Lemma gate_cases_without_location km (s : Session) (note : Note) :
  user_location s = None ->
  view_gate_of km s note = (if is_recommended s note then Viewable else ViewNoLocation)
  /\ post_gate km s note = PostNoLocation.
Proof.
  intros Hl. unfold view_gate_of, is_close_enough, post_gate. rewrite Hl.
  destruct (is_recommended s note); split; reflexivity.
Qed.

(** ** The nearby notes *)

Lemma nearby_filter_In km origin (notes : list Note) (note : Note) :
  In note (nearby_filter km origin notes) <->
  In note notes /\ PrimFloat.leb (km origin (note_coords note)) 10%float = true.
Proof. unfold nearby_filter. apply filter_In. Qed.

Lemma nearby_filter_sublist km origin (notes : list Note) :
  sublist (nearby_filter km origin notes) notes.
Proof.
  unfold nearby_filter. induction notes as [|n rest IH]; simpl.
  - constructor.
  - destruct (PrimFloat.leb _ _); constructor; exact IH.
Qed.

(** C6, as the code has it. The radius is not an argument: for every origin
    and every sequence of notes the filter returns exactly the notes at
    most 10 km from the origin (10 km itself included), in the order of the
    input; it is the specified filter at that one radius. *)
Theorem nearby_filter_radius_10 km origin (notes : list Note) :
  nearby_filter km origin notes = withinRadius km origin 10%float notes
  /\ (forall note, In note (nearby_filter km origin notes) <->
        In note notes /\ PrimFloat.leb (km origin (note_coords note)) 10%float = true)
  /\ sublist (nearby_filter km origin notes) notes.
Proof.
  split; [|split].
  - unfold nearby_filter. induction notes as [|n rest IH]; simpl; [reflexivity|].
    unfold note_coords at 1. destruct (PrimFloat.leb _ _); rewrite IH; reflexivity.
  - intros note. apply nearby_filter_In.
  - apply nearby_filter_sublist.
Qed.

(** C6 as stated fails for a radius other than 10: a note 7 km away is
    returned, though it is not within 5 km. *)
Lemma nearby_filter_ignores_radius :
  nearby_filter seven_km (35%float, 139%float) [n1] = [n1]
  /\ withinRadius seven_km (35%float, 139%float) 5%float [n1] = [].
Proof. vm_compute. split; reflexivity. Qed.

(** ** The reply of the model *)

(** C7. The example reply of the specification: the first match is the JSON
    object at its end, the id read out of it is abc123, the rest of the
    reply, trimmed, is the text before the object; the handler adds that
    text to the transcript as an assistant turn and installs the id. The
    object is one container: this holds whenever the interpreter has the
    five levels of recursion left that decoding it takes. *)
Theorem reply_abc123_parsed (more : nat) :
  re_search reply_abc123
    = Some (py "Here you go! ",
            py "{" ++ quoted key_name ++ py ": " ++ quoted (py "abc123") ++ py "}",
            [])
  /\ parse_reply (5 + more) reply_abc123
     = Recommendation (JStr (py "abc123")) (py "Here you go!")
  /\ forall w,
       let s' := session (end_of_run (handle_reply (5 + more) reply_abc123 w)) in
       chat_messages s'
         = chat_messages (session w) ++ [(RoleAssistant, py "Here you go!")]
       /\ recommended_note_id s' = Some (JStr (py "abc123")).
Proof.
  assert (parse_reply (5 + more) reply_abc123
          = Recommendation (JStr (py "abc123")) (py "Here you go!")) as Hp
    by (destruct more; vm_compute; reflexivity).
  split; [vm_compute; reflexivity | split; [exact Hp|]].
  intros w. unfold handle_reply. rewrite Hp.
  change (nonempty (py "Here you go!")) with true. cbv iota.
  destruct (find_note _ _); split; reflexivity.
Qed.

(** C8. A reply in which no substring matches the pattern is added whole to
    the transcript as an assistant turn; the run ends there, the chat stays
    open ([chat_started] is as it was) and neither the recommendation nor
    the selection is touched. *)
Theorem reply_without_json_continues_chat (levels : nat) (msg : pystr) (w : World) :
  ~ has_match msg ->
  handle_reply levels msg w = Stop (with_session (append_message RoleAssistant msg) w)
  /\ (let s' := session (end_of_run (handle_reply levels msg w)) in
      chat_messages s' = chat_messages (session w) ++ [(RoleAssistant, msg)]
      /\ chat_started s' = chat_started (session w)
      /\ recommended_note_id s' = recommended_note_id (session w)
      /\ selected_note_id s' = selected_note_id (session w))
  /\ notes_file (end_of_run (handle_reply levels msg w)) = notes_file w
  /\ (forall prompt,
        forallb first_entry_ok (notes_file w) = true ->
        chat_messages (session (end_of_run (chat_turn prompt (Some msg) levels w)))
        = chat_messages (session w) ++ [(RoleUser, prompt); (RoleAssistant, msg)]).
Proof.
  intros Hn. apply re_search_None in Hn.
  assert (parse_reply levels msg = NoMatch) as Hp
    by (unfold parse_reply; rewrite Hn; reflexivity).
  unfold chat_turn, handle_reply. rewrite Hp. repeat split.
  intros prompt ->. simpl. rewrite <- app_assoc. reflexivity.
Qed.

Lemma reply_without_json_continues_chat_witness :
  ~ has_match reply_chatty
  /\ chat_messages
       (session (end_of_run (handle_reply 900 reply_chatty
                               (world_of bob_chatting [n1; n2]))))
     = chat_messages bob_chatting ++ [(RoleAssistant, reply_chatty)]
  /\ chat_started
       (session (end_of_run (handle_reply 900 reply_chatty
                               (world_of bob_chatting [n1; n2]))))
     = true.
Proof.
  assert (~ has_match reply_chatty) as Hn
    by (apply re_search_None; vm_compute; reflexivity).
  split; [exact Hn|].
  destruct (reply_without_json_continues_chat 900 reply_chatty
              (world_of bob_chatting [n1; n2]) Hn) as [_ [[Hm [Hc _]] _]].
  split; [exact Hm | exact Hc].
Defined.

Lemma find_note_None_selected km (s : Session) (notes : list Note) :
  find_note (selected_note_id s) notes = None -> view_gate km s notes = NothingToView.
Proof.
  intros H. unfold view_gate, selected_note. rewrite H.
  destruct (write_mode_selected s); reflexivity.
Qed.

(** C4, as the code has it. When the id read out of the reply is the id of
    no note, it is installed all the same, as the recommendation and as the
    selection; the chat is closed and the switch to write mode is
    requested. Only the success message and the recentring of the map are
    left out. Nothing fails: the run ends in a rerun, the file of notes is
    as before, and with that selection the right column shows nothing. An
    id is read out only when [json.loads] returns: where it raises, be it
    JSONDecodeError, ValueError or RecursionError, nothing is installed. *)
Theorem invalid_recommendation_is_installed km (levels : nat) (msg : pystr) (w : World)
    (reco_id : json) (conversation_text : pystr) :
  parse_reply levels msg = Recommendation reco_id conversation_text ->
  find_note (Some reco_id) (notes_file w) = None ->
  (exists pre json_str post reco_data,
      re_search msg = Some (pre, json_str, post)
      /\ json_loads levels json_str = inl (JObj reco_data)
      /\ dict_get key_name reco_data = reco_id
      /\ truthy reco_id = true)
  /\ exists w',
    handle_reply levels msg w = Stop w'
    /\ recommended_note_id (session w') = Some reco_id
    /\ selected_note_id (session w') = Some reco_id
    /\ chat_started (session w') = false
    /\ switch_to_note_mode (session w') = true
    /\ center (session w') = center (session w)
    /\ zoom (session w') = zoom (session w)
    /\ notes_file w' = notes_file w
    /\ (forall s, selected_note_id s = Some reco_id ->
          view_gate km s (notes_file w') = NothingToView).
Proof.
  intros Hp Hf. split.
  - unfold parse_reply in Hp.
    destruct (re_search msg) as [[[pre json_str] post]|]; [|discriminate].
    destruct (json_loads levels json_str) as [[]|[]] eqn:Hj; try discriminate.
    destruct (truthy (dict_get key_name members)) eqn:Ht; [|discriminate].
    injection Hp as <- _. exists pre, json_str, post, members. auto.
  - unfold handle_reply. rewrite Hp, Hf.
    eexists. split; [reflexivity|].
    destruct (nonempty conversation_text); cbn; repeat split;
      intros s Hs; apply find_note_None_selected; rewrite Hs; exact Hf.
Qed.

Lemma invalid_recommendation_is_installed_witness :
  parse_reply 900 reply_unknown = Recommendation (JStr (py "zzz")) []
  /\ find_note (Some (JStr (py "zzz"))) [n1; n2] = None
  /\ exists w',
       handle_reply 900 reply_unknown (world_of bob_chatting [n1; n2]) = Stop w'
       /\ recommended_note_id (session w') = Some (JStr (py "zzz"))
       /\ selected_note_id (session w') = Some (JStr (py "zzz")).
Proof.
  assert (parse_reply 900 reply_unknown = Recommendation (JStr (py "zzz")) []) as Hp
    by (vm_compute; reflexivity).
  assert (find_note (Some (JStr (py "zzz"))) [n1; n2] = None) as Hf
    by (vm_compute; reflexivity).
  split; [exact Hp | split; [exact Hf|]].
  destruct (invalid_recommendation_is_installed example_km 900 reply_unknown
              (world_of bob_chatting [n1; n2]) _ _ Hp Hf)
    as [_ [w' [H1 [H2 [H3 _]]]]].
  exists w'. auto.
Defined.

(** C4 as stated fails: the reply names zzz, no note has that id, and zzz
    is the recommendation and the selection after the reply. *)
Lemma unknown_recommendation_installed :
  let w' := end_of_run (handle_reply 900 reply_unknown (world_of bob_chatting [n1; n2])) in
  find_note (Some (JStr (py "zzz"))) [n1; n2] = None
  /\ recommended_note_id (session w') = Some (JStr (py "zzz"))
  /\ selected_note_id (session w') = Some (JStr (py "zzz")).
Proof. vm_compute. repeat split. Qed.

(** Where [json.loads] raises something else than JSONDecodeError, the
    outer handler of line 411 reports it and nothing is installed: an
    integer of 4301 digits beside the id (one of 4300 digits is read); an
    array in an array in the object, which takes seven levels of recursion,
    with six left; an error of syntax in the object, which takes eight
    levels to be reported as a JSONDecodeError, with seven left. *)
Example decoder_errors_install_nothing :
  parse_reply 900 (reply_with_number 4301) = OtherError
  /\ handle_reply 900 (reply_with_number 4301) (world_of bob_chatting [n1; n2])
     = Continue (world_of bob_chatting [n1; n2])
  /\ parse_reply 900 (reply_with_number 4300) = Recommendation (JStr (py "zzz")) []
  /\ parse_reply 6 reply_nested = OtherError
  /\ handle_reply 6 reply_nested (world_of bob_chatting [n1; n2])
     = Continue (world_of bob_chatting [n1; n2])
  /\ parse_reply 7 reply_nested = Recommendation (JStr (py "zzz")) []
  /\ parse_reply 8 reply_not_json = DecodeError
  /\ parse_reply 7 reply_not_json = OtherError.
Proof. vm_compute. repeat split. Qed.

(** ** The hashtag search *)

Lemma forallb_existsb {A : Type} (p : A -> bool) (l : list A) :
  l <> [] -> forallb p l = true -> existsb p l = true.
Proof.
  destruct l as [|x l]; [congruence|]. simpl. intros _ H.
  apply andb_prop in H as [-> _]. reflexivity.
Qed.

Lemma tag_match_AND_OR (queries : list pystr) (note : Note) :
  queries <> [] -> tag_match AND queries note = true -> tag_match OR queries note = true.
Proof. unfold tag_match. apply forallb_existsb. Qed.

Lemma filter_sublist_mono {A : Type} (p q : A -> bool) (l : list A) :
  (forall x, p x = true -> q x = true) ->
  sublist (List.filter p l) (List.filter q l).
Proof.
  intros Hpq. induction l as [|x l IH]; simpl; [constructor|].
  destruct (p x) eqn:Hp.
  - rewrite (Hpq x Hp). constructor. exact IH.
  - destruct (q x); [constructor|]; exact IH.
Qed.

Lemma fold_tags_elem (q : pystr) (es : list Entry) (acc : gset pystr) :
  q ∈ fold_left (fun tags entry => tags ∪ list_to_set (entry_hashtags entry)) es acc
  <-> q ∈ acc \/ exists e, In e es /\ In q (entry_hashtags e).
Proof.
  revert acc. induction es as [|e es IH]; intros acc; simpl.
  - split; [auto | intros [H | [e [[] _]]]; exact H].
  - rewrite IH, elem_of_union, elem_of_list_to_set, list_elem_of_In. split.
    + intros [[H | H] | [e' [He' Hq]]]; eauto 6.
    + intros [H | [e' [[<- | He'] Hq]]]; eauto 6.
Qed.

Lemma all_tags_in_note_elem (q : pystr) (note : Note) :
  q ∈ all_tags_in_note note
  <-> In q (hashtags note) \/ exists e, In e (entries note) /\ In q (entry_hashtags e).
Proof.
  unfold all_tags_in_note.
  rewrite fold_tags_elem, elem_of_list_to_set, list_elem_of_In. reflexivity.
Qed.

Lemma tag_present (q : pystr) (note : Note) :
  bool_decide (q ∈ all_tags_in_note note) = true
  <-> In q (hashtags note) \/ exists e, In e (entries note) /\ In q (entry_hashtags e).
Proof. rewrite bool_decide_eq_true. apply all_tags_in_note_elem. Qed.

(** C9. For a query with at least one tag, every note the AND search
    returns is returned by the OR search, and in the same order; a tag
    counts as present in a note when it is one of the note's own hashtags
    or a hashtag of one of its entries. AND asks for every tag of the
    query, OR for one of them. *)
Theorem and_search_within_or_search (queries : list pystr) (all_notes : list Note) :
  queries <> [] ->
  (forall note, In note (found_notes AND queries all_notes) ->
                In note (found_notes OR queries all_notes))
  /\ sublist (found_notes AND queries all_notes) (found_notes OR queries all_notes)
  /\ (forall note,
        (tag_match AND queries note = true <->
           forall q, In q queries ->
             In q (hashtags note) \/
             exists e, In e (entries note) /\ In q (entry_hashtags e))
        /\ (tag_match OR queries note = true <->
           exists q, In q queries /\
             (In q (hashtags note) \/
              exists e, In e (entries note) /\ In q (entry_hashtags e)))).
Proof.
  intros Hq. split; [|split].
  - intros note. unfold found_notes. rewrite !filter_In.
    intros [Hin Hm]. split; [exact Hin | apply tag_match_AND_OR; assumption].
  - apply filter_sublist_mono. intros note. apply tag_match_AND_OR, Hq.
  - intros note. unfold tag_match. split.
    + rewrite forallb_forall. split; intros H q Hin; apply tag_present, H, Hin.
    + rewrite existsb_exists. split; intros [q [Hin H]]; exists q;
        (split; [exact Hin | apply tag_present, H]).
Qed.

Lemma and_search_within_or_search_witness :
  [py "#sea"; py "#quiet"] <> []
  /\ found_notes AND [py "#sea"; py "#quiet"] [n1; n2] = [n1]
  /\ sublist (found_notes AND [py "#sea"; py "#quiet"] [n1; n2])
             (found_notes OR [py "#sea"; py "#quiet"] [n1; n2]).
Proof.
  assert ([py "#sea"; py "#quiet"] <> []) as Hq by discriminate.
  split; [exact Hq | split; [vm_compute; reflexivity|]].
  exact (proj1 (proj2 (and_search_within_or_search
                         [py "#sea"; py "#quiet"] [n1; n2] Hq))).
Defined.

(** Why C9 asks for a tag in the query: an input of blanks only passes the
    test of the handler and splits into no tag; AND then returns every
    note and OR none. *)
Example blank_query_and_not_within_or :
  nonempty (py "   ") = true
  /\ hashtag_queries (py "   ") = []
  /\ found_notes AND [] [n1; n2] = [n1; n2]
  /\ found_notes OR [] [n1; n2] = [].
Proof. vm_compute. repeat split. Qed.

(** ** Creating notes *)

Lemma seed_places_distinct (clock : nat -> float) (t : PlaceType) (places : list Place)
    (notes notes' : list Note) (processed processed' : gset pystr) :
  seed_places clock t places (notes, processed) = Some (notes', processed') ->
  NoDup (note_id <$> notes) ->
  (forall i, i ∈ note_id <$> notes -> i ∈ processed) ->
  NoDup (note_id <$> notes')
  /\ (forall i, i ∈ note_id <$> notes' -> i ∈ processed').
Proof.
  revert notes processed.
  induction places as [|place rest IH]; intros notes processed; simpl.
  - intros [= <- <-]. auto.
  - destruct (place_id place) as [pid|]; [|apply IH].
    destruct (nonempty pid && negb (bool_decide (pid ∈ processed))) eqn:Hnew; [|apply IH].
    destruct (location place) as [loc|]; [|discriminate].
    intros Hs Hnd Hsub. apply (IH _ _ Hs).
    + rewrite fmap_app. apply NoDup_app. split; [exact Hnd|]. split.
      * intros i Hi Hi'. simpl in Hi'. apply list_elem_of_singleton in Hi' as ->.
        apply andb_prop in Hnew as [_ Hnew].
        apply negb_true_iff, bool_decide_eq_false in Hnew. auto.
      * simpl. apply NoDup_singleton.
    + intros i. rewrite fmap_app, elem_of_app, elem_of_union. simpl.
      rewrite list_elem_of_singleton, elem_of_singleton. intros [Hi | ->]; auto.
Qed.

Lemma seed_types_distinct (clock : nat -> float)
    (places_nearby : PlaceType -> option (list Place)) (ts : list PlaceType)
    (notes notes' : list Note) (processed processed' : gset pystr) :
  seed_types clock places_nearby ts (notes, processed) = Some (notes', processed') ->
  NoDup (note_id <$> notes) ->
  (forall i, i ∈ note_id <$> notes -> i ∈ processed) ->
  NoDup (note_id <$> notes')
  /\ (forall i, i ∈ note_id <$> notes' -> i ∈ processed').
Proof.
  revert notes processed.
  induction ts as [|t rest IH]; intros notes processed; simpl.
  - intros [= <- <-]. auto.
  - destruct (places_nearby t) as [places|]; [|discriminate].
    destruct (seed_places clock t places (notes, processed)) as [[n1' p1']|] eqn:Hp;
      [|discriminate].
    intros Hs Hnd Hsub.
    destruct (seed_places_distinct _ _ _ _ _ _ _ Hp Hnd Hsub) as [Hnd1 Hsub1].
    exact (IH _ _ Hs Hnd1 Hsub1).
Qed.

Lemma initial_notes_distinct (clock : nat -> float)
    (places_nearby : PlaceType -> option (list Place)) (notes : list Note) :
  initial_notes_of clock places_nearby = Some notes -> NoDup (note_id <$> notes).
Proof.
  unfold initial_notes_of.
  destruct (seed_types clock places_nearby place_types ([], ∅)) as [[ns ps]|] eqn:Hs;
    [|discriminate].
  intros [= <-].
  apply (seed_types_distinct _ _ _ _ _ _ _ Hs); [constructor|].
  intros i Hi. simpl in Hi. inversion Hi.
Qed.

(** C2, as the code has it. Creating a note compares its id with nothing:
    whenever a place was clicked and a title is given, the note is appended
    at the end of the store, whether or not its id is already there, and
    the store is one note longer; there is no duplicate-id failure.
    Distinct ids come from elsewhere: a user's note takes the reading of
    the clock as its id, and seeding skips a place id it has already
    processed, so the notes it makes have pairwise distinct ids. *)
Theorem create_appends_without_id_check (u : User) (w : World)
    (now note_title note_hashtags : pystr) (clicked : float * float) :
  clicked_location (session w) = Some clicked ->
  nonempty note_title = true ->
  (exists new_note,
      place_mode_panel (SubmitNote now note_title note_hashtags) u w
        = Stop (with_session (set_clicked_location None)
                  (with_notes (notes_file w ++ [new_note]) w))
      /\ note_id new_note = now
      /\ creator_id new_note = user_id u
      /\ entries new_note = []
      /\ length (notes_file w ++ [new_note]) = S (length (notes_file w)))
  /\ (forall clock places_nearby notes,
        initial_notes_of clock places_nearby = Some notes ->
        NoDup (note_id <$> notes)).
Proof.
  intros Hc Ht. split.
  - unfold place_mode_panel. rewrite Hc. destruct clicked as [clat clng].
    rewrite Ht. eexists. split; [reflexivity|].
    repeat split. rewrite length_app. simpl. lia.
  - apply initial_notes_distinct.
Qed.

Lemma create_appends_without_id_check_witness :
  clicked_location alice_placing = Some (35.001%float, 139.001%float)
  /\ nonempty (py "Second bench") = true
  /\ exists new_note,
       place_mode_panel (SubmitNote clock_id (py "Second bench") (py "rest"))
                        alice (world_of alice_placing [n_clock])
       = Stop (with_session (set_clicked_location None)
                 (with_notes ([n_clock] ++ [new_note]) (world_of alice_placing [n_clock])))
       /\ note_id new_note = clock_id.
Proof.
  split; [reflexivity | split; [reflexivity|]].
  destruct (create_appends_without_id_check alice (world_of alice_placing [n_clock])
              clock_id (py "Second bench") (py "rest") _ eq_refl eq_refl)
    as [[new_note [H1 [H2 _]]] _].
  exists new_note. split; [exact H1 | exact H2].
Defined.

(** C2 as stated fails: the store holds a note with the id the clock gives;
    Alice's create with that id goes through, and the store holds two notes
    with one id. *)
Lemma create_with_existing_id_succeeds :
  let w := world_of alice_placing [n_clock] in
  let w' := run example_km example_hash
                (just (SubmitNote clock_id (py "Second bench") (py "rest"))) w in
  note_id <$> notes_file w = [clock_id]
  /\ note_id <$> notes_file w' = [clock_id; clock_id]
  /\ length (notes_file w') = 2%nat.
Proof. vm_compute. repeat split. Qed.

(** ** The recommendation follows the selection *)

Lemma keeps_refl (ev : Event) (s : Session) : keeps_recommendation ev s s.
Proof. split; [auto | right; left; reflexivity]. Qed.

Lemma keeps_trans (ev : Event) (s1 s2 s3 : Session) :
  keeps_recommendation ev s1 s2 -> keeps_recommendation ev s2 s3 ->
  keeps_recommendation ev s1 s3.
Proof.
  intros [Hi1 Hr1] [Hi2 Hr2]. split; [auto|].
  destruct Hr2 as [H | [H | H]].
  - left. exact H.
  - rewrite H. exact Hr1.
  - right; right. exact H.
Qed.

(** A part that touches neither key keeps both facts. *)
Lemma keeps_same (ev : Event) (s s' : Session) :
  recommended_note_id s' = recommended_note_id s ->
  selected_note_id s' = selected_note_id s ->
  keeps_recommendation ev s s'.
Proof.
  intros Hr Hs. split.
  - unfold recommendation_is_selection. rewrite Hr, Hs. auto.
  - right; left. exact Hr.
Qed.

(** A part that clears the recommendation keeps both facts. *)
Lemma keeps_cleared (ev : Event) (s s' : Session) :
  recommended_note_id s' = None -> keeps_recommendation ev s s'.
Proof. intros Hr. split; [left; exact Hr | left; exact Hr]. Qed.

Lemma keeps_and_then (ev : Event) (w : World) (f : Flow) (k : World -> Flow) :
  keeps_recommendation ev (session w) (session (end_of_run f)) ->
  (forall w1, keeps_recommendation ev (session w1) (session (end_of_run (k w1)))) ->
  keeps_recommendation ev (session w) (session (end_of_run (f >>> k))).
Proof.
  intros Hf Hk. destruct f as [w1|w1]; simpl in *.
  - eapply keeps_trans; [exact Hf | apply Hk].
  - exact Hf.
Qed.

Ltac keeps_by_cases :=
  repeat case_match; simpl;
  first [ apply keeps_refl
        | apply keeps_same; reflexivity
        | apply keeps_cleared; reflexivity ].

Lemma keeps_prelude (ev : Event) (loc : option Geo) (s : Session) :
  keeps_recommendation ev s
    (sample_location loc (process_switch_flag (widget_update ev s))).
Proof.
  apply keeps_same;
    unfold sample_location, process_switch_flag, widget_update;
    repeat case_match; reflexivity.
Qed.

Lemma keeps_seeding (inp : Inputs) (w : World) :
  keeps_recommendation (in_event inp) (session w) (session (end_of_run (seeding inp w))).
Proof. unfold seeding. keeps_by_cases. Qed.

Lemma keeps_initial_centering (ev : Event) (w : World) :
  keeps_recommendation ev (session w) (session (end_of_run (initial_centering w))).
Proof. unfold initial_centering. keeps_by_cases. Qed.

Lemma keeps_refresh_nearby km (ev : Event) (w : World) :
  keeps_recommendation ev (session w) (session (refresh_nearby km w)).
Proof. unfold refresh_nearby. keeps_by_cases. Qed.

Lemma keeps_place_mode_panel (ev : Event) (u : User) (w : World) :
  keeps_recommendation ev (session w) (session (end_of_run (place_mode_panel ev u w))).
Proof. unfold place_mode_panel. keeps_by_cases. Qed.

Lemma keeps_selection_change (ev : Event) (selected_id : pystr) (w : World) :
  keeps_recommendation ev (session w)
    (session (end_of_run (selection_change selected_id w))).
Proof. unfold selection_change. keeps_by_cases. Qed.

Lemma keeps_write_mode_panel (ev : Event) (choice : option pystr) (w : World) :
  keeps_recommendation ev (session w)
    (session (end_of_run (write_mode_panel choice w))).
Proof.
  unfold write_mode_panel.
  repeat case_match; try apply keeps_refl; apply keeps_selection_change.
Qed.

Lemma keeps_handle_reply (prompt msg : pystr) (levels : nat) (w : World) :
  keeps_recommendation (ChatInput prompt (Some msg) levels) (session w)
    (session (end_of_run (handle_reply levels msg w))).
Proof.
  unfold handle_reply. destruct (parse_reply levels msg) as [| | | | |reco_id text] eqn:Hp;
    try (simpl; first [apply keeps_refl | apply keeps_same; reflexivity]).
  split.
  - intros _. right. repeat case_match; reflexivity.
  - right; right. exists prompt, msg, levels, reco_id, text.
    repeat split; try assumption. repeat case_match; reflexivity.
Qed.

Lemma keeps_chat_turn (prompt : pystr) (reply : option pystr) (levels : nat) (w : World) :
  keeps_recommendation (ChatInput prompt reply levels) (session w)
    (session (end_of_run (chat_turn prompt reply levels w))).
Proof.
  unfold chat_turn. destruct (forallb first_entry_ok (notes_file w));
    [|apply keeps_same; reflexivity].
  destruct reply as [msg|]; [|apply keeps_same; reflexivity].
  eapply keeps_trans; [|apply keeps_handle_reply].
  apply keeps_same; reflexivity.
Qed.

Lemma keeps_search_panel (inp : Inputs) (w : World) :
  keeps_recommendation (in_event inp) (session w)
    (session (end_of_run (search_panel inp w))).
Proof.
  unfold search_panel. destruct (in_event inp); try keeps_by_cases.
  destruct (_ && _); [apply keeps_chat_turn | apply keeps_refl].
Qed.

Lemma keeps_account_panel (ev : Event) (w : World) :
  keeps_recommendation ev (session w) (session (end_of_run (account_panel ev w))).
Proof. unfold account_panel. keeps_by_cases. Qed.

Lemma keeps_sidebar (inp : Inputs) (u : User) (w : World) :
  keeps_recommendation (in_event inp) (session w)
    (session (end_of_run (sidebar inp u w))).
Proof.
  unfold sidebar. destruct (main_menu (session w)); [destruct (mode (session w))| |].
  - apply keeps_place_mode_panel.
  - apply keeps_write_mode_panel.
  - apply keeps_search_panel.
  - apply keeps_account_panel.
Qed.

Lemma keeps_map_column (ev : Event) (w : World) :
  keeps_recommendation ev (session w) (session (end_of_run (map_column ev w))).
Proof. unfold map_column. keeps_by_cases. Qed.

Lemma keeps_right_column km (ev : Event) (u : User) (w : World) :
  keeps_recommendation ev (session w)
    (session (end_of_run (right_column km ev u w))).
Proof.
  unfold right_column, entry_form, delete_block. keeps_by_cases.
Qed.

Lemma keeps_auth_page hash (ev : Event) (w : World) :
  keeps_recommendation ev (session w) (session (end_of_run (auth_page hash ev w))).
Proof. unfold auth_page. keeps_by_cases. Qed.

Lemma keeps_run km hash (inp : Inputs) (w : World) :
  keeps_recommendation (in_event inp) (session w) (session (run km hash inp w)).
Proof.
  unfold run, script. destruct (current_user (session w)) as [u|];
    [|apply keeps_auth_page].
  unfold main_app.
  set (w0 := with_session _ w).
  assert (keeps_recommendation (in_event inp) (session w) (session w0)) as H0
    by apply keeps_prelude.
  eapply keeps_trans; [exact H0|].
  apply keeps_and_then; [apply keeps_seeding|]. intros w1.
  apply keeps_and_then; [apply keeps_initial_centering|]. intros w2.
  destruct (center (session w2)); [|apply keeps_refl].
  eapply keeps_trans; [apply (keeps_refresh_nearby km)|].
  apply keeps_and_then; [apply keeps_sidebar|]. intros w3.
  apply keeps_and_then; [apply keeps_map_column|]. intros w4.
  apply keeps_right_column.
Qed.

Lemma runs_keep_invariant km hash (inps : list Inputs) (w : World) :
  recommendation_is_selection (session w) ->
  recommendation_is_selection (session (runs km hash inps w)).
Proof.
  revert w. induction inps as [|inp inps IH]; intros w Hw; simpl; [exact Hw|].
  apply IH. apply (keeps_run km hash inp w). exact Hw.
Qed.

(** ** Only the creator deletes *)

Lemma id_is_true (i : pystr) (v : option json) :
  id_is i v = true <-> v = Some (JStr i).
Proof.
  unfold id_is. destruct v as [[]|]; try (split; [discriminate | congruence]).
  rewrite bool_decide_eq_true. split; congruence.
Qed.

Lemma find_note_Some (wanted : option json) (notes : list Note) (n : Note) :
  find_note wanted notes = Some n -> In n notes /\ id_is (note_id n) wanted = true.
Proof. apply find_some. Qed.

Lemma survives_In (n : Note) (notes : list Note) : In n notes -> survives n notes.
Proof.
  intros H. exists n. repeat split; try assumption.
  exists []. rewrite app_nil_r. reflexivity.
Qed.

Lemma append_entry_survives (wanted : option json) (e : Entry) (n : Note)
    (notes : list Note) :
  In n notes -> survives n (append_entry wanted e notes).
Proof.
  induction notes as [|m rest IH]; [intros []|].
  intros [-> | Hin]; simpl.
  - destruct (id_is (note_id n) wanted).
    + eexists. split; [left; reflexivity|]. simpl. repeat split. eauto.
    + apply survives_In. left. reflexivity.
  - destruct (id_is (note_id m) wanted).
    + apply survives_In. right. exact Hin.
    + destruct (IH Hin) as [n' [Hn' Hrest]]. exists n'. split; [right; exact Hn' | exact Hrest].
Qed.

Lemma kept_for_same (ev : Event) (selected : option json) (n : Note)
    (notes : list Note) :
  In n notes -> kept_for ev selected n notes notes.
Proof. intros H. split; [apply survives_In; exact H | split; auto]. Qed.

Lemma right_column_keeps km (ev : Event) (u : User) (w : World) (n : Note) :
  find_note (Some (JStr (note_id n))) (notes_file w) = Some n ->
  creator_id n <> user_id u ->
  kept_for ev (selected_note_id (session w)) n (notes_file w)
    (notes_file (end_of_run (right_column km ev u w))).
Proof.
  intros Hfind Hcreator.
  destruct (find_note_Some _ _ _ Hfind) as [Hin _].
  unfold right_column.
  destruct (selected_note (session w) (notes_file w)) as [note|] eqn:Hsel;
    [|apply kept_for_same; exact Hin].
  assert (find_note (selected_note_id (session w)) (notes_file w) = Some note) as Hnote.
  { unfold selected_note in Hsel. destruct (write_mode_selected _); [exact Hsel | discriminate]. }
  destruct (view_gate_of km (session w) note); try (apply kept_for_same; exact Hin).
  destruct ev; try (apply kept_for_same; exact Hin).
  - (* an entry is submitted *)
    unfold entry_form. repeat case_match; try (apply kept_for_same; exact Hin).
    simpl. split; [apply append_entry_survives; exact Hin | split; discriminate].
  - (* the deletion is asked for *)
    unfold delete_block. case_bool_decide as Hc; [|apply kept_for_same; exact Hin].
    assert (id_is (note_id n) (selected_note_id (session w)) = false) as Hother.
    { destruct (id_is (note_id n) (selected_note_id (session w))) eqn:Hid; [|reflexivity].
      apply id_is_true in Hid. rewrite Hid, Hfind in Hnote.
      injection Hnote as <-. contradiction. }
    simpl. assert (In n (List.filter
                            (fun m => negb (id_is (note_id m) (selected_note_id (session w))))
                            (notes_file w))) as Hkept
      by (apply filter_In; split; [exact Hin | rewrite Hother; reflexivity]).
    split; [apply survives_In; exact Hkept | split; [auto|]].
    intros _ Hs. rewrite Hs in Hother.
    assert (id_is (note_id n) (Some (JStr (note_id n))) = true) by (apply id_is_true; reflexivity).
    congruence.
Qed.

Lemma before_ok_and_then (ev : Event) (notes : list Note) (selected : option json)
    (f : Flow) (k : World -> Flow) :
  before_ok ev notes selected f ->
  (forall w1, notes_file w1 = notes -> selected_note_id (session w1) = selected ->
              before_ok ev notes selected (k w1)) ->
  before_ok ev notes selected (f >>> k).
Proof.
  intros Hf Hk. destruct f as [w1|w1]; simpl in *; [|exact Hf].
  destruct Hf as [Hn Hs]. apply Hk; assumption.
Qed.

Ltac before_ok_cases :=
  repeat case_match; simpl; auto; try (left; reflexivity).

Lemma before_ok_seeding (inp : Inputs) (w : World) :
  before_ok (in_event inp) (notes_file w) (selected_note_id (session w)) (seeding inp w).
Proof.
  unfold seeding. repeat case_match; simpl; auto.
Qed.

Lemma before_ok_initial_centering (ev : Event) (w : World) :
  before_ok ev (notes_file w) (selected_note_id (session w)) (initial_centering w).
Proof. unfold initial_centering. before_ok_cases. Qed.

Lemma before_ok_place_mode_panel (ev : Event) (u : User) (w : World) :
  before_ok ev (notes_file w) (selected_note_id (session w)) (place_mode_panel ev u w).
Proof.
  unfold place_mode_panel. before_ok_cases.
  right; right. eauto 8.
Qed.

Lemma before_ok_write_mode_panel (ev : Event) (choice : option pystr) (w : World) :
  before_ok ev (notes_file w) (selected_note_id (session w)) (write_mode_panel choice w).
Proof. unfold write_mode_panel, selection_change. before_ok_cases. Qed.

Lemma before_ok_search_panel (inp : Inputs) (w : World) :
  before_ok (in_event inp) (notes_file w) (selected_note_id (session w))
            (search_panel inp w).
Proof.
  unfold search_panel, chat_turn, handle_reply. before_ok_cases.
Qed.

Lemma before_ok_account_panel (ev : Event) (w : World) :
  before_ok ev (notes_file w) (selected_note_id (session w)) (account_panel ev w).
Proof. unfold account_panel. before_ok_cases. Qed.

Lemma before_ok_sidebar (inp : Inputs) (u : User) (w : World) :
  before_ok (in_event inp) (notes_file w) (selected_note_id (session w))
            (sidebar inp u w).
Proof.
  unfold sidebar. destruct (main_menu (session w)); [destruct (mode (session w))| |].
  - apply before_ok_place_mode_panel.
  - apply before_ok_write_mode_panel.
  - apply before_ok_search_panel.
  - apply before_ok_account_panel.
Qed.

Lemma before_ok_map_column (ev : Event) (w : World) :
  before_ok ev (notes_file w) (selected_note_id (session w)) (map_column ev w).
Proof. unfold map_column. before_ok_cases. Qed.

Lemma prelude_selected (ev : Event) (loc : option Geo) (s : Session) :
  selected_note_id (sample_location loc (process_switch_flag (widget_update ev s)))
  = selected_note_id s.
Proof.
  unfold sample_location, process_switch_flag, widget_update.
  repeat case_match; reflexivity.
Qed.

Lemma refresh_nearby_same km (w : World) :
  notes_file (refresh_nearby km w) = notes_file w
  /\ selected_note_id (session (refresh_nearby km w)) = selected_note_id (session w).
Proof. unfold refresh_nearby. repeat case_match; split; reflexivity. Qed.

(** The store at the end of a run, from what a part before the right
    column did and what the rest of the run does after it. [Q] is what is
    to hold of the store at the end. *)
Lemma notes_chain (Q : list Note -> Prop) (ev : Event) (notes : list Note)
    (selected : option json) (f : Flow) (k : World -> Flow) :
  notes <> [] -> Q notes ->
  (forall now note_title note_hashtags new_note,
      ev = SubmitNote now note_title note_hashtags -> Q (notes ++ [new_note])) ->
  before_ok ev notes selected f ->
  (forall w1, notes_file w1 = notes -> selected_note_id (session w1) = selected ->
              Q (notes_file (end_of_run (k w1)))) ->
  Q (notes_file (end_of_run (f >>> k))).
Proof.
  intros Hne Hsame Hnew Hf Hk. destruct f as [w'|w']; simpl in *.
  - destruct Hf as [Hn Hs]. apply Hk; assumption.
  - destruct Hf as [-> | [-> | (now & t & h & x & Hev & ->)]].
    + exact Hsame.
    + contradiction.
    + exact (Hnew _ _ _ _ Hev).
Qed.

Lemma main_app_notes (Q : list Note -> Prop) km (inp : Inputs) (u : User) (w : World) :
  notes_file w <> [] -> Q (notes_file w) ->
  (forall now note_title note_hashtags new_note,
      in_event inp = SubmitNote now note_title note_hashtags ->
      Q (notes_file w ++ [new_note])) ->
  (forall w4, notes_file w4 = notes_file w ->
              selected_note_id (session w4) = selected_note_id (session w) ->
              Q (notes_file (end_of_run (right_column km (in_event inp) u w4)))) ->
  Q (notes_file (end_of_run (main_app km inp u w))).
Proof.
  intros Hne Hsame Hnew Hright.
  unfold main_app.
  set (w0 := with_session _ w).
  assert (notes_file w0 = notes_file w) as Hn0 by reflexivity.
  assert (selected_note_id (session w0) = selected_note_id (session w)) as Hs0
    by apply prelude_selected.
  apply (notes_chain Q (in_event inp) (notes_file w) (selected_note_id (session w)));
    [exact Hne | exact Hsame | exact Hnew
    | rewrite <- Hn0, <- Hs0; apply before_ok_seeding |].
  intros w1 Hn1 Hs1.
  apply (notes_chain Q (in_event inp) (notes_file w) (selected_note_id (session w)));
    [exact Hne | exact Hsame | exact Hnew
    | rewrite <- Hn1, <- Hs1; apply before_ok_initial_centering |].
  intros w2 Hn2 Hs2.
  destruct (center (session w2)); [|simpl; rewrite Hn2; exact Hsame].
  destruct (refresh_nearby_same km w2) as [Hn2' Hs2'].
  rewrite Hn2 in Hn2'. rewrite Hs2 in Hs2'.
  apply (notes_chain Q (in_event inp) (notes_file w) (selected_note_id (session w)));
    [exact Hne | exact Hsame | exact Hnew
    | rewrite <- Hn2', <- Hs2'; apply before_ok_sidebar |].
  intros w3 Hn3 Hs3.
  apply (notes_chain Q (in_event inp) (notes_file w) (selected_note_id (session w)));
    [exact Hne | exact Hsame | exact Hnew
    | rewrite <- Hn3, <- Hs3; apply before_ok_map_column |].
  intros w4 Hn4 Hs4. apply Hright; assumption.
Qed.

Lemma main_app_keeps km (inp : Inputs) (u : User) (w : World) (n : Note) :
  find_note (Some (JStr (note_id n))) (notes_file w) = Some n ->
  creator_id n <> user_id u ->
  kept_for (in_event inp) (selected_note_id (session w)) n (notes_file w)
           (notes_file (end_of_run (main_app km inp u w))).
Proof.
  intros Hfind Hc.
  destruct (find_note_Some _ _ _ Hfind) as [Hin _].
  apply (main_app_notes
           (kept_for (in_event inp) (selected_note_id (session w)) n (notes_file w))).
  - intros Hnil. rewrite Hnil in Hin. destruct Hin.
  - apply kept_for_same. exact Hin.
  - intros now t h x Hev. rewrite Hev.
    split; [|split; discriminate]. apply survives_In, in_or_app. left. exact Hin.
  - intros w4 Hn4 Hs4. rewrite <- Hn4, <- Hs4.
    apply right_column_keeps; [rewrite Hn4; exact Hfind | exact Hc].
Qed.

(** X19. Let a note be the one its id resolves to (the
    first of the store with that id; every note, when ids are distinct),
    and let the user of the session be somebody other than its creator.
    Then a run in which that user asks for the deletion while the note is
    selected changes nothing in the store; and whatever that user does in a
    run, the note stays in the store with its pages (a deletion request
    leaves it exactly as it is, an entry submitted can only add a page).
    The refusal is the test on [creator_id] before the delete control: for
    anybody else there is no way to it. *)
Theorem delete_refused_for_non_creator km hash (inp : Inputs) (w : World)
    (u : User) (n : Note) :
  current_user (session w) = Some u ->
  find_note (Some (JStr (note_id n))) (notes_file w) = Some n ->
  creator_id n <> user_id u ->
  delete_block u n w = Continue w
  /\ (in_event inp = DeleteNote ->
      selected_note_id (session w) = Some (JStr (note_id n)) ->
      notes_file (run km hash inp w) = notes_file w)
  /\ (in_event inp = DeleteNote -> In n (notes_file (run km hash inp w)))
  /\ survives n (notes_file (run km hash inp w)).
Proof.
  intros Hu Hfind Hc.
  split.
  - unfold delete_block. case_bool_decide; [contradiction | reflexivity].
  - unfold run, script. rewrite Hu.
    destruct (main_app_keeps km inp u w n Hfind Hc) as [Hs [Hd Hsame]].
    auto.
Qed.

Lemma delete_refused_for_non_creator_witness :
  current_user bob_at_n1 = Some bob
  /\ find_note (Some (JStr (note_id n1))) [n1; n2] = Some n1
  /\ creator_id n1 <> user_id bob
  /\ view_gate example_km bob_at_n1 [n1; n2] = Viewable
  /\ notes_file (run example_km example_hash (just DeleteNote)
                     (world_of bob_at_n1 [n1; n2])) = [n1; n2].
Proof.
  assert (creator_id n1 <> user_id bob) as Hc by (vm_compute; discriminate).
  split; [reflexivity | split; [reflexivity | split; [exact Hc|]]].
  split; [vm_compute; reflexivity|].
  exact (proj1 (proj2 (delete_refused_for_non_creator example_km example_hash
                         (just DeleteNote) (world_of bob_at_n1 [n1; n2]) bob n1
                         eq_refl eq_refl Hc)) eq_refl eq_refl).
Defined.

(** C5, the failing input: a note that shares its id with an earlier one.
    Bob's note has the reading of the clock as its id; Alice's create with
    that id went through, so the store holds both. Bob, the creator of the
    first, deletes it, and Alice's note, of which he is not the creator,
    goes with it: line 566 tests the creator of the first note of the id,
    line 572 drops every note of the id. *)
Lemma shadowed_note_deleted_by_other :
  let store :=
    notes_file (run example_km example_hash
                    (just (SubmitNote clock_id (py "Second bench") (py "rest")))
                    (world_of alice_placing [n_clock])) in
  let w := world_of (bob_writing (Some near_n1) (Some (JStr clock_id)) None) store in
  note_id <$> store = [clock_id; clock_id]
  /\ creator_id <$> store = [py "bob"; py "alice"]
  /\ current_user (session w) = Some bob
  /\ notes_file (run example_km example_hash (just DeleteNote) w) = [].
Proof. vm_compute. repeat split. Qed.

(** ** Where the override can apply *)

Lemma selection_change_clears (selected_id : pystr) (w : World) :
  nonempty selected_id = true ->
  id_is selected_id (selected_note_id (session w)) = false ->
  exists w',
    selection_change selected_id w = Stop w'
    /\ selected_note_id (session w') = Some (JStr selected_id)
    /\ recommended_note_id (session w') = None
    /\ notes_file w' = notes_file w.
Proof.
  intros Hne Hdiff. unfold selection_change. rewrite Hne, Hdiff. simpl.
  eexists. split; [reflexivity|]. case_match; repeat split.
Qed.

Lemma write_mode_panel_clears (selected_id : pystr) (w : World) :
  In selected_id (note_id <$> notes_to_display w) ->
  nonempty selected_id = true ->
  id_is selected_id (selected_note_id (session w)) = false ->
  exists w',
    write_mode_panel (Some selected_id) w = Stop w'
    /\ selected_note_id (session w') = Some (JStr selected_id)
    /\ recommended_note_id (session w') = None
    /\ notes_file w' = notes_file w.
Proof.
  intros Hin Hne Hdiff. unfold write_mode_panel.
  destruct (notes_to_display w) as [|m rest] eqn:Hd; [destruct Hin|].
  unfold selectbox. rewrite bool_decide_eq_true_2 by (apply list_elem_of_In; exact Hin).
  apply selection_change_clears; assumption.
Qed.

Lemma delete_block_clears (u : User) (note : Note) (w : World) :
  creator_id note = user_id u ->
  exists w',
    delete_block u note w = Stop w'
    /\ selected_note_id (session w') = None
    /\ recommended_note_id (session w') = None.
Proof.
  intros Hc. unfold delete_block. rewrite bool_decide_eq_true_2 by exact Hc.
  eexists. repeat split.
Qed.

Lemma override_needs_recommendation km (s : Session) (notes : list Note) (note : Note) :
  recommendation_is_selection s ->
  selected_note s notes = Some note ->
  view_gate_of km s note = Viewable ->
  is_close_enough km s note = false ->
  recommended_note_id s = Some (JStr (note_id note))
  /\ selected_note_id s = Some (JStr (note_id note)).
Proof.
  intros Hinv Hsel Hview Hfar.
  apply view_gate_of_Viewable in Hview as [Hrec | Hclose]; [|congruence].
  apply id_is_true in Hrec.
  destruct Hinv as [Hnone | Heq]; [congruence|].
  split; [exact Hrec | rewrite <- Heq; exact Hrec].
Qed.

(** C10. (1) In write mode, when the selectbox hands back the id of a
    displayed note other than the selected one, the handler makes it the
    selection and clears the recommendation. (2) A deletion clears both.
    (3) So, from the initial session on, after any runs the recommendation
    is unset or is the selection. (4) One run clears the recommendation,
    leaves it, or sets it to the id just read out of the reply of the
    model. (5) Hence the selected note is shown without being within 10 km
    only while it is at once the recommendation and the selection. *)
Theorem recommendation_only_while_selected km hash :
  (forall selected_id w,
      In selected_id (note_id <$> notes_to_display w) ->
      nonempty selected_id = true ->
      id_is selected_id (selected_note_id (session w)) = false ->
      exists w',
        write_mode_panel (Some selected_id) w = Stop w'
        /\ selected_note_id (session w') = Some (JStr selected_id)
        /\ recommended_note_id (session w') = None
        /\ notes_file w' = notes_file w)
  /\ (forall u note w,
        creator_id note = user_id u ->
        exists w',
          delete_block u note w = Stop w'
          /\ selected_note_id (session w') = None
          /\ recommended_note_id (session w') = None)
  /\ (forall inps w,
        session w = initial_session ->
        recommendation_is_selection (session (runs km hash inps w)))
  /\ (forall inp w,
        recommendation_step (in_event inp)
          (recommended_note_id (session w))
          (recommended_note_id (session (run km hash inp w))))
  /\ (forall inps w note,
        session w = initial_session ->
        let w' := runs km hash inps w in
        selected_note (session w') (notes_file w') = Some note ->
        view_gate_of km (session w') note = Viewable ->
        is_close_enough km (session w') note = false ->
        recommended_note_id (session w') = Some (JStr (note_id note))
        /\ selected_note_id (session w') = Some (JStr (note_id note))).
Proof.
  assert (forall inps w, session w = initial_session ->
            recommendation_is_selection (session (runs km hash inps w))) as Hinv.
  { intros inps w Hw. apply runs_keep_invariant. rewrite Hw. left. reflexivity. }
  split; [exact write_mode_panel_clears|].
  split; [exact delete_block_clears|].
  split; [exact Hinv|].
  split; [intros inp w; apply (keeps_run km hash inp w)|].
  intros inps w note Hw w' Hsel Hview Hfar.
  exact (override_needs_recommendation km _ _ _ (Hinv inps w Hw) Hsel Hview Hfar).
Qed.

(** The course of C10 on an example: the model recommends n1 to Bob, who is
    143 km away; n1 is then shown to him; he picks n2, and with that the
    recommendation is gone and n1, selected again by hand, would be refused
    as too far. *)
Example override_lost_on_reselection :
  let w0 := world_of bob_far_chatting [n1; n2] in
  let w2 := runs example_km example_hash (take 2 advice_then_reselection) w0 in
  let w3 := runs example_km example_hash advice_then_reselection w0 in
  recommended_note_id (session w2) = id_n1
  /\ view_gate example_km (session w2) (notes_file w2) = Viewable
  /\ selected_note_id (session w3) = Some (JStr (py "n2"))
  /\ recommended_note_id (session w3) = None
  /\ view_gate example_km (set_selected_note_id id_n1 (session w3)) (notes_file w3)
     = ViewTooFar.
Proof. vm_compute. repeat split. Qed.

(** The creator's own deletion goes through, and clears the selection. *)
Example creator_deletes :
  let w := world_of (set_current_user (Some alice) bob_at_n1) [n1; n2] in
  let w' := run example_km example_hash (just DeleteNote) w in
  notes_file w' = [n2] /\ selected_note_id (session w') = None.
Proof. vm_compute. repeat split. Qed.

(** ** The page is drawn only with a position *)

Lemma has_position_same (s s' : Session) :
  user_location s' = user_location s -> has_position s -> has_position s'.
Proof. intros H [l [Hl Ht]]. exists l. rewrite H. auto. Qed.

Lemma has_position_located (s : Session) : has_position s -> located s.
Proof. intros [l [Hl Ht]]. unfold located. rewrite Hl. exact Ht. Qed.

Lemma located_centre (s : Session) :
  located s -> center s <> None -> has_position s.
Proof.
  unfold located. destruct (user_location s) as [l|] eqn:Hl.
  - intros Ht _. exists l. auto.
  - intros Hc Hn. contradiction.
Qed.

Lemma located_same (s s' : Session) :
  user_location s' = user_location s -> center s' = center s ->
  located s -> located s'.
Proof. unfold located. intros -> ->. auto. Qed.

Lemma located_initial : located initial_session.
Proof. reflexivity. Qed.

Lemma located_prelude (ev : Event) (loc : option Geo) (s : Session) :
  located s -> located (sample_location loc (process_switch_flag (widget_update ev s))).
Proof.
  intros H.
  assert (located (process_switch_flag (widget_update ev s))) as H1.
  { eapply located_same; [| |exact H];
      unfold process_switch_flag, widget_update; repeat case_match; reflexivity. }
  unfold sample_location. destruct loc as [l|]; [|exact H1].
  destruct (float_truthy (latitude l)) eqn:Ht; [|exact H1].
  unfold located. simpl. exact Ht.
Qed.

Lemma located_seeding (inp : Inputs) (w : World) :
  located (session w) -> located (session (end_of_run (seeding inp w))).
Proof.
  intros H. unfold seeding. repeat case_match; exact H.
Qed.

Lemma located_initial_centering (w : World) :
  located (session w) -> located (session (end_of_run (initial_centering w))).
Proof.
  intros H. unfold initial_centering.
  destruct (user_location (session w)) as [l|] eqn:Hl; [|exact H].
  destruct (initial_load (session w)); [|exact H].
  unfold located in *. simpl. rewrite Hl in *. exact H.
Qed.

(** A part of the page that leaves the position alone, or logs out. *)
Ltac position_cases H :=
  repeat case_match; simpl;
  first [ exact H
        | apply has_position_located; exact H
        | exact located_initial
        | eapply has_position_same; [|exact H]; reflexivity
        | apply has_position_located; eapply has_position_same; [|exact H]; reflexivity ].

Lemma position_ok_sidebar (inp : Inputs) (u : User) (w : World) :
  has_position (session w) -> position_ok (sidebar inp u w).
Proof.
  intros H.
  unfold sidebar, place_mode_panel, write_mode_panel, selection_change, search_panel,
    chat_turn, handle_reply, account_panel.
  position_cases H.
Qed.

Lemma position_ok_map_column (ev : Event) (w : World) :
  has_position (session w) -> position_ok (map_column ev w).
Proof. intros H. unfold map_column. position_cases H. Qed.

Lemma position_ok_right_column km (ev : Event) (u : User) (w : World) :
  has_position (session w) -> position_ok (right_column km ev u w).
Proof.
  intros H. unfold right_column, entry_form, delete_block. position_cases H.
Qed.

Lemma position_ok_and_then (f : Flow) (k : World -> Flow) :
  position_ok f ->
  (forall w1, has_position (session w1) -> position_ok (k w1)) ->
  position_ok (f >>> k).
Proof. intros Hf Hk. destruct f; simpl in *; auto. Qed.

Lemma position_ok_end (f : Flow) : position_ok f -> located (session (end_of_run f)).
Proof. destruct f; simpl; [apply has_position_located | auto]. Qed.

Lemma located_and_then (w : World) (f : Flow) (k : World -> Flow) :
  located (session (end_of_run f)) ->
  (forall w1, located (session w1) -> located (session (end_of_run (k w1)))) ->
  located (session (end_of_run (f >>> k))).
Proof. intros Hf Hk. destruct f; simpl in *; auto. Qed.

Lemma located_run km hash (inp : Inputs) (w : World) :
  located (session w) -> located (session (run km hash inp w)).
Proof.
  intros H. unfold run, script. destruct (current_user (session w)) as [u|].
  - unfold main_app. set (w0 := with_session _ w).
    assert (located (session w0)) as H0 by (apply located_prelude; exact H).
    apply (located_and_then w0); [apply located_seeding; exact H0|]. intros w1 H1.
    apply (located_and_then w1); [apply located_initial_centering; exact H1|].
    intros w2 H2.
    destruct (center (session w2)) as [c|] eqn:Hc; [|exact H2].
    assert (has_position (session w2)) as Hp by (apply located_centre; [exact H2 | congruence]).
    apply position_ok_end.
    apply position_ok_and_then.
    { apply position_ok_sidebar. unfold refresh_nearby.
      repeat case_match; exact Hp. }
    intros w3 H3. apply position_ok_and_then; [apply position_ok_map_column; exact H3|].
    intros w4 H4. apply position_ok_right_column. exact H4.
  - unfold auth_page. repeat case_match; exact H.
Qed.

(** X1. From the initial session on, whatever the runs, a session whose
    page is drawn (the map has a centre) holds a position with a latitude
    that counts as true; there the gate never answers with one of its two
    messages about a missing position. *)
Theorem position_known_when_page_drawn km hash (inps : list Inputs) (w : World)
    (note : Note) :
  session w = initial_session ->
  located (session (runs km hash inps w))
  /\ (center (session (runs km hash inps w)) <> None ->
      has_position (session (runs km hash inps w))
      /\ (view_gate_of km (session (runs km hash inps w)) note = ViewNoLocation -> False)
      /\ (post_gate km (session (runs km hash inps w)) note = PostNoLocation -> False)).
Proof.
  intros Hw.
  assert (located (session (runs km hash inps w))) as Hl.
  { assert (located (session w)) as H0 by (rewrite Hw; exact located_initial).
    clear Hw. revert w H0. induction inps as [|inp inps IH]; intros w H0; simpl.
    - exact H0.
    - apply IH. apply located_run. exact H0. }
  split; [exact Hl|]. intros Hc.
  destruct (located_centre _ Hl Hc) as [l [Hloc Ht]].
  split; [exists l; auto|].
  unfold view_gate_of, post_gate. rewrite Hloc, Ht.
  split; repeat case_match; discriminate.
Qed.

Lemma position_known_when_page_drawn_witness :
  session (world_of initial_session [n1; n2]) = initial_session
  /\ center (session (runs example_km example_hash login_and_position
                        (world_of initial_session [n1; n2])))
     = Some (35.001%float, 139.001%float)
  /\ has_position (session (runs example_km example_hash login_and_position
                              (world_of initial_session [n1; n2]))).
Proof.
  assert (center (session (runs example_km example_hash login_and_position
                                (world_of initial_session [n1; n2])))
          = Some (35.001%float, 139.001%float)) as Hc by (vm_compute; reflexivity).
  split; [reflexivity|]. split; [exact Hc|].
  refine (proj1 (proj2 (position_known_when_page_drawn example_km example_hash
                          login_and_position (world_of initial_session [n1; n2]) n1
                          eq_refl) _)).
  rewrite Hc. discriminate.
Defined.

(** ** Pages are only added *)

Lemma survives_trans (n : Note) (mid after : list Note) :
  survives n mid -> (forall m, In m mid -> survives m after) -> survives n after.
Proof.
  intros (n' & Hin & Hid & Hcr & Hti & added & Hen) Hstep.
  destruct (Hstep n' Hin) as (n'' & Hin' & Hid' & Hcr' & Hti' & added' & Hen').
  exists n''. repeat split; try congruence.
  exists (added ++ added'). rewrite Hen', Hen, app_assoc. reflexivity.
Qed.

Lemma right_column_appends km (ev : Event) (u : User) (w : World) (n : Note) :
  ev <> DeleteNote -> In n (notes_file w) ->
  survives n (notes_file (end_of_run (right_column km ev u w))).
Proof.
  intros Hev Hin. unfold right_column, entry_form.
  repeat case_match; simpl; try (apply survives_In; exact Hin); try contradiction.
  apply append_entry_survives. exact Hin.
Qed.

Lemma run_appends km hash (inp : Inputs) (w : World) (n : Note) :
  in_event inp <> DeleteNote -> In n (notes_file w) ->
  survives n (notes_file (run km hash inp w)).
Proof.
  intros Hev Hin. unfold run, script. destruct (current_user (session w)) as [u|].
  - apply (main_app_notes (survives n)).
    + intros Hnil. rewrite Hnil in Hin. destruct Hin.
    + apply survives_In. exact Hin.
    + intros now t h x _. apply survives_In, in_or_app. left. exact Hin.
    + intros w4 Hn4 _. apply right_column_appends; [exact Hev | rewrite Hn4; exact Hin].
  - unfold auth_page. repeat case_match; simpl; apply survives_In; exact Hin.
Qed.

(** X2. Along runs in which no deletion is asked for, a note of the store
    stays in it, with its id, its creator, its title and the pages it had,
    in their order; pages can only have been added after them. *)
Theorem entries_only_grow km hash (inps : list Inputs) (w : World) (n : Note) :
  Forall (fun inp => in_event inp <> DeleteNote) inps ->
  In n (notes_file w) ->
  survives n (notes_file (runs km hash inps w)).
Proof.
  intros Hall. revert w n. induction Hall as [|inp inps Hev Hall IH]; intros w n Hin; simpl.
  - apply survives_In. exact Hin.
  - apply (survives_trans n (notes_file (run km hash inp w))).
    + apply run_appends; assumption.
    + intros m Hm. apply IH. exact Hm.
Qed.

Lemma entries_only_grow_witness :
  Forall (fun inp => in_event inp <> DeleteNote)
         [just (SubmitEntry 1700000200%float (py "Windy today") None (py "wind"))]
  /\ In n1 (notes_file (world_of bob_at_n1 [n1; n2]))
  /\ (entries <$> notes_file
        (runs example_km example_hash
           [just (SubmitEntry 1700000200%float (py "Windy today") None (py "wind"))]
           (world_of bob_at_n1 [n1; n2])))
     = [ [first_page;
          {| author_name := py "Bob"; timestamp := 1700000200%float;
             body := TextEntry (py "Windy today"); entry_hashtags := [py "#wind"] |}];
         [] ]
  /\ survives n1 (notes_file
        (runs example_km example_hash
           [just (SubmitEntry 1700000200%float (py "Windy today") None (py "wind"))]
           (world_of bob_at_n1 [n1; n2]))).
Proof.
  assert (Forall (fun inp => in_event inp <> DeleteNote)
            [just (SubmitEntry 1700000200%float (py "Windy today") None (py "wind"))])
    as Hall by (repeat constructor; discriminate).
  assert (In n1 (notes_file (world_of bob_at_n1 [n1; n2]))) as Hin by (left; reflexivity).
  split; [exact Hall | split; [exact Hin | split; [vm_compute; reflexivity|]]].
  exact (entries_only_grow example_km example_hash _ _ n1 Hall Hin).
Defined.

(** ** Hashtags are normalised once *)

Lemma lstrip_chr_idem (ch : N) (s : pystr) :
  lstrip_chr ch (lstrip_chr ch s) = lstrip_chr ch s.
Proof.
  induction s as [|c t IH]; simpl; [reflexivity|].
  destruct (N.eqb_spec c ch) as [->|Hne]; [exact IH|].
  simpl. destruct (N.eqb_spec c ch); [contradiction | reflexivity].
Qed.

(** X3. Normalising a tag that is already normalised changes nothing. *)
Theorem normalize_tag_idempotent (tag : pystr) :
  normalize_tag (normalize_tag tag) = normalize_tag tag.
Proof.
  unfold normalize_tag. simpl. rewrite lstrip_chr_idem. reflexivity.
Qed.

(** ** Splitting on whitespace *)

Lemma split_from_tokens (cur s tok : pystr) :
  no_space cur -> In tok (split_from cur s) -> tok <> [] /\ no_space tok.
Proof.
  revert cur. induction s as [|c t IH]; intros cur Hcur; simpl.
  - destruct cur as [|x cur']; [intros []|]. intros [<- | []]. split.
    + intros H. apply (f_equal length) in H. rewrite length_reverse in H. discriminate.
    + apply Forall_reverse. exact Hcur.
  - destruct (isspace c) eqn:Hc.
    + destruct cur as [|x cur'].
      * apply IH. constructor.
      * intros [<- | Hin].
        -- split.
           ++ intros H. apply (f_equal length) in H. rewrite length_reverse in H.
              discriminate.
           ++ apply Forall_reverse. exact Hcur.
        -- apply (IH []); [constructor | exact Hin].
    + apply IH. constructor; assumption.
Qed.

Lemma split_from_nil (cur s : pystr) :
  split_from cur s = [] <-> cur = [] /\ all_space s.
Proof.
  revert cur. induction s as [|c t IH]; intros cur; simpl.
  - destruct cur; split; try discriminate; try (intros [[=] _]); auto.
    intros _. split; [reflexivity | constructor].
  - destruct (isspace c) eqn:Hc.
    + destruct cur as [|x cur'].
      * rewrite IH. split; intros [H1 H2]; split; auto.
        -- constructor; assumption.
        -- inversion H2; assumption.
      * split; [discriminate | intros [[=] _]].
    + rewrite IH. split; [intros [[=] _]|].
      intros [_ H]. inversion H; congruence.
Qed.

(** [str.split()]: every token is non-empty and free of whitespace, so
    the test [if tag] of [parse_hashtags] drops nothing; and there is no
    token exactly when the text is blank (empty, or whitespace only). *)
Lemma split_tokens (s : pystr) :
  (forall tok, In tok (split s) -> tok <> [] /\ no_space tok)
  /\ List.filter nonempty (split s) = split s
  /\ (split s = [] <-> all_space s).
Proof.
  assert (forall tok, In tok (split s) -> tok <> [] /\ no_space tok) as Htok
    by (intros tok; apply split_from_tokens; constructor).
  split; [exact Htok | split].
  - induction (split s) as [|tok l IH]; [reflexivity|]. simpl.
    destruct tok as [|c tok'].
    + destruct (Htok [] (or_introl eq_refl)) as [H _]. contradiction.
    + simpl. f_equal. apply IH. intros t Ht. apply Htok. right. exact Ht.
  - unfold split. rewrite split_from_nil. split; [intros [_ H]; exact H | auto].
Qed.

(** ** The stored form of hashtags *)

Lemma pystr_le_total (a b : pystr) : pystr_le a b \/ pystr_le b a.
Proof.
  unfold pystr_le. revert b. induction a as [|x a IH]; intros b.
  - left. reflexivity.
  - destruct b as [|y b]; [right; reflexivity|]. simpl.
    destruct (N.ltb_spec x y), (N.ltb_spec y x); auto; try lia.
Qed.

Lemma pystr_le_trans (a b c : pystr) : pystr_le a b -> pystr_le b c -> pystr_le a c.
Proof.
  unfold pystr_le. revert b c. induction a as [|x a IH]; intros b c; [reflexivity|].
  destruct b as [|y b]; [discriminate|]. destruct c as [|z c]; simpl.
  - intros _ H. discriminate.
  - destruct (N.ltb_spec x y), (N.ltb_spec y x), (N.ltb_spec y z), (N.ltb_spec z y),
      (N.ltb_spec x z), (N.ltb_spec z x); try discriminate; try lia; auto.
    apply IH.
Qed.

#[global] Instance pystr_le_Total : Total pystr_le.
Proof. exact pystr_le_total. Qed.

#[global] Instance pystr_le_Transitive : Transitive pystr_le.
Proof. exact pystr_le_trans. Qed.

Lemma normalize_tag_normal (tok : pystr) : normal_tag (normalize_tag tok).
Proof.
  exists (lstrip_chr HASH tok). split; [reflexivity | apply lstrip_chr_idem].
Qed.

Lemma parse_hashtags_elem (tag_string tag : pystr) :
  In tag (parse_hashtags tag_string) <->
  exists tok, In tok (split tag_string) /\ tag = normalize_tag tok.
Proof.
  unfold parse_hashtags. destruct tag_string as [|c t] eqn:Hs.
  - simpl. split; [intros [] | intros [tok [[] _]]].
  - rewrite <- Hs. rewrite (proj1 (proj2 (split_tokens tag_string))).
    rewrite <- list_elem_of_In, merge_sort_Permutation, elem_of_elements,
      elem_of_list_to_set, list_elem_of_fmap.
    split; intros [tok [H1 H2]]; exists tok.
    + split; [apply list_elem_of_In; exact H2 | exact H1].
    + split; [exact H2 | apply list_elem_of_In; exact H1].
Qed.

(** X4. [parse_hashtags]: the result holds exactly the normalised tokens of
    the input; it has no duplicate and is in ascending order of code
    points; each tag is one hash sign followed by a text that begins with
    none, and holds no whitespace. A blank input gives no tag. *)
Theorem parse_hashtags_spec (tag_string : pystr) :
  (forall tag, In tag (parse_hashtags tag_string) <->
               exists tok, In tok (split tag_string) /\ tag = normalize_tag tok)
  /\ NoDup (parse_hashtags tag_string)
  /\ StronglySorted pystr_le (parse_hashtags tag_string)
  /\ (forall tag, In tag (parse_hashtags tag_string) -> normal_tag tag /\ no_space tag)
  /\ (all_space tag_string -> parse_hashtags tag_string = []).
Proof.
  split; [intros tag; apply parse_hashtags_elem|].
  split; [|split; [|split]].
  - unfold parse_hashtags. destruct tag_string; [constructor|].
    rewrite merge_sort_Permutation. apply NoDup_elements.
  - unfold parse_hashtags. destruct tag_string; [constructor|].
    apply StronglySorted_merge_sort; apply _.
  - intros tag Hin. apply parse_hashtags_elem in Hin as [tok [Htok ->]].
    split; [apply normalize_tag_normal|].
    destruct (proj1 (split_tokens tag_string) tok Htok) as [_ Hns].
    unfold normalize_tag. constructor; [reflexivity|].
    clear Htok. induction Hns as [|x l Hx Hl IH]; simpl; [constructor|].
    destruct (x =? HASH); [exact IH | constructor; assumption].
  - intros Hb. apply (proj2 (proj2 (split_tokens tag_string))) in Hb.
    destruct (parse_hashtags tag_string) as [|tag l] eqn:Hp; [reflexivity|].
    assert (In tag (parse_hashtags tag_string)) as Hin by (rewrite Hp; left; reflexivity).
    apply parse_hashtags_elem in Hin as [tok [Htok _]]. rewrite Hb in Htok. destruct Htok.
Qed.

(** ** Tags given at creation are found by the search *)

Lemma queries_of_stored_tags (tags : pystr) (q : pystr) :
  In q (hashtag_queries tags) -> In q (parse_hashtags tags).
Proof.
  unfold hashtag_queries. rewrite <- list_elem_of_In, list_elem_of_fmap.
  intros [tok [-> Htok]]. apply parse_hashtags_elem.
  exists tok. split; [apply list_elem_of_In; exact Htok | reflexivity].
Qed.

Lemma tag_match_AND_stored (tags : pystr) (note : Note) :
  (forall q, In q (parse_hashtags tags) ->
             In q (hashtags note) \/
             exists e, In e (entries note) /\ In q (entry_hashtags e)) ->
  tag_match AND (hashtag_queries tags) note = true.
Proof.
  intros H. unfold tag_match. apply forallb_forall. intros q Hq.
  apply tag_present, H, queries_of_stored_tags, Hq.
Qed.

Lemma append_entry_found (wanted : option json) (e : Entry) (notes : list Note)
    (note : Note) :
  find_note wanted notes = Some note ->
  exists note',
    In note' (append_entry wanted e notes)
    /\ note_id note' = note_id note
    /\ hashtags note' = hashtags note
    /\ entries note' = entries note ++ [e].
Proof.
  unfold find_note. induction notes as [|m rest IH]; simpl; [discriminate|].
  destruct (id_is (note_id m) wanted).
  - intros [= ->]. eexists. split; [left; reflexivity|]. repeat split.
  - intros H. destruct (IH H) as [note' [Hin Hrest]].
    exists note'. split; [right; exact Hin | exact Hrest].
Qed.

(** X5. A note is found by the very tags it was given. A note placed with
    the hashtag text [tags] is among the results of the AND search for
    [tags] made afterwards; and once a page with the hashtag text [tags] is
    added to a note, the AND search for [tags] matches that note. *)
Theorem tags_given_are_found (u : User) (w : World) (inp : Inputs)
    (now note_title tags : pystr) (clicked : float * float) :
  clicked_location (session w) = Some clicked ->
  nonempty note_title = true ->
  nonempty tags = true ->
  in_event inp = HashtagSearch tags AND ->
  (exists new_note results,
      notes_file (end_of_run (place_mode_panel (SubmitNote now note_title tags) u w))
        = notes_file w ++ [new_note]
      /\ search_results
           (session (end_of_run
              (search_panel inp
                 (end_of_run (place_mode_panel (SubmitNote now note_title tags) u w)))))
         = Some results
      /\ In new_note results)
  /\ (forall wanted e note,
        find_note wanted (notes_file w) = Some note ->
        entry_hashtags e = parse_hashtags tags ->
        exists note',
          In note' (found_notes AND (hashtag_queries tags)
                                (append_entry wanted e (notes_file w)))
          /\ note_id note' = note_id note
          /\ entries note' = entries note ++ [e]).
Proof.
  intros Hc Ht Htags Hev. split.
  - unfold place_mode_panel. rewrite Hc. destruct clicked as [clat clng]. rewrite Ht.
    unfold search_panel. rewrite Hev, Htags. simpl.
    eexists. eexists. split; [reflexivity|]. split; [reflexivity|].
    unfold found_notes. apply filter_In. split; [apply in_or_app; right; left; reflexivity|].
    apply tag_match_AND_stored. intros q Hq. left. exact Hq.
  - intros wanted e note Hfind He.
    destruct (append_entry_found wanted e _ _ Hfind) as [note' [Hin [Hid [_ Hen]]]].
    exists note'. split; [|split; assumption].
    unfold found_notes. apply filter_In. split; [exact Hin|].
    apply tag_match_AND_stored. intros q Hq. right.
    exists e. split; [rewrite Hen; apply in_or_app; right; left; reflexivity|].
    rewrite He. exact Hq.
Qed.

Lemma tags_given_are_found_witness :
  clicked_location alice_placing = Some (35.001%float, 139.001%float)
  /\ nonempty (py "Bench") = true
  /\ nonempty (py "rest #shade") = true
  /\ exists new_note results,
       notes_file (end_of_run
          (place_mode_panel (SubmitNote clock_id (py "Bench") (py "rest #shade"))
                            alice (world_of alice_placing [n1])))
         = [n1] ++ [new_note]
       /\ search_results
            (session (end_of_run
               (search_panel (just (HashtagSearch (py "rest #shade") AND))
                  (end_of_run
                     (place_mode_panel (SubmitNote clock_id (py "Bench") (py "rest #shade"))
                                       alice (world_of alice_placing [n1]))))))
          = Some results
       /\ In new_note results.
Proof.
  split; [reflexivity | split; [reflexivity | split; [reflexivity|]]].
  exact (proj1 (tags_given_are_found alice (world_of alice_placing [n1])
                  (just (HashtagSearch (py "rest #shade") AND))
                  clock_id (py "Bench") (py "rest #shade") _
                  eq_refl eq_refl eq_refl eq_refl)).
Defined.

(** ** How searches combine *)

Lemma filter_filter_andb {A : Type} (p q : A -> bool) (l : list A) :
  List.filter (fun x => p x && q x) l = List.filter q (List.filter p l).
Proof.
  induction l as [|x l IH]; simpl; [reflexivity|].
  destruct (p x); simpl; [destruct (q x); rewrite IH; reflexivity | exact IH].
Qed.

Lemma filter_sublist_self {A : Type} (p : A -> bool) (l : list A) :
  sublist (List.filter p l) l.
Proof.
  induction l as [|x l IH]; simpl; [constructor|].
  destruct (p x); constructor; exact IH.
Qed.

Lemma tag_match_same_tags (search_mode : SearchMode) (q q' : list pystr) (note : Note) :
  (forall x, In x q <-> In x q') -> tag_match search_mode q note = tag_match search_mode q' note.
Proof.
  intros H. unfold tag_match. apply eq_true_iff_eq. destruct search_mode.
  - rewrite !forallb_forall. split; intros Ha x Hx; apply Ha, H, Hx.
  - rewrite !existsb_exists. split; intros [x [Hx Hp]]; exists x; (split; [apply H, Hx | exact Hp]).
Qed.

(** X6. The results of a search keep the order of the store. Searching AND
    for more tags is searching within the results for fewer; searching OR
    for more tags adds the results up; for one tag the two modes agree; and
    neither the order of the tags in the query nor a tag repeated in it
    changes the results. *)
Theorem search_combines (search_mode : SearchMode) (q1 q2 : list pystr)
    (all_notes : list Note) :
  sublist (found_notes search_mode q1 all_notes) all_notes
  /\ found_notes AND (q1 ++ q2) all_notes
     = found_notes AND q2 (found_notes AND q1 all_notes)
  /\ (forall note, In note (found_notes OR (q1 ++ q2) all_notes) <->
        In note (found_notes OR q1 all_notes) \/ In note (found_notes OR q2 all_notes))
  /\ (forall q, found_notes AND [q] all_notes = found_notes OR [q] all_notes)
  /\ ((forall x, In x q1 <-> In x q2) ->
      found_notes search_mode q1 all_notes = found_notes search_mode q2 all_notes).
Proof.
  split; [apply filter_sublist_self|]. split; [|split; [|split]].
  - unfold found_notes. rewrite <- filter_filter_andb. apply filter_ext.
    intros note. unfold tag_match. apply forallb_app.
  - intros note. unfold found_notes. rewrite !filter_In. unfold tag_match.
    rewrite existsb_app, orb_true_iff. tauto.
  - intros q. unfold found_notes. apply filter_ext. intros note. simpl.
    rewrite andb_true_r, orb_false_r. reflexivity.
  - intros H. unfold found_notes. apply filter_ext. intros note.
    apply tag_match_same_tags, H.
Qed.

(** ** Every way the store changes *)

Lemma carried_refl (w : World) : carried w w.
Proof. repeat split. Qed.

Lemma carried_trans (w0 w1 w2 : World) : carried w0 w1 -> carried w1 w2 -> carried w0 w2.
Proof.
  intros (H1 & H2 & H3 & H4 & H5) (K1 & K2 & K3 & K4 & K5).
  repeat split; congruence.
Qed.

Lemma early_stop_carried (inp : Inputs) (u : User) (w0 w1 w' : World) :
  carried w0 w1 -> early_stop inp u w1 w' -> early_stop inp u w0 w'.
Proof.
  intros (H1 & _ & _ & _ & H5). unfold early_stop. rewrite H1, H5. auto.
Qed.

Lemma part_ok_carried (inp : Inputs) (u : User) (w0 w1 : World) (f : Flow) :
  carried w0 w1 -> part_ok inp u w1 f -> part_ok inp u w0 f.
Proof.
  intros Hc. destruct f as [w'|w']; simpl.
  - apply carried_trans. exact Hc.
  - apply early_stop_carried. exact Hc.
Qed.

Ltac part_ok_cases :=
  repeat case_match; simpl;
  first [ apply carried_refl
        | left; reflexivity
        | repeat split; reflexivity ].

Lemma part_ok_seeding (inp : Inputs) (u : User) (w : World) :
  part_ok inp u w (seeding inp w).
Proof.
  unfold seeding. repeat case_match; simpl; try apply carried_refl.
  right; left. split; [assumption|]. simpl. congruence.
Qed.

Lemma part_ok_initial_centering (inp : Inputs) (u : User) (w : World) :
  part_ok inp u w (initial_centering w).
Proof. unfold initial_centering. part_ok_cases. Qed.

Lemma part_ok_place_mode_panel (inp : Inputs) (u : User) (w : World) :
  part_ok inp u w (place_mode_panel (in_event inp) u w).
Proof.
  unfold place_mode_panel.
  destruct (clicked_location (session w)) as [[clat clng]|] eqn:Hc; [|apply carried_refl].
  destruct (in_event inp) eqn:Hev; try apply carried_refl; [|left; reflexivity].
  destruct (nonempty note_title) eqn:Ht; [|apply carried_refl].
  right; right. exists now, note_title, note_hashtags, (clat, clng). auto.
Qed.

Lemma part_ok_write_mode_panel (inp : Inputs) (u : User) (w : World) :
  part_ok inp u w (write_mode_panel (in_selectbox inp) w).
Proof. unfold write_mode_panel, selection_change. part_ok_cases. Qed.

Lemma part_ok_search_panel (inp : Inputs) (u : User) (w : World) :
  part_ok inp u w (search_panel inp w).
Proof. unfold search_panel, chat_turn, handle_reply. part_ok_cases. Qed.

Lemma part_ok_account_panel (inp : Inputs) (u : User) (w : World) :
  part_ok inp u w (account_panel (in_event inp) w).
Proof. unfold account_panel. part_ok_cases. Qed.

Lemma part_ok_sidebar (inp : Inputs) (u : User) (w : World) :
  part_ok inp u w (sidebar inp u w).
Proof.
  unfold sidebar. destruct (main_menu (session w)); [destruct (mode (session w))| |].
  - apply part_ok_place_mode_panel.
  - apply part_ok_write_mode_panel.
  - apply part_ok_search_panel.
  - apply part_ok_account_panel.
Qed.

Lemma part_ok_map_column (inp : Inputs) (u : User) (w : World) :
  part_ok inp u w (map_column (in_event inp) w).
Proof.
  unfold map_column. repeat case_match; simpl;
    first [apply carried_refl | left; reflexivity | repeat split; reflexivity].
Qed.

Lemma view_gate_of_carried km (w0 w' : World) (note : Note) :
  carried w0 w' ->
  view_gate_of km (session w') note = view_gate_of km (session w0) note.
Proof.
  intros (_ & Hl & _ & Hr & _).
  unfold view_gate_of, is_recommended, is_close_enough. rewrite Hl, Hr. reflexivity.
Qed.

Lemma post_gate_carried km (w0 w' : World) (note : Note) :
  carried w0 w' -> post_gate km (session w') note = post_gate km (session w0) note.
Proof. intros (_ & Hl & _). unfold post_gate. rewrite Hl. reflexivity. Qed.

Lemma store_change_same km (inp : Inputs) (u : User) (w0 : World) :
  store_change km inp u w0 (notes_file w0).
Proof. left. left. reflexivity. Qed.

Lemma right_column_change km (inp : Inputs) (u : User) (w0 w4 : World) :
  carried w0 w4 ->
  store_change km inp u w0 (notes_file (end_of_run (right_column km (in_event inp) u w4))).
Proof.
  intros Hc. pose proof Hc as (Hn & Hl & Hs & Hr & _).
  assert (store_change km inp u w0 (notes_file w4)) as Hsame
    by (rewrite Hn; apply store_change_same).
  unfold right_column.
  destruct (selected_note (session w4) (notes_file w4)) as [note|] eqn:Hsel; [|exact Hsame].
  assert (find_note (selected_note_id (session w0)) (notes_file w0) = Some note) as Hfind.
  { unfold selected_note in Hsel. destruct (write_mode_selected _); [|discriminate].
    rewrite <- Hn, <- Hs. exact Hsel. }
  destruct (view_gate_of km (session w4) note) eqn:Hview; try exact Hsame.
  rewrite (view_gate_of_carried km w0 w4 note Hc) in Hview.
  destruct (in_event inp) eqn:Hev; try exact Hsame.
  - unfold entry_form.
    destruct (post_gate km (session w4) note) eqn:Hpost; try exact Hsame.
    rewrite (post_gate_carried km w0 w4 note Hc) in Hpost.
    destruct (new_entry_body text_input uploaded_file) as [b|] eqn:Hb; [|exact Hsame].
    right; left. exists note, post_time, text_input, uploaded_file, entry_hashtags_input, b.
    simpl. rewrite Hs, Hn. auto 10.
  - unfold delete_block. case_bool_decide as Hcr; [|exact Hsame].
    right; right. exists note. simpl. rewrite Hs, Hn. auto 10.
Qed.

Lemma flow_chain (P Q : World -> Prop) (f : Flow) (k : World -> Flow) :
  match f with Continue w1 => P w1 | Stop w1 => Q w1 end ->
  (forall w1, P w1 -> Q (end_of_run (k w1))) ->
  Q (end_of_run (f >>> k)).
Proof. intros Hf Hk. destruct f; simpl; auto. Qed.

Lemma early_stop_change km (inp : Inputs) (u : User) (w0 w' : World) :
  early_stop inp u w0 w' -> store_change km inp u w0 (notes_file w').
Proof. intros H. left. exact H. Qed.

(** The store after the main page has run, [w0] being the world the page
    starts from. *)
Lemma page_store_change km (inp : Inputs) (u : User) (w0 : World) :
  store_change km inp u w0
    (notes_file (end_of_run
       (seeding inp w0 >>> fun w1 =>
        initial_centering w1 >>> fun w2 =>
        match center (session w2) with
        | None => Continue w2
        | Some _ =>
            sidebar inp u (refresh_nearby km w2) >>> fun w3 =>
            map_column (in_event inp) w3 >>> fun w4 =>
            right_column km (in_event inp) u w4
        end))).
Proof.
  set (Q := fun w' => store_change km inp u w0 (notes_file w')).
  apply (flow_chain (carried w0) Q).
  { pose proof (part_ok_seeding inp u w0) as H. destruct (seeding inp w0); simpl in H.
    - exact H.
    - apply early_stop_change. exact H. }
  intros w1 H1. apply (flow_chain (carried w0) Q).
  { pose proof (part_ok_carried inp u w0 w1 _ H1 (part_ok_initial_centering inp u w1)) as H.
    destruct (initial_centering w1); simpl in H; [exact H | apply early_stop_change; exact H]. }
  intros w2 H2.
  destruct (center (session w2)).
  2:{ simpl. unfold Q. destruct H2 as [-> _]. apply store_change_same. }
  assert (carried w0 (refresh_nearby km w2)) as H2'.
  { eapply carried_trans; [exact H2|]. unfold refresh_nearby.
    repeat case_match; repeat split. }
  apply (flow_chain (carried w0) Q).
  { pose proof (part_ok_carried inp u w0 _ _ H2' (part_ok_sidebar inp u (refresh_nearby km w2))) as H.
    destruct (sidebar inp u (refresh_nearby km w2)); simpl in H;
      [exact H | apply early_stop_change; exact H]. }
  intros w3 H3. apply (flow_chain (carried w0) Q).
  { pose proof (part_ok_carried inp u w0 w3 _ H3 (part_ok_map_column inp u w3)) as H.
    destruct (map_column (in_event inp) w3); simpl in H;
      [exact H | apply early_stop_change; exact H]. }
  intros w4 H4. apply right_column_change. exact H4.
Qed.

Lemma store_change_carried km (inp : Inputs) (u : User) (w0 w0' : World)
    (after : list Note) :
  carried w0 w0' -> store_change km inp u w0' after -> store_change km inp u w0 after.
Proof.
  intros Hc. pose proof Hc as (Hn & Hl & Hs & Hr & Hk).
  unfold store_change.
  intros [H | [(note & t & x & f & h & b & H1 & H2 & H3 & H4 & H5 & H6)
              | (note & H1 & H2 & H3 & H4 & H5)]].
  - left. unfold early_stop in *. simpl in *. rewrite Hn, Hk in H. exact H.
  - right; left. exists note, t, x, f, h, b.
    rewrite (view_gate_of_carried km w0 w0' note Hc) in H3.
    rewrite (post_gate_carried km w0 w0' note Hc) in H4.
    rewrite Hs, Hn in *. auto 10.
  - right; right. exists note.
    rewrite (view_gate_of_carried km w0 w0' note Hc) in H3.
    rewrite Hs, Hn in *. auto 10.
Qed.

Lemma positioned_carried (inp : Inputs) (w : World) :
  carried (positioned inp w)
    (with_session
       (fun s => sample_location (in_location inp)
                   (process_switch_flag (widget_update (in_event inp) s))) w).
Proof.
  unfold carried, positioned, sample_location, process_switch_flag, widget_update.
  simpl. repeat case_match; repeat split.
Qed.

(** What a run of a logged-in user does to the store. *)
Lemma run_store_change km hash (inp : Inputs) (w : World) (u : User) :
  current_user (session w) = Some u ->
  store_change km inp u (positioned inp w) (notes_file (run km hash inp w)).
Proof.
  intros Hu. unfold run, script. rewrite Hu. unfold main_app.
  eapply store_change_carried; [apply positioned_carried|].
  apply page_store_change.
Qed.

(** X7. Every way a run changes the store. Logged out, a run leaves it as
    it is. Logged in, a run leaves it as it is, or seeds it when it was
    empty, or appends the note created at the clicked place (empty entries,
    the user as creator), or adds a page to the selected note, which is
    then shown and within 10 km of the sampled position, or drops the
    notes of the selected id, the selected note being shown and the
    user's own. *)
Theorem store_changes_classified km hash (inp : Inputs) (w : World) :
  match current_user (session w) with
  | None => notes_file (run km hash inp w) = notes_file w
  | Some u => store_change km inp u (positioned inp w) (notes_file (run km hash inp w))
  end.
Proof.
  destruct (current_user (session w)) as [u|] eqn:Hu.
  - apply run_store_change. exact Hu.
  - unfold run, script. rewrite Hu. unfold auth_page. repeat case_match; reflexivity.
Qed.

Lemma close_enough_positioned km (inp : Inputs) (w : World) (note : Note) :
  post_gate km (session (positioned inp w)) note = PostAllowed ->
  is_close_enough km (session (positioned inp w)) note = true.
Proof.
  intros H. apply post_gate_allowed in H as [l [Hl [_ Hd]]].
  apply is_close_enough_true. eauto.
Qed.

(** X8. Nothing is changed from afar. When the note the selection resolves
    to is more than 10 km from the position of the run (or there is no
    position), a page submitted in that run is not added, recommended note
    or not; and a deletion asked for in that run, by the creator too, does
    nothing unless the note is the recommended one. *)
Theorem far_user_changes_nothing km hash (inp : Inputs) (w : World) (u : User)
    (note : Note) :
  current_user (session w) = Some u ->
  find_note (selected_note_id (session w)) (notes_file w) = Some note ->
  is_close_enough km (session (positioned inp w)) note = false ->
  (forall post_time text_input uploaded_file entry_hashtags_input,
      in_event inp = SubmitEntry post_time text_input uploaded_file entry_hashtags_input ->
      notes_file (run km hash inp w) = notes_file w)
  /\ (in_event inp = DeleteNote ->
      is_recommended (session w) note = false ->
      notes_file (run km hash inp w) = notes_file w).
Proof.
  intros Hu Hfind Hfar.
  assert (notes_file w <> []) as Hne.
  { intros Hnil. rewrite Hnil in Hfind. discriminate. }
  pose proof (run_store_change km hash inp w u Hu) as Hch.
  assert (selected_note_id (session (positioned inp w)) = selected_note_id (session w))
    as Hs by (unfold positioned, sample_location; simpl; repeat case_match; reflexivity).
  assert (recommended_note_id (session (positioned inp w)) = recommended_note_id (session w))
    as Hr by (unfold positioned, sample_location; simpl; repeat case_match; reflexivity).
  assert (notes_file (positioned inp w) = notes_file w) as Hn by reflexivity.
  split.
  - intros t x f h Hev.
    destruct Hch as [[H | [[H _] | (now & ti & ta & c & H & _)]]
                    | [(note' & t' & x' & f' & h' & b & _ & H2 & _ & H4 & _)
                      | (note' & H1 & _)]].
    + exact H.
    + rewrite Hn in H. contradiction.
    + congruence.
    + rewrite Hs, Hn, Hfind in H2. injection H2 as <-.
      apply close_enough_positioned in H4. congruence.
    + congruence.
  - intros Hev Hrec.
    destruct Hch as [[H | [[H _] | (now & ti & ta & c & H & _)]]
                    | [(note' & t' & x' & f' & h' & b & H1 & _)
                      | (note' & _ & H2 & H3 & _)]].
    + exact H.
    + rewrite Hn in H. contradiction.
    + congruence.
    + congruence.
    + rewrite Hs, Hn, Hfind in H2. injection H2 as <-.
      apply view_gate_of_Viewable in H3 as [H3 | H3]; [|congruence].
      unfold is_recommended in *. rewrite Hr in H3. congruence.
Qed.

Lemma far_user_changes_nothing_witness :
  current_user (bob_writing (Some far_from_n1) id_n1 id_n1) = Some bob
  /\ find_note id_n1 [n1; n2] = Some n1
  /\ is_close_enough example_km
       (session (positioned
                   (just (SubmitEntry 1700000200%float (py "Hello") None (py "calm")))
                   (world_of (bob_writing (Some far_from_n1) id_n1 id_n1) [n1; n2])))
       n1 = false
  /\ notes_file (run example_km example_hash
                     (just (SubmitEntry 1700000200%float (py "Hello") None (py "calm")))
                     (world_of (bob_writing (Some far_from_n1) id_n1 id_n1) [n1; n2]))
     = [n1; n2].
Proof.
  split; [reflexivity | split; [reflexivity | split; [reflexivity|]]].
  exact (proj1 (far_user_changes_nothing example_km example_hash
                  (just (SubmitEntry 1700000200%float (py "Hello") None (py "calm")))
                  (world_of (bob_writing (Some far_from_n1) id_n1 id_n1) [n1; n2])
                  bob n1 eq_refl eq_refl eq_refl) _ _ _ _ eq_refl).
Defined.

(** ** Accounts *)

Lemma flow_all_and_then (P : World -> Prop) (f : Flow) (k : World -> Flow) :
  flow_all P f -> (forall w, P w -> flow_all P (k w)) -> flow_all P (f >>> k).
Proof. intros Hf Hk. destruct f; simpl in *; auto. Qed.

Lemma flow_all_end (P : World -> Prop) (f : Flow) : flow_all P f -> P (end_of_run f).
Proof. destruct f; auto. Qed.

Lemma same_accounts_refl (w : World) : same_accounts w w.
Proof. split; auto. Qed.

Lemma same_accounts_trans (w0 w1 w2 : World) :
  same_accounts w0 w1 -> same_accounts w1 w2 -> same_accounts w0 w2.
Proof.
  intros [H1 H1'] [H2 H2']. split; [congruence|].
  destruct H2' as [H2'|H2']; [|auto]. rewrite H2'. exact H1'.
Qed.

Ltac same_accounts_cases :=
  repeat case_match; simpl; split; simpl; auto.

Lemma same_accounts_seeding (inp : Inputs) (w : World) :
  flow_all (same_accounts w) (seeding inp w).
Proof. unfold seeding. same_accounts_cases. Qed.

Lemma same_accounts_initial_centering (w : World) :
  flow_all (same_accounts w) (initial_centering w).
Proof. unfold initial_centering. same_accounts_cases. Qed.

Lemma same_accounts_refresh_nearby km (w : World) :
  same_accounts w (refresh_nearby km w).
Proof. unfold refresh_nearby. same_accounts_cases. Qed.

Lemma same_accounts_handle_reply (levels : nat) (msg : pystr) (w : World) :
  flow_all (same_accounts w) (handle_reply levels msg w).
Proof. unfold handle_reply. same_accounts_cases. Qed.

Lemma same_accounts_sidebar (inp : Inputs) (u : User) (w : World) :
  flow_all (same_accounts w) (sidebar inp u w).
Proof.
  unfold sidebar, place_mode_panel, write_mode_panel, selection_change, search_panel,
    account_panel, chat_turn.
  repeat case_match; simpl;
    try (split; simpl; auto; fail).
  all: match goal with
       | |- flow_all _ (handle_reply ?k ?m ?w1) =>
           let Hr := fresh "Hr" in
           pose proof (same_accounts_handle_reply k m w1) as Hr;
           destruct (handle_reply k m w1); simpl in *;
           destruct Hr as [? ?]; split; simpl in *; auto
       end.
Qed.

Lemma same_accounts_map_column (ev : Event) (w : World) :
  flow_all (same_accounts w) (map_column ev w).
Proof. unfold map_column. same_accounts_cases. Qed.

Lemma same_accounts_right_column km (ev : Event) (u : User) (w : World) :
  flow_all (same_accounts w) (right_column km ev u w).
Proof. unfold right_column, entry_form, delete_block. same_accounts_cases. Qed.

Lemma flow_all_step (w0 w : World) (f : Flow) :
  same_accounts w0 w -> flow_all (same_accounts w) f -> flow_all (same_accounts w0) f.
Proof. intros H. destruct f; simpl; apply same_accounts_trans; exact H. Qed.

Lemma same_accounts_main_app km (inp : Inputs) (u : User) (w : World) :
  same_accounts w (end_of_run (main_app km inp u w)).
Proof.
  apply flow_all_end. unfold main_app.
  set (w0 := with_session _ w).
  assert (same_accounts w w0) as H0.
  { unfold w0, sample_location, process_switch_flag, widget_update.
    split; simpl; [reflexivity|]. left. repeat case_match; reflexivity. }
  apply flow_all_and_then.
  { apply (flow_all_step w w0); [exact H0 | apply same_accounts_seeding]. }
  intros w1 H1. apply flow_all_and_then.
  { apply (flow_all_step w w1); [exact H1 | apply same_accounts_initial_centering]. }
  intros w2 H2. destruct (center (session w2)); [|exact H2].
  assert (same_accounts w (refresh_nearby km w2)) as H2'.
  { eapply same_accounts_trans; [exact H2 | apply same_accounts_refresh_nearby]. }
  apply flow_all_and_then.
  { eapply flow_all_step; [exact H2' | apply same_accounts_sidebar]. }
  intros w3 H3. apply flow_all_and_then.
  { eapply flow_all_step; [exact H3 | apply same_accounts_map_column]. }
  intros w4 H4. eapply flow_all_step; [exact H4 | apply same_accounts_right_column].
Qed.

(** One run and the accounts. *)
Lemma run_keeps_accounts km hash (inp : Inputs) (w : World) (i : pystr) (user : User) :
  users_file w !! i = Some user -> users_file (run km hash inp w) !! i = Some user.
Proof.
  intros Hi. unfold run, script.
  destruct (current_user (session w)) as [u|] eqn:Hu.
  - destruct (same_accounts_main_app km inp u w) as [-> _]. exact Hi.
  - unfold auth_page. repeat case_match; simpl; try exact Hi.
    rewrite lookup_insert_ne; [exact Hi|].
    intros <-.
    match goal with
    | H : bool_decide (is_Some _) = false |- _ =>
        apply bool_decide_eq_false in H; apply H; eauto
    end.
Qed.

Lemma runs_keep_accounts km hash (inps : list Inputs) (w : World) (i : pystr)
    (user : User) :
  users_file w !! i = Some user -> users_file (runs km hash inps w) !! i = Some user.
Proof.
  revert w. induction inps as [|inp rest IH]; intros w Hi; [exact Hi|].
  simpl. apply IH. apply run_keeps_accounts. exact Hi.
Qed.

(** X9. An account is never lost or rewritten. Whatever runs follow, an
    id that is in users.json stays there with the same name and password
    hash: registering under a taken id changes nothing. And no run of a
    logged-in user writes the file at all. *)
Theorem accounts_are_kept km hash (inps : list Inputs) (w : World) :
  (forall i user,
      users_file w !! i = Some user ->
      users_file (runs km hash inps w) !! i = Some user)
  /\ (forall inp, is_Some (current_user (session w)) ->
                  users_file (run km hash inp w) = users_file w).
Proof.
  split.
  - intros i user. apply runs_keep_accounts.
  - intros inp [u Hu]. unfold run, script. rewrite Hu.
    apply (same_accounts_main_app km inp u w).
Qed.

Lemma accounts_are_kept_witness :
  users_file nobody_yet !! py "alice" = Some alice
  /\ users_file (runs example_km example_hash
                   [at_near_n1 (Register (py "alice") (py "Mallory") (py "guess"));
                    at_near_n1 (Register (py "carol") (py "Carol") (py "pw"));
                    at_near_n1 (SetMenu AccountMenu);
                    at_near_n1 Logout]
                   nobody_yet) !! py "alice" = Some alice.
Proof.
  split; [reflexivity|].
  apply (proj1 (accounts_are_kept example_km example_hash _ nobody_yet) (py "alice") alice).
  reflexivity.
Defined.

Lemma login_run km hash (login : Inputs) (w : World) (login_id login_password : pystr) :
  current_user (session w) = None ->
  in_event login = Login login_id login_password ->
  current_user (session (run km hash login w))
  = match users_file w !! login_id with
    | Some user => if bool_decide (password_hash user = hash login_password)
                   then Some user else None
    | None => None
    end.
Proof.
  intros Hout Hlogin. unfold run, script. rewrite Hout. unfold auth_page. rewrite Hlogin.
  repeat case_match; simpl; auto.
Qed.

(** X10. Register, then log in. A registration with three non-empty fields
    under a free id logs the new user in; and after any runs, once nobody
    is logged in, logging in under that id gives back the same user if the
    password hashes to the stored hash, and leaves nobody logged in if it
    does not. *)
Theorem register_then_login km hash (w : World) (reg : Inputs)
    (register_id register_name register_password : pystr) :
  current_user (session w) = None ->
  in_event reg = Register register_id register_name register_password ->
  nonempty register_id = true ->
  nonempty register_name = true ->
  nonempty register_password = true ->
  users_file w !! register_id = None ->
  let new_user := {| user_id := register_id; name := register_name;
                     password_hash := hash register_password |} in
  current_user (session (run km hash reg w)) = Some new_user
  /\ forall (inps : list Inputs) (login : Inputs) (login_password : pystr),
       current_user (session (runs km hash inps (run km hash reg w))) = None ->
       in_event login = Login register_id login_password ->
       current_user (session (run km hash login (runs km hash inps (run km hash reg w))))
       = if bool_decide (hash register_password = hash login_password)
         then Some new_user else None.
Proof.
  intros Hu Hev Hi Hn Hp Hfree new_user.
  assert (run km hash reg w
          = {| session := set_initial_load true
                            (set_current_user (Some new_user) (session w));
               notes_file := notes_file w;
               users_file := <[register_id := new_user]> (users_file w) |}) as Hrun.
  { unfold run, script. rewrite Hu. unfold auth_page. rewrite Hev, Hi, Hn, Hp. simpl.
    rewrite bool_decide_eq_false_2; [reflexivity|].
    rewrite Hfree. intros [? ?]. discriminate. }
  split; [rewrite Hrun; reflexivity|].
  intros inps login pw Hout Hlogin.
  assert (users_file (runs km hash inps (run km hash reg w)) !! register_id
          = Some new_user) as Hkept.
  { apply runs_keep_accounts. rewrite Hrun. simpl. apply lookup_insert_eq. }
  rewrite (login_run km hash login _ register_id pw Hout Hlogin), Hkept. reflexivity.
Qed.

Lemma register_then_login_witness :
  current_user (session nobody_yet) = None
  /\ users_file nobody_yet !! py "carol" = None
  /\ current_user
       (session (run example_km example_hash
                   (at_near_n1 (Register (py "carol") (py "Carol") (py "pw")))
                   nobody_yet)) = Some carol
  /\ current_user
       (session (runs example_km example_hash carol_leaves
                   (run example_km example_hash
                      (at_near_n1 (Register (py "carol") (py "Carol") (py "pw")))
                      nobody_yet))) = None
  /\ current_user
       (session (run example_km example_hash
                   (at_near_n1 (Login (py "carol") (py "pw")))
                   (runs example_km example_hash carol_leaves
                      (run example_km example_hash
                         (at_near_n1 (Register (py "carol") (py "Carol") (py "pw")))
                         nobody_yet)))) = Some carol.
Proof.
  pose proof (register_then_login example_km example_hash nobody_yet
                (at_near_n1 (Register (py "carol") (py "Carol") (py "pw")))
                (py "carol") (py "Carol") (py "pw")
                eq_refl eq_refl eq_refl eq_refl eq_refl eq_refl) as [H1 H2].
  split; [reflexivity | split; [reflexivity | split; [exact H1 | split]]].
  - vm_compute. reflexivity.
  - exact (H2 carol_leaves (at_near_n1 (Login (py "carol") (py "pw"))) (py "pw")
              ltac:(vm_compute; reflexivity) eq_refl).
Defined.

(** X11. Whoever is logged in has an account. If every account of
    users.json is filed under its own id and the logged-in user, if any, is
    an account of the file, filed under the id it carries, then the same
    holds after any runs. *)
Theorem current_user_is_registered km hash (inps : list Inputs) (w : World) :
  registered w -> registered (runs km hash inps w).
Proof.
  revert w. induction inps as [|inp rest IH]; intros w Hw; [exact Hw|].
  simpl. apply IH. clear IH. destruct Hw as [Hk Hu].
  unfold run, script. destruct (current_user (session w)) as [u|] eqn:Hcur.
  - destruct (same_accounts_main_app km inp u w) as [Hf Hc].
    split; [rewrite Hf; exact Hk|].
    intros u' Hu'. rewrite Hf. apply Hu.
    destruct Hc as [Hc|Hc]; rewrite Hc in Hu'; [congruence | discriminate].
  - assert (registered w) as Hw.
    { split; [exact Hk|]. intros u'. rewrite Hcur. exact (Hu u'). }
    unfold auth_page.
    repeat case_match; simpl; try exact Hw.
    + split; [exact Hk|]. simpl. intros u' [= <-].
      match goal with H : users_file w !! ?i = Some ?x |- _ =>
        rewrite (Hk i x H); exact H end.
    + split.
      * intros i user. simpl.
        match goal with |- <[?r := _]> _ !! _ = _ -> _ =>
          destruct (decide (i = r)) as [->|Hne] end.
        -- rewrite lookup_insert_eq. intros [= <-]. reflexivity.
        -- rewrite lookup_insert_ne by congruence. apply Hk.
      * simpl. intros u' [= <-]. simpl. apply lookup_insert_eq.
Qed.

Lemma current_user_is_registered_witness :
  registered nobody_yet
  /\ users_file (runs example_km example_hash
                   [at_near_n1 (Register (py "carol") (py "Carol") (py "pw"))]
                   nobody_yet) !! py "carol" = Some carol.
Proof.
  assert (registered nobody_yet) as H.
  { split; [|discriminate].
    intros i user Hi. unfold nobody_yet in Hi. simpl in Hi.
    apply lookup_singleton_Some in Hi as [<- <-]. reflexivity. }
  split; [exact H|].
  exact (proj2 (current_user_is_registered example_km example_hash
                  [at_near_n1 (Register (py "carol") (py "Carol") (py "pw"))]
                  nobody_yet H) carol eq_refl).
Defined.

(** ** Seeding *)

Lemma place_type_listed (t : PlaceType) : t ∈ place_types.
Proof. unfold place_types. destruct t; set_solver. Qed.

Lemma seed_places_spec (clock : nat -> float) (t : PlaceType) (places : list Place)
    (notes notes' : list Note) (processed processed' : gset pystr) :
  seed_places clock t places (notes, processed) = Some (notes', processed') ->
  (forall i, i ∈ processed <-> i ∈ note_id <$> notes) ->
  (forall i, i ∈ processed' <-> i ∈ note_id <$> notes')
  /\ (forall i, i ∈ note_id <$> notes' <->
                i ∈ note_id <$> notes
                \/ (nonempty i = true
                    /\ exists place, place ∈ places /\ place_id place = Some i))
  /\ (Forall system_note notes -> Forall system_note notes').
Proof.
  revert notes processed.
  induction places as [|place rest IH]; intros notes processed; simpl.
  - intros [= <- <-] Hp. split; [exact Hp|]. split; [|auto].
    intros i. split; [auto|]. intros [H | (_ & p & Hin & _)]; [exact H|].
    inversion Hin.
  - destruct (place_id place) as [pid|] eqn:Hpid.
    2:{ intros Hs Hp. destruct (IH _ _ Hs Hp) as (H1 & H2 & H3).
        split; [exact H1|]. split; [|exact H3].
        intros i. rewrite H2. split; intros [H | (Hn & p & Hin & Hid)]; auto.
        - right. split; [exact Hn|]. exists p. split; [right; exact Hin | exact Hid].
        - apply elem_of_cons in Hin as [-> | Hin]; [congruence|].
          right. eauto. }
    destruct (nonempty pid && negb (bool_decide (pid ∈ processed))) eqn:Hnew.
    2:{ intros Hs Hp. destruct (IH _ _ Hs Hp) as (H1 & H2 & H3).
        split; [exact H1|]. split; [|exact H3].
        intros i. rewrite H2. split; intros [H | (Hn & p & Hin & Hid)]; auto.
        - right. split; [exact Hn|]. exists p. split; [right; exact Hin | exact Hid].
        - apply elem_of_cons in Hin as [-> | Hin]; [|right; eauto].
          left. rewrite Hpid in Hid. injection Hid as ->.
          rewrite Hn in Hnew. simpl in Hnew.
          apply negb_false_iff, bool_decide_eq_true in Hnew. apply Hp. exact Hnew. }
    destruct (location place) as [loc|]; [|discriminate].
    apply andb_prop in Hnew as [Hne Hfresh].
    intros Hs Hp.
    destruct (IH _ _ Hs) as (H1 & H2 & H3).
    { intros i. rewrite fmap_app, elem_of_app, elem_of_union, elem_of_singleton. simpl.
      rewrite list_elem_of_singleton, Hp. reflexivity. }
    split; [exact H1|]. split.
    + intros i. rewrite H2, fmap_app, elem_of_app. simpl. rewrite list_elem_of_singleton.
      split.
      * intros [[H | ->] | (Hn & p & Hin & Hid)]; auto.
        -- right. split; [exact Hne|]. exists place. split; [left | exact Hpid].
        -- right. split; [exact Hn|]. exists p. split; [right; exact Hin | exact Hid].
      * intros [H | (Hn & p & Hin & Hid)]; auto.
        apply elem_of_cons in Hin as [-> | Hin]; [|right; eauto].
        left. right. congruence.
    + intros Hall. apply H3. apply Forall_app. split; [exact Hall|].
      constructor; [|constructor].
      unfold system_note, seeded_note. simpl. repeat split; auto.
      * apply Forall_fmap. apply Forall_true. intros tag. simpl. eauto.
      * eauto.
Qed.

Lemma seed_types_spec (clock : nat -> float)
    (places_nearby : PlaceType -> option (list Place)) (ts : list PlaceType)
    (notes notes' : list Note) (processed processed' : gset pystr) :
  seed_types clock places_nearby ts (notes, processed) = Some (notes', processed') ->
  (forall i, i ∈ processed <-> i ∈ note_id <$> notes) ->
  (forall i, i ∈ processed' <-> i ∈ note_id <$> notes')
  /\ (forall i, i ∈ note_id <$> notes' <->
                i ∈ note_id <$> notes
                \/ (nonempty i = true
                    /\ exists t places place,
                         t ∈ ts /\ places_nearby t = Some places
                         /\ place ∈ places /\ place_id place = Some i))
  /\ (Forall system_note notes -> Forall system_note notes')
  /\ (forall t, t ∈ ts -> is_Some (places_nearby t)).
Proof.
  revert notes processed.
  induction ts as [|t rest IH]; intros notes processed; simpl.
  - intros [= <- <-] Hp. split; [exact Hp|]. split; [|split; [auto|]].
    + intros i. split; [auto|]. intros [H | (_ & t & ps & p & Hin & _)]; [exact H|].
      inversion Hin.
    + intros t Hin. inversion Hin.
  - destruct (places_nearby t) as [places|] eqn:Hcall; [|discriminate].
    destruct (seed_places clock t places (notes, processed)) as [[n1' p1']|] eqn:Hs1;
      [|discriminate].
    intros Hs Hp.
    destruct (seed_places_spec _ _ _ _ _ _ _ Hs1 Hp) as (A1 & A2 & A3).
    destruct (IH _ _ Hs A1) as (B1 & B2 & B3 & B4).
    split; [exact B1|]. split; [|split; [auto|]].
    + intros i. rewrite B2, A2. split.
      * intros [[H | (Hn & p & Hin & Hid)] | (Hn & t' & ps & p & Ht & Hc & Hin & Hid)];
          auto.
        -- right. split; [exact Hn|]. exists t, places, p.
           split; [left|auto].
        -- right. split; [exact Hn|]. exists t', ps, p. split; [right; exact Ht | auto].
      * intros [H | (Hn & t' & ps & p & Ht & Hc & Hin & Hid)]; auto.
        apply elem_of_cons in Ht as [-> | Ht].
        -- left. right. split; [exact Hn|]. exists p.
           rewrite Hcall in Hc. injection Hc as <-. auto.
        -- right. split; [exact Hn|]. exists t', ps, p. auto.
    + intros t' Ht. apply elem_of_cons in Ht as [-> | Ht]; [rewrite Hcall; eauto | auto].
Qed.

(** X12. What seeding makes. When [generate_initial_notes] gets through,
    every one of the five calls answered; the ids of the notes it made are
    exactly the non-empty place ids of the responses, each of them once (a
    place listed under several types, or several times, gives one note);
    and every note is a system note: creator id system, hashtags that begin
    with a hash sign, and one text entry tagged with a place type. *)
Theorem seeded_notes_spec (clock : nat -> float)
    (places_nearby : PlaceType -> option (list Place)) (notes : list Note) :
  initial_notes_of clock places_nearby = Some notes ->
  (forall t, is_Some (places_nearby t))
  /\ (forall i, i ∈ note_id <$> notes <-> offered places_nearby i)
  /\ NoDup (note_id <$> notes)
  /\ Forall system_note notes.
Proof.
  intros Hall. pose proof (initial_notes_distinct _ _ _ Hall) as Hnd.
  revert Hall. unfold initial_notes_of.
  destruct (seed_types clock places_nearby place_types ([], ∅)) as [[ns ps]|] eqn:Hs;
    [|discriminate].
  intros [= <-].
  destruct (seed_types_spec _ _ _ _ _ _ _ Hs) as (_ & H2 & H3 & H4).
  { intros i. simpl. split; intros H; [set_solver | inversion H]. }
  split; [intros t; apply H4, place_type_listed|].
  split; [|split; [exact Hnd | apply H3; constructor]].
  intros i. rewrite H2. unfold offered. split.
  - intros [H | (Hn & t & places & p & _ & Hrest)]; [inversion H|].
    split; [exact Hn|]. eauto.
  - intros (Hn & t & places & p & Hrest). right. split; [exact Hn|].
    exists t, places, p. split; [apply place_type_listed | exact Hrest].
Qed.

Lemma seeded_notes_spec_witness :
  initial_notes_of (fun _ => 1700000000%float) cafe_and_park
  = Some [seeded_note 1700000000%float cafe (py "p1") harbour_cafe (35%float, 139%float)]
  /\ NoDup (note_id <$>
              [seeded_note 1700000000%float cafe (py "p1") harbour_cafe
                           (35%float, 139%float)])
  /\ Forall system_note
       [seeded_note 1700000000%float cafe (py "p1") harbour_cafe (35%float, 139%float)].
Proof.
  assert (initial_notes_of (fun _ => 1700000000%float) cafe_and_park
          = Some [seeded_note 1700000000%float cafe (py "p1") harbour_cafe
                              (35%float, 139%float)]) as H
    by (vm_compute; reflexivity).
  split; [exact H|].
  exact (proj2 (proj2 (seeded_notes_spec _ cafe_and_park _ H))).
Defined.

Lemma seed_types_fail (clock : nat -> float)
    (places_nearby : PlaceType -> option (list Place)) (ts : list PlaceType)
    (t : PlaceType) (st : list Note * gset pystr) :
  t ∈ ts -> places_nearby t = None -> seed_types clock places_nearby ts st = None.
Proof.
  revert st. induction ts as [|t' rest IH]; intros st Hin Hfail; [inversion Hin|].
  simpl. apply elem_of_cons in Hin as [-> | Hin]; [rewrite Hfail; reflexivity|].
  destruct (places_nearby t'); [|reflexivity].
  destruct (seed_places clock t' l st); [|reflexivity].
  apply IH; assumption.
Qed.

(** X13. Seeding is all or nothing. If one of the five calls to the Places
    API raises, whichever it is and whatever the others returned, nothing
    is saved: notes.json is left as it was. *)
Theorem seeding_all_or_nothing (clock : nat -> float)
    (places_nearby : PlaceType -> option (list Place)) (t : PlaceType)
    (file : list Note) :
  places_nearby t = None ->
  generate_initial_notes clock places_nearby file = file.
Proof.
  intros Hfail. unfold generate_initial_notes, initial_notes_of.
  rewrite (seed_types_fail clock places_nearby place_types t ([], ∅)
             (place_type_listed t) Hfail).
  reflexivity.
Qed.

Lemma seeding_all_or_nothing_witness :
  parks_fail park = None
  /\ generate_initial_notes (fun _ => 1700000000%float) parks_fail [n1] = [n1].
Proof.
  split; [reflexivity|].
  apply (seeding_all_or_nothing _ parks_fail park). reflexivity.
Defined.

(** ** The match [re.search] returns *)

Lemma space_before_quote (w x b y : pystr) :
  all_space w -> w ++ x = b ++ DQUOTE :: y -> (length w <= length b)%nat.
Proof.
  intros Hw. revert b. induction Hw as [|a w Ha Hw IH]; intros b Heq; [simpl; lia|].
  destruct b as [|a' b]; simpl in Heq.
  - injection Heq as -> _. discriminate Ha.
  - injection Heq as _ Heq. simpl. apply IH in Heq. lia.
Qed.

Lemma lazy_body_first (body w3 post rest : pystr) :
  all_space w3 ->
  lazy_body (body ++ DQUOTE :: w3 ++ RBRACE :: post) = Some rest ->
  (length post <= length rest)%nat.
Proof.
  intros Hw. induction body as [|c b IH].
  - assert (closing (DQUOTE :: w3 ++ RBRACE :: post) = Some post) as Hc
      by (apply closing_Some; eauto).
    cbn [app lazy_body]. rewrite Hc. intros [= <-]. lia.
  - cbn [app lazy_body].
    destruct (closing (c :: b ++ DQUOTE :: w3 ++ RBRACE :: post)) as [r|] eqn:Hc;
      [|exact IH].
    intros [= ->]. apply closing_Some in Hc as (w & Hsp & Heq).
    injection Heq as _ Heq.
    pose proof (space_before_quote w _ b _ Hsp (eq_sym Heq)) as Hlen.
    apply (f_equal length) in Heq. rewrite !length_app in Heq. cbn [length] in Heq.
    rewrite !length_app in Heq. cbn [length] in Heq. lia.
Qed.

Lemma match_here_shortest (sub post rest : pystr) :
  matches_pattern sub -> match_here (sub ++ post) = Some rest ->
  (length post <= length rest)%nat.
Proof.
  intros (w1 & w2 & body & w3 & Hw1 & Hw2 & Hw3 & ->).
  destruct key_literal_head as [k Hk].
  cbn [app match_here]. rewrite N.eqb_refl.
  rewrite <- !app_assoc.
  replace (skip_ws (w1 ++ key_literal ++ _)) with
    (key_literal ++ w2 ++ (DQUOTE :: body ++ DQUOTE :: w3 ++ [RBRACE]) ++ post).
  2:{ rewrite Hk. symmetry. apply (skip_ws_app w1 DQUOTE); [assumption|reflexivity]. }
  rewrite strip_prefix_app.
  cbn [app]. rewrite (skip_ws_app w2 DQUOTE) by (assumption || reflexivity).
  rewrite N.eqb_refl. rewrite <- !app_assoc. cbn [app].
  rewrite <- app_assoc. cbn [app]. apply lazy_body_first. assumption.
Qed.

Lemma re_search_at (s pre m post : pystr) :
  re_search s = Some (pre, m, post) -> match_here (m ++ post) = Some post.
Proof.
  revert pre. induction s as [|c t IH]; intros pre.
  - simpl. discriminate.
  - cbn [re_search]. destruct (match_here (c :: t)) as [rest|] eqn:Hm.
    + intros [= _ Hm2 <-].
      destruct (match_here_length _ _ Hm) as [m' [Hs Ht]].
      assert (m' = m) as -> by (etrans; [symmetry; exact Ht | exact Hm2]).
      rewrite <- Hs. exact Hm.
    + destruct (re_search t) as [[[pre0 m0] post0]|]; [|discriminate].
      intros [= _ <- <-]. exact (IH pre0 eq_refl).
Qed.

Lemma re_search_leftmost (s pre m post pre' sub post' : pystr) :
  re_search s = Some (pre, m, post) ->
  s = pre' ++ sub ++ post' -> matches_pattern sub ->
  (length pre <= length pre')%nat.
Proof.
  intros Hr Hs Hp. revert pre pre' Hr Hs.
  induction s as [|c t IH]; intros pre pre'.
  - simpl. discriminate.
  - cbn [re_search]. destruct (match_here (c :: t)) as [rest|] eqn:Hm.
    + intros [= <- _ _] _. simpl. lia.
    + destruct (re_search t) as [[[pre0 m0] post0]|] eqn:Ht; [|discriminate].
      intros [= <- <- <-] Hs. destruct pre' as [|c' pre'].
      * exfalso. simpl in Hs. rewrite Hs in Hm.
        destruct (match_here_finds sub post' Hp) as [x Hx]. congruence.
      * injection Hs as _ Hs. simpl. pose proof (IH pre0 pre' eq_refl Hs). lia.
Qed.

(** X14. Which match is taken. When the reply has a match of the pattern,
    the script takes the leftmost one and, of the matches that begin there,
    the shortest: the object ends at the first double quote that is
    followed, after optional whitespace, by a closing brace. No match
    begins earlier, and none that begins at the same place is shorter. *)
Theorem re_search_leftmost_shortest (s pre m post : pystr) :
  re_search s = Some (pre, m, post) ->
  s = pre ++ m ++ post
  /\ matches_pattern m
  /\ forall pre' sub post',
       s = pre' ++ sub ++ post' -> matches_pattern sub ->
       (length pre <= length pre')%nat
       /\ (length pre' = length pre -> (length m <= length sub)%nat).
Proof.
  intros Hr. destruct (re_search_Some _ _ _ _ Hr) as [Hs Hm].
  split; [exact Hs|]. split; [exact Hm|].
  intros pre' sub post' Hs' Hp. split; [exact (re_search_leftmost _ _ _ _ _ _ _ Hr Hs' Hp)|].
  intros Hlen.
  assert (m ++ post = sub ++ post') as Heq.
  { rewrite Hs in Hs'. apply app_inj_1 in Hs' as [_ H]; [exact H | congruence]. }
  pose proof (re_search_at _ _ _ _ Hr) as Hat. rewrite Heq in Hat.
  pose proof (match_here_shortest _ _ _ Hp Hat) as Hsh.
  apply (f_equal length) in Heq. rewrite !length_app in Heq. lia.
Qed.

Lemma re_search_leftmost_shortest_witness :
  re_search two_ends
  = Some (py "x", reply_block [] (py " ") [] (py "a"), py " " ++ [DQUOTE; RBRACE])
  /\ two_ends = py "x" ++ longer_match ++ []
  /\ (length (reply_block [] (py " ") [] (py "a")) <= length longer_match)%nat.
Proof.
  assert (re_search two_ends
          = Some (py "x", reply_block [] (py " ") [] (py "a"), py " " ++ [DQUOTE; RBRACE]))
    as Hr by (vm_compute; reflexivity).
  split; [exact Hr|]. split; [reflexivity|].
  destruct (re_search_leftmost_shortest _ _ _ _ Hr) as (_ & _ & H).
  refine (proj2 (H (py "x") longer_match [] eq_refl _) eq_refl).
  exists [], (py " "), (py "a" ++ [DQUOTE; RBRACE] ++ py " "), [].
  repeat split; repeat constructor.
Defined.

(** ** Replies of the model *)

Lemma json_space_all_space (w : pystr) : json_space w -> all_space w.
Proof.
  intros H. eapply Forall_impl; [exact H|]. intros c Hc. simpl in Hc.
  unfold is_json_ws in Hc. unfold isspace.
  repeat (apply orb_prop in Hc as [Hc | Hc]); apply N.eqb_eq in Hc; subst c; reflexivity.
Qed.

Lemma skip_json_ws_app (w : pystr) (c : N) (r : pystr) :
  json_space w -> is_json_ws c = false -> skip_json_ws (w ++ c :: r) = c :: r.
Proof.
  intros Hw Hc. induction Hw as [|x w Hx Hw IH]; simpl.
  - rewrite Hc. reflexivity.
  - rewrite Hx. exact IH.
Qed.

Lemma scanstring_plain (fuel : nat) (i r : pystr) :
  plain i -> (length i < fuel)%nat ->
  scanstring fuel (i ++ DQUOTE :: r) = Some (i, r).
Proof.
  intros Hi. revert fuel. induction Hi as [|c i (H1 & H2 & H3) Hi IH]; intros fuel Hf.
  - destruct fuel; [simpl in Hf; lia|]. reflexivity.
  - destruct fuel; [simpl in Hf; lia|]. cbn [app scanstring].
    rewrite H1, H2, H3. rewrite IH by (simpl in Hf; lia). reflexivity.
Qed.

Lemma plain_key_name : plain key_name.
Proof. unfold plain, key_name. simpl. repeat constructor. Qed.

Lemma lazy_body_plain (i w3 post : pystr) :
  plain i -> all_space w3 ->
  lazy_body (i ++ DQUOTE :: w3 ++ RBRACE :: post) = Some post.
Proof.
  intros Hi Hw. induction Hi as [|c i (_ & H2 & _) Hi IH].
  - assert (closing (DQUOTE :: w3 ++ RBRACE :: post) = Some post) as Hc
      by (apply closing_Some; eauto).
    cbn [app lazy_body]. rewrite Hc. reflexivity.
  - cbn [app lazy_body]. unfold closing at 1. rewrite H2. exact IH.
Qed.

Lemma match_here_block (w1 w2 w3 i post : pystr) :
  all_space w1 -> all_space w2 -> all_space w3 -> plain i ->
  match_here (reply_block w1 w2 w3 i ++ post) = Some post.
Proof.
  intros H1 H2 H3 Hi. unfold reply_block, match_here. cbn [app].
  change (LBRACE =? LBRACE) with true. cbv iota.
  rewrite <- !app_assoc.
  assert (skip_ws (w1 ++ key_literal ++ w2 ++ (DQUOTE :: i ++ DQUOTE :: w3 ++ [RBRACE]) ++ post)
          = key_literal ++ w2 ++ (DQUOTE :: i ++ DQUOTE :: w3 ++ [RBRACE]) ++ post) as ->.
  { destruct key_literal_head as [k ->]. cbn [app]. apply skip_ws_app; [exact H1|reflexivity]. }
  rewrite strip_prefix_app. cbn [app].
  rewrite (skip_ws_app w2 DQUOTE _ H2 eq_refl).
  change (DQUOTE =? DQUOTE) with true. cbv iota.
  rewrite <- !app_assoc. cbn [app]. rewrite <- !app_assoc. cbn [app].
  apply lazy_body_plain; assumption.
Qed.

Lemma re_search_head (s rest : pystr) :
  match_here s = Some rest ->
  re_search s = Some ([], take (length s - length rest)%nat s, rest).
Proof. intros H. destruct s; cbn [re_search]; rewrite H; reflexivity. Qed.

Lemma re_search_block (pre w1 w2 w3 i post : pystr) :
  LBRACE ∉ pre ->
  all_space w1 -> all_space w2 -> all_space w3 -> plain i ->
  re_search (pre ++ reply_block w1 w2 w3 i ++ post)
  = Some (pre, reply_block w1 w2 w3 i, post).
Proof.
  intros Hpre H1 H2 H3 Hi. induction pre as [|c pre IH].
  - cbn [app].
    rewrite (re_search_head _ post) by (apply match_here_block; assumption).
    rewrite length_app, Nat.add_sub, take_app_length. reflexivity.
  - cbn [app re_search].
    assert (match_here (c :: pre ++ reply_block w1 w2 w3 i ++ post) = None) as ->.
    { unfold match_here. destruct (N.eqb_spec c LBRACE) as [->|]; [|reflexivity].
      exfalso. apply Hpre. left. }
    rewrite IH; [reflexivity|]. intros Hin. apply Hpre. right. exact Hin.
Qed.

Lemma scan_once_string (room : nat) (i r : pystr) :
  plain i -> scan_once room (DQUOTE :: i ++ DQUOTE :: r) = Done (JStr i, r).
Proof.
  intros Hi.
  assert (scanstring (length (i ++ DQUOTE :: r)) (i ++ DQUOTE :: r) = Some (i, r)) as Hs.
  { apply scanstring_plain; [exact Hi|]. rewrite length_app. simpl. lia. }
  destruct room; cbn [scan_once]; change (DQUOTE =? DQUOTE) with true; cbv iota;
    rewrite Hs; reflexivity.
Qed.

Lemma json_loads_block (more : nat) (w1 w2 w3 i : pystr) :
  json_space w1 -> json_space w2 -> json_space w3 -> plain i ->
  json_loads (5 + more) (reply_block w1 w2 w3 i) = inl (JObj [(key_name, JStr i)]).
Proof.
  intros H1 H2 H3 Hi. unfold json_loads, reply_block.
  change (LBRACE =? 65279) with false. cbv iota.
  change (5 + more <? levels_to_scanner)%nat with false. cbv iota.
  change (5 + more - levels_to_scanner)%nat with (S more). cbv zeta.
  change (skip_json_ws (LBRACE :: ?x)) with (LBRACE :: x).
  cbn [scan_once]. change (LBRACE =? DQUOTE) with false.
  change (LBRACE =? LBRACE) with true. cbv iota.
  set (t := w1 ++ key_literal ++ w2 ++ DQUOTE :: i ++ DQUOTE :: w3 ++ [RBRACE]).
  assert (skip_json_ws t
          = DQUOTE :: key_name ++ DQUOTE :: COLON :: w2
              ++ DQUOTE :: i ++ DQUOTE :: w3 ++ [RBRACE]) as Ht.
  { unfold t, key_literal. cbn [app]. rewrite <- !app_assoc. cbn [app].
    apply (skip_json_ws_app w1 DQUOTE _ H1 eq_refl). }
  assert (exists n, length t = S n) as [n Hn].
  { pose proof (skip_json_ws_length t) as Hl. rewrite Ht in Hl. cbn [length] in Hl.
    destruct (length t) as [|n]; [lia | eauto]. }
  rewrite Ht, Hn. change (DQUOTE =? RBRACE) with false. cbv iota.
  cbn [object_members]. change (DQUOTE =? DQUOTE) with true. cbv iota.
  rewrite scanstring_plain; [|exact plain_key_name|rewrite length_app; simpl; lia].
  change (skip_json_ws (COLON :: ?x)) with (COLON :: x).
  change (COLON =? COLON) with true. cbv iota.
  rewrite (skip_json_ws_app w2 DQUOTE _ H2 eq_refl).
  rewrite (scan_once_string more i _ Hi).
  rewrite (skip_json_ws_app w3 RBRACE [] H3 eq_refl).
  change (RBRACE =? RBRACE) with true. reflexivity.
Qed.

Lemma remove_from_skip (old x post : pystr) :
  remove_from old (length x) (x ++ post) = remove_from old 0 post.
Proof.
  induction x as [|c x IH]; [reflexivity|]. cbn [app length remove_from]. exact IH.
Qed.

Lemma remove_from_pre (h : N) (old' pre rest : pystr) :
  h ∉ pre ->
  remove_from (h :: old') 0 (pre ++ rest) = pre ++ remove_from (h :: old') 0 rest.
Proof.
  intros Hpre. induction pre as [|c pre IH]; [reflexivity|].
  cbn [app remove_from strip_prefix].
  destruct (N.eqb_spec h c) as [->|_]; [exfalso; apply Hpre; left|].
  rewrite IH; [reflexivity|]. intros Hin. apply Hpre. right. exact Hin.
Qed.

Lemma remove_from_here (h : N) (old' post : pystr) :
  remove_from (h :: old') 0 ((h :: old') ++ post) = remove_from (h :: old') 0 post.
Proof.
  cbn [app remove_from].
  change (strip_prefix (h :: old') (h :: old' ++ post))
    with (strip_prefix (h :: old') ((h :: old') ++ post)).
  rewrite strip_prefix_app. cbn [length pred]. apply remove_from_skip.
Qed.

Lemma remove_all_block (pre w1 w2 w3 i post : pystr) :
  LBRACE ∉ pre ->
  remove_all (reply_block w1 w2 w3 i) (pre ++ reply_block w1 w2 w3 i ++ post)
  = pre ++ remove_all (reply_block w1 w2 w3 i) post.
Proof.
  intros Hpre. unfold reply_block, remove_all.
  rewrite (remove_from_pre _ _ _ _ Hpre), remove_from_here. reflexivity.
Qed.

(** X15. The reply the system prompt asks for is read back. Let a reply be
    some text without an opening brace, then the object with the key
    recommended_note_id and a quoted id, JSON whitespace where the pattern
    allows it, then any text. If the id has no double quote, backslash or
    control character, the script reads this very id out of the reply,
    whatever else the id holds (a closing brace too), and the text it shows
    is the reply without the object, stripped. An empty id is no
    recommendation. The object is one container: this holds whenever the
    interpreter has the five levels of recursion left that decoding it
    takes. *)
Theorem reply_round_trip (more : nat) (pre w1 w2 w3 i post : pystr) :
  LBRACE ∉ pre ->
  json_space w1 -> json_space w2 -> json_space w3 ->
  plain i ->
  parse_reply (5 + more) (pre ++ reply_block w1 w2 w3 i ++ post)
  = if nonempty i
    then Recommendation (JStr i)
           (strip (pre ++ remove_all (reply_block w1 w2 w3 i) post))
    else NoId.
Proof.
  intros Hpre H1 H2 H3 Hi. unfold parse_reply.
  rewrite (re_search_block pre w1 w2 w3 i post Hpre)
    by (try apply json_space_all_space; assumption).
  rewrite (json_loads_block more w1 w2 w3 i H1 H2 H3 Hi).
  unfold dict_get. cbn [fold_left fst snd].
  rewrite bool_decide_eq_true_2 by reflexivity.
  cbn [truthy]. rewrite (remove_all_block pre w1 w2 w3 i post Hpre). reflexivity.
Qed.

Lemma reply_round_trip_witness :
  parse_reply 900 (py "Try this one: " ++ reply_block (py " ") (py " ") (py " ") (py "n}1")
                     ++ py " Enjoy!")
  = Recommendation (JStr (py "n}1")) (py "Try this one:  Enjoy!").
Proof.
  refine (reply_round_trip 895 (py "Try this one: ") (py " ") (py " ") (py " ")
            (py "n}1") (py " Enjoy!") _ _ _ _ _).
  - vm_compute. intros H. repeat (apply elem_of_cons in H as [H|H]; [discriminate H|]).
    inversion H.
  - repeat constructor.
  - repeat constructor.
  - repeat constructor.
  - repeat constructor.
Defined.

(** ** The chat, run after run *)

(** A property of the world that the prelude establishes and every part of
    the page keeps holds when the run ends. *)
Lemma main_app_flow (P : World -> Prop) km (inp : Inputs) (u : User) (w : World) :
  P (with_session
       (fun s => sample_location (in_location inp)
                   (process_switch_flag (widget_update (in_event inp) s))) w) ->
  (forall w, P w -> flow_all P (seeding inp w)) ->
  (forall w, P w -> flow_all P (initial_centering w)) ->
  (forall w, P w -> P (refresh_nearby km w)) ->
  (forall w, P w -> flow_all P (sidebar inp u w)) ->
  (forall w, P w -> flow_all P (map_column (in_event inp) w)) ->
  (forall w, P w -> flow_all P (right_column km (in_event inp) u w)) ->
  P (end_of_run (main_app km inp u w)).
Proof.
  intros H0 Hseed Hcen Hnear Hside Hmap Hright.
  apply flow_all_end. unfold main_app.
  apply flow_all_and_then; [apply Hseed; exact H0|].
  intros w1 H1. apply flow_all_and_then; [apply Hcen; exact H1|].
  intros w2 H2. destruct (center (session w2)); [|exact H2].
  apply flow_all_and_then; [apply Hside, Hnear; exact H2|].
  intros w3 H3. apply flow_all_and_then; [apply Hmap; exact H3|].
  intros w4 H4. apply Hright. exact H4.
Qed.

Lemma head_app_keep {A : Type} (l : list A) (x g : A) :
  head l = Some g -> head (l ++ [x]) = Some g.
Proof. destruct l; [discriminate | exact id]. Qed.

Ltac chat_ok_cases H :=
  repeat case_match; simpl; try exact H;
  unfold chat_ok in *; simpl in *; repeat case_match; simpl in *; try exact H;
  try (intros; discriminate);
  try (intros Hopen; destruct (H Hopen) as [Hr Hh]; split;
       [assumption || reflexivity
       | repeat apply head_app_keep; assumption]);
  try (intros _; split; reflexivity).

Lemma chat_ok_handle_reply (levels : nat) (msg : pystr) (w : World) :
  chat_ok (session w) ->
  flow_all (fun w' => chat_ok (session w')) (handle_reply levels msg w).
Proof. intros H. unfold handle_reply. chat_ok_cases H. Qed.

Lemma chat_ok_append (role : Role) (content : pystr) (s : Session) :
  chat_ok s -> chat_ok (append_message role content s).
Proof.
  intros H Hopen. destruct (H Hopen) as [Hr Hh]. split; [exact Hr|].
  simpl. apply head_app_keep. exact Hh.
Qed.

Lemma chat_ok_sidebar (inp : Inputs) (u : User) (w : World) :
  chat_ok (session w) ->
  flow_all (fun w' => chat_ok (session w')) (sidebar inp u w).
Proof.
  intros H.
  unfold sidebar, place_mode_panel, write_mode_panel, selection_change, search_panel,
    account_panel, chat_turn.
  repeat case_match; simpl; try exact H;
    try (apply chat_ok_handle_reply; simpl; apply chat_ok_append; exact H);
    try (apply (chat_ok_append RoleUser); exact H);
    unfold chat_ok in *; simpl in *;
    try (intros; discriminate);
    try (intros Hopen; destruct (H Hopen) as [Hr Hh]; split; assumption || reflexivity);
    try (intros _; split; reflexivity).
Qed.

Lemma chat_ok_run km hash (inp : Inputs) (w : World) :
  chat_ok (session w) -> chat_ok (session (run km hash inp w)).
Proof.
  intros H. unfold run, script. destruct (current_user (session w)) as [u|].
  - apply (main_app_flow (fun w' => chat_ok (session w'))).
    + unfold sample_location, process_switch_flag, widget_update.
      chat_ok_cases H.
    + intros w1 H1. unfold seeding. chat_ok_cases H1.
    + intros w1 H1. unfold initial_centering. chat_ok_cases H1.
    + intros w1 H1. unfold refresh_nearby. chat_ok_cases H1.
    + intros w1 H1. apply chat_ok_sidebar. exact H1.
    + intros w1 H1. unfold map_column. chat_ok_cases H1.
    + intros w1 H1. unfold right_column, entry_form, delete_block. chat_ok_cases H1.
  - unfold auth_page. chat_ok_cases H.
Qed.

(** X16. An open chat. From the initial session on, after any runs: while
    a chat is open no note is recommended, so the gate lets nothing through
    from afar, and the transcript the model is sent begins with the
    greeting of the assistant. *)
Theorem open_chat_has_no_recommendation km hash (inps : list Inputs) (w : World) :
  chat_ok (session w) -> chat_ok (session (runs km hash inps w)).
Proof.
  revert w. induction inps as [|inp rest IH]; intros w H; [exact H|].
  simpl. apply IH, chat_ok_run, H.
Qed.

Lemma open_chat_has_no_recommendation_witness :
  chat_started
    (session (runs example_km example_hash
                [just (ChatInput (py "by the sea") (Some reply_chatty) 900)]
                (world_of bob_chatting [n1; n2]))) = true
  /\ recommended_note_id
       (session (runs example_km example_hash
                   [just (ChatInput (py "by the sea") (Some reply_chatty) 900)]
                   (world_of bob_chatting [n1; n2]))) = None
  /\ head (chat_messages
             (session (runs example_km example_hash
                         [just (ChatInput (py "by the sea") (Some reply_chatty) 900)]
                         (world_of bob_chatting [n1; n2]))))
     = Some (RoleAssistant, assistant_greeting).
Proof.
  assert (chat_ok (session (world_of bob_chatting [n1; n2]))) as H
    by (intros _; split; reflexivity).
  assert (chat_started
            (session (runs example_km example_hash
                        [just (ChatInput (py "by the sea") (Some reply_chatty) 900)]
                        (world_of bob_chatting [n1; n2]))) = true) as Hopen
    by (vm_compute; reflexivity).
  split; [exact Hopen|].
  exact (open_chat_has_no_recommendation example_km example_hash _ _ H Hopen).
Defined.

(** *** The flag of line 393 *)

Lemma main_app_flow2 (P Q : World -> Prop) km (inp : Inputs) (u : User) (w : World) :
  P (with_session
       (fun s => sample_location (in_location inp)
                   (process_switch_flag (widget_update (in_event inp) s))) w) ->
  (forall w, P w -> Q w) ->
  (forall w, P w -> flow_pq P Q (seeding inp w)) ->
  (forall w, P w -> flow_pq P Q (initial_centering w)) ->
  (forall w, P w -> P (refresh_nearby km w)) ->
  (forall w, P w -> flow_pq P Q (sidebar inp u w)) ->
  (forall w, P w -> flow_pq P Q (map_column (in_event inp) w)) ->
  (forall w, P w -> Q (end_of_run (right_column km (in_event inp) u w))) ->
  Q (end_of_run (main_app km inp u w)).
Proof.
  intros H0 HPQ Hseed Hcen Hnear Hside Hmap Hright. unfold main_app.
  apply (flow_chain P Q); [apply Hseed; exact H0|].
  intros w1 H1. apply (flow_chain P Q); [apply Hcen; exact H1|].
  intros w2 H2. destruct (center (session w2)); [|apply HPQ; exact H2].
  apply (flow_chain P Q); [apply Hside, Hnear; exact H2|].
  intros w3 H3. apply (flow_chain P Q); [apply Hmap; exact H3|].
  intros w4 H4. apply Hright. exact H4.
Qed.

Ltac flag_cases H :=
  repeat case_match; simpl; try exact H; try (left; exact H);
  unfold flag_ok; simpl; repeat case_match; simpl; try exact H; try (left; exact H).

Lemma flag_ok_sidebar (inp : Inputs) (u : User) (w : World) :
  switch_to_note_mode (session w) = false ->
  flow_pq (fun w' => switch_to_note_mode (session w') = false)
          (fun w' => flag_ok (in_event inp) (session w'))
          (sidebar inp u w).
Proof.
  intros H.
  unfold sidebar, place_mode_panel, write_mode_panel, selection_change, search_panel,
    account_panel, chat_turn, handle_reply.
  repeat case_match; simpl; try exact H; try (left; exact H); try (left; reflexivity).
  all: right; do 5 eexists; repeat split; try eassumption; reflexivity.
Qed.

Lemma flag_ok_run km hash (inp : Inputs) (w : World) (u : User) :
  current_user (session w) = Some u ->
  flag_ok (in_event inp) (session (run km hash inp w)).
Proof.
  intros Hu. unfold run, script. rewrite Hu.
  apply (main_app_flow2 (fun w' => switch_to_note_mode (session w') = false)
                        (fun w' => flag_ok (in_event inp) (session w'))).
  - unfold sample_location, process_switch_flag, widget_update. simpl.
    repeat case_match; simpl; auto.
  - intros w1 H1. left. exact H1.
  - intros w1 H1. unfold seeding. flag_cases H1.
  - intros w1 H1. unfold initial_centering. flag_cases H1.
  - intros w1 H1. unfold refresh_nearby. flag_cases H1.
  - intros w1 H1. apply flag_ok_sidebar. exact H1.
  - intros w1 H1. unfold map_column. flag_cases H1.
  - intros w1 H1. unfold right_column, entry_form, delete_block. flag_cases H1.
Qed.

Lemma write_mode_run km hash (inp : Inputs) (w : World) (u : User) :
  current_user (session w) = Some u ->
  switch_to_note_mode (session w) = true ->
  in_write_mode (session (run km hash inp w))
  /\ current_user (session (run km hash inp w)) = Some u.
Proof.
  intros Hu Hflag. unfold run, script. rewrite Hu.
  apply (main_app_flow
           (fun w' => in_write_mode (session w') /\ current_user (session w') = Some u)).
  - unfold sample_location, process_switch_flag, widget_update, in_write_mode. simpl.
    repeat case_match; simpl in *; auto; congruence.
  - intros w1 H1. unfold seeding. repeat case_match; simpl; exact H1.
  - intros w1 H1. unfold initial_centering. repeat case_match; simpl; exact H1.
  - intros w1 H1. unfold refresh_nearby. repeat case_match; simpl; exact H1.
  - intros w1 [(Hm & Hmo & Hf) Hc]. unfold sidebar. rewrite Hm, Hmo.
    unfold write_mode_panel, selection_change, in_write_mode.
    repeat case_match; simpl; auto.
  - intros w1 [(Hm & Hmo & Hf) Hc]. unfold map_column, in_write_mode.
    repeat case_match; simpl; auto; congruence.
  - intros w1 [(Hm & Hmo & Hf) Hc].
    unfold right_column, entry_form, delete_block, in_write_mode.
    repeat case_match; simpl; auto.
Qed.

(** X17. Where a recommendation leads. (1) A run of a logged-in user ends
    with the flag of line 393 up only when it has just read an id out of the
    reply of the model and made it the recommendation and the selection,
    closing the chat. (2) The run that starts with the flag up takes it
    down and shows the note page in write mode, whatever menu or mode the
    user picked meanwhile; the user stays logged in. *)
Theorem recommendation_opens_write_mode km hash (inp : Inputs) (w : World) (u : User) :
  current_user (session w) = Some u ->
  flag_ok (in_event inp) (session (run km hash inp w))
  /\ (switch_to_note_mode (session w) = true ->
      in_write_mode (session (run km hash inp w))
      /\ current_user (session (run km hash inp w)) = Some u).
Proof.
  intros Hu. split; [apply (flag_ok_run km hash inp w u Hu)|].
  apply write_mode_run. exact Hu.
Qed.

Lemma recommendation_opens_write_mode_witness :
  let w1 := run example_km example_hash
                (just (ChatInput (py "by the sea") (Some reply_n1) 900))
                (world_of bob_chatting [n1; n2]) in
  current_user (session w1) = Some bob
  /\ switch_to_note_mode (session w1) = true
  /\ recommended_note_id (session w1) = id_n1
  /\ in_write_mode (session (run example_km example_hash (just (SetMenu SearchMenu)) w1)).
Proof.
  intros w1.
  assert (current_user (session w1) = Some bob) as Hu by (vm_compute; reflexivity).
  assert (switch_to_note_mode (session w1) = true) as Hf by (vm_compute; reflexivity).
  split; [exact Hu|]. split; [exact Hf|]. split; [vm_compute; reflexivity|].
  exact (proj1 (proj2 (recommendation_opens_write_mode example_km example_hash
                         (just (SetMenu SearchMenu)) w1 bob Hu) Hf)).
Defined.

(** ** A page with a text and a picture, and the chat *)

Lemma chat_untouched_unanswered (prompt : pystr) (w w' : World) :
  chat_untouched w w' -> chat_unanswered prompt w w'.
Proof. intros (H1 & H2 & H3 & H4). repeat split; auto. Qed.

Ltac untouched_cases H :=
  repeat case_match; simpl; try exact H;
  unfold chat_untouched in *; simpl in *;
  destruct H as (?Hn & ?Hm & ?Hr & ?Hf);
  repeat split; simpl; auto; try congruence.

Lemma chat_unanswered_sidebar (inp : Inputs) (u : User) (w0 w : World)
    (prompt : pystr) (reply : option pystr) (levels : nat) :
  in_event inp = ChatInput prompt reply levels ->
  forallb first_entry_ok (notes_file w0) = false ->
  chat_untouched w0 w ->
  flow_pq (chat_untouched w0) (chat_unanswered prompt w0) (sidebar inp u w).
Proof.
  intros Hev Hbad H. pose proof H as (Hn & Hm & Hr & Hf).
  unfold sidebar, place_mode_panel, write_mode_panel, selection_change, search_panel,
    account_panel, chat_turn.
  rewrite Hev, Hn, Hbad.
  repeat case_match; simpl; try exact H;
    unfold chat_unanswered; simpl; rewrite ?Hn, ?Hm, ?Hf; auto 10.
Qed.

(** X18. A page with both a text and a picture silences the chat. The
    summary sent to the model reads the key data of the first page of every
    note, which a page holding a text and a picture does not have (line
    346). So once some note has such a page as its first, a chat turn gets
    no answer: whatever the model would reply, the run adds no assistant
    message, recommends nothing new, raises no flag and leaves the store;
    at most the question of the user joins the transcript. *)
Theorem combined_first_page_silences_chat km hash (inp : Inputs) (w : World) (u : User)
    (prompt : pystr) (reply : option pystr) (levels : nat) :
  current_user (session w) = Some u ->
  in_event inp = ChatInput prompt reply levels ->
  forallb first_entry_ok (notes_file w) = false ->
  chat_unanswered prompt w (run km hash inp w).
Proof.
  intros Hu Hev Hbad. unfold run, script. rewrite Hu.
  apply (main_app_flow2 (chat_untouched w) (chat_unanswered prompt w)).
  - unfold chat_untouched, sample_location, process_switch_flag, widget_update.
    rewrite Hev. simpl. repeat case_match; simpl; auto.
  - apply chat_untouched_unanswered.
  - intros w1 H1. pose proof H1 as (Hn & _). unfold seeding. rewrite Hn.
    destruct (notes_file w) eqn:Hnotes; [discriminate Hbad|].
    repeat case_match; simpl; exact H1.
  - intros w1 H1. unfold initial_centering.
    repeat case_match; simpl; try exact H1;
      apply chat_untouched_unanswered; untouched_cases H1.
  - intros w1 H1. unfold refresh_nearby. untouched_cases H1.
  - intros w1 H1. apply (chat_unanswered_sidebar inp u w w1 prompt reply levels Hev Hbad H1).
  - intros w1 H1. unfold map_column. rewrite Hev. exact H1.
  - intros w1 H1. apply chat_untouched_unanswered.
    unfold right_column. rewrite Hev. repeat case_match; simpl; exact H1.
Qed.


Lemma combined_first_page_silences_chat_witness :
  let w3 := runs example_km example_hash (take 3 picture_then_chat)
                 (world_of bob_at_n2 [n1; n2]) in
  current_user (session w3) = Some bob
  /\ forallb first_entry_ok (notes_file w3) = false
  /\ chat_started (session w3) = true
  /\ chat_unanswered (py "somewhere calm") w3
       (run example_km example_hash
            (just (ChatInput (py "somewhere calm") (Some reply_n1) 900)) w3).
Proof.
  intros w3.
  assert (current_user (session w3) = Some bob) as Hu by (vm_compute; reflexivity).
  assert (forallb first_entry_ok (notes_file w3) = false) as Hbad
    by (vm_compute; reflexivity).
  split; [exact Hu|]. split; [exact Hbad|]. split; [vm_compute; reflexivity|].
  exact (combined_first_page_silences_chat example_km example_hash
           (just (ChatInput (py "somewhere calm") (Some reply_n1) 900)) w3 bob
           (py "somewhere calm") (Some reply_n1) 900 Hu eq_refl Hbad).
Defined.

(** ** The gate while no position was sampled *)

Lemma unsampled_ok_initial : unsampled_ok initial_session.
Proof. intros _. reflexivity. Qed.

Ltac sampled_cases H :=
  repeat case_match; simpl; try exact H;
  try (exact unsampled_ok_initial);
  try (unfold is_Some; simpl; eauto; fail);
  try (destruct H as [? H]; discriminate H);
  try (destruct H as [? H]; unfold is_Some; simpl in *; eauto; fail);
  try (intros Hn; simpl in Hn; destruct H as [? H]; simpl in *; congruence).

Lemma unsampled_ok_run km hash (inp : Inputs) (w : World) :
  located (session w) -> unsampled_ok (session w) ->
  unsampled_ok (session (run km hash inp w)).
Proof.
  intros Hloc Hok. unfold run, script.
  destruct (current_user (session w)) as [u|].
  2:{ unfold auth_page. repeat case_match; simpl; exact Hok. }
  set (w0 := with_session
               (fun s => sample_location (in_location inp)
                           (process_switch_flag (widget_update (in_event inp) s))) w).
  assert (located (session w0)) as Hloc0 by (apply located_prelude; exact Hloc).
  assert (unsampled_ok (session w0)) as Hok0.
  { unfold w0, unsampled_ok, sample_location, process_switch_flag, widget_update in *.
    simpl. repeat case_match; simpl; auto; discriminate. }
  destruct (user_location (session w0)) as [l|] eqn:Hl0.
  - apply (main_app_flow2 (fun w' => is_Some (user_location (session w')))
                          (fun w' => unsampled_ok (session w'))).
    + fold w0. rewrite Hl0. eauto.
    + intros w1 [l1 H1] Hn. congruence.
    + intros w1 H1. unfold seeding. sampled_cases H1.
    + intros w1 H1. unfold initial_centering. sampled_cases H1.
    + intros w1 H1. unfold refresh_nearby. sampled_cases H1.
    + intros w1 H1.
      unfold sidebar, place_mode_panel, write_mode_panel, selection_change, search_panel,
        account_panel, chat_turn, handle_reply.
      sampled_cases H1.
    + intros w1 H1. unfold map_column. sampled_cases H1.
    + intros w1 H1. unfold right_column, entry_form, delete_block.
      repeat case_match; simpl;
        intros Hn; simpl in Hn; destruct H1 as [? H1]; simpl in *; congruence.
  - assert (seeding inp w0 = Continue w0) as Hseed
      by (unfold seeding; rewrite Hl0; reflexivity).
    assert (initial_centering w0 = Continue w0) as Hcen
      by (unfold initial_centering; rewrite Hl0; reflexivity).
    unfold located in Hloc0. rewrite Hl0 in Hloc0.
    unfold main_app. fold w0. rewrite Hseed. cbn [and_then].
    rewrite Hcen. cbn [and_then]. rewrite Hloc0. exact Hok0.
Qed.

Lemma unsampled_ok_runs km hash (inps : list Inputs) (w : World) :
  located (session w) -> unsampled_ok (session w) ->
  located (session (runs km hash inps w)) /\ unsampled_ok (session (runs km hash inps w)).
Proof.
  revert w. induction inps as [|inp rest IH]; intros w Hloc Hok; [auto|].
  simpl. apply IH; [apply located_run | apply unsampled_ok_run]; assumption.
Qed.

(** C3. From the initial session on, whatever the runs: while the session
    holds no position (none was sampled since the login), the gate denies
    the view of every note with its message that the position is not
    available, not with the too-far warning, and denies every append with
    the message of its own; it permits nothing. For in such a session no
    note is recommended; and the map has no centre, so that the page is
    not drawn before a position is there. *)
Theorem gate_without_location km hash (inps : list Inputs) (w : World) (note : Note) :
  session w = initial_session ->
  user_location (session (runs km hash inps w)) = None ->
  view_gate_of km (session (runs km hash inps w)) note = ViewNoLocation
  /\ post_gate km (session (runs km hash inps w)) note = PostNoLocation
  /\ recommended_note_id (session (runs km hash inps w)) = None
  /\ center (session (runs km hash inps w)) = None.
Proof.
  intros Hw Hnone.
  destruct (unsampled_ok_runs km hash inps w) as [Hloc Hok].
  { rewrite Hw. exact located_initial. }
  { rewrite Hw. exact unsampled_ok_initial. }
  pose proof (Hok Hnone) as Hrec.
  destruct (gate_cases_without_location km _ note Hnone) as [Hview Hpost].
  unfold is_recommended in Hview. rewrite Hrec in Hview. simpl in Hview.
  unfold located in Hloc. rewrite Hnone in Hloc. auto.
Qed.

Lemma gate_without_location_witness :
  session (world_of initial_session [n1; n2]) = initial_session
  /\ current_user (session (runs example_km example_hash no_position_runs
                              (world_of initial_session [n1; n2]))) = Some bob
  /\ user_location (session (runs example_km example_hash no_position_runs
                               (world_of initial_session [n1; n2]))) = None
  /\ view_gate_of example_km
       (session (runs example_km example_hash no_position_runs
                      (world_of initial_session [n1; n2]))) n1 = ViewNoLocation
  /\ post_gate example_km
       (session (runs example_km example_hash no_position_runs
                      (world_of initial_session [n1; n2]))) n1 = PostNoLocation.
Proof.
  assert (user_location (session (runs example_km example_hash no_position_runs
                                       (world_of initial_session [n1; n2]))) = None)
    as Hnone by (vm_compute; reflexivity).
  split; [reflexivity|]. split; [vm_compute; reflexivity|]. split; [exact Hnone|].
  destruct (gate_without_location example_km example_hash no_position_runs
              (world_of initial_session [n1; n2]) n1 eq_refl Hnone) as (Hv & Hp & _).
  split; [exact Hv | exact Hp].
Defined.
